(** * prometheus-uptimerobot: the collection pipeline

    A shallow embedding of [src/ws/prometheus_uptimerobot/web.py]
    (classes [PrometheusGauge] and [UptimeRobotCollector]) together with
    the properties of the collection pipeline stated in the specification.

    Conventions of the embedding.
    - JSON documents and Python values are terms of [pyval]; a [dict] is an
      association list in insertion order, looked up from the front.
    - Python objects that are mutated in place (the gauge families) live in
      a heap and are named by their address; a dictionary of gauges maps a
      key to an address, so two names for one gauge alias one heap cell.
    - A method is a function [world -> result * world].  The world is kept
      when an exception is raised: an append that happened before the
      exception is still there afterwards, as in Python.
    - A Python [float] is written as the exact rational it was computed
      from; rounding to binary64 is outside the model.
    - The [while] loop of the paginated fetch takes a fuel argument and
      answers [Diverges] when the fuel is used up.
    - What the program does not decide is read from an [environment]: the
      outcome of a request (what [requests] refuses to send for the URL and
      the headers at hand, what the server answers, where the JSON decoder
      gives up), the clock, the platform's local time, and what
      [datetime.fromisoformat] of the running interpreter reads beyond the
      format common to all of them.  The theorems hold for every
      environment. *)

From Stdlib Require Import ZArith QArith Bool List String Ascii Lia.
Import ListNotations.

Set Warnings "-register-all".

Local Open Scope string_scope.
Local Open Scope list_scope.
Local Open Scope Z_scope.

(** ** Python values *)

Inductive pyval : Type :=
| PNone
| PBool (b : bool)
| PInt (z : Z)
| PFloat (q : Q)
| PStr (s : string)
| PList (l : list pyval)
| PDict (d : list (string * pyval)).

Definition pydict : Type := list (string * pyval).

(** [bool(v)]: the truth value used by [if v], [not v] and [and]. *)
Definition truthy (v : pyval) : bool :=
  match v with
  | PNone => false
  | PBool b => b
  | PInt z => negb (z =? 0)
  | PFloat q => negb (Qeq_bool q 0)
  | PStr s => negb (String.eqb s "")
  | PList l => match l with [] => false | _ :: _ => true end
  | PDict d => match d with [] => false | _ :: _ => true end
  end.

(** [v == s] for a string literal [s]. *)
Definition py_eq_str (v : pyval) (s : string) : bool :=
  match v with
  | PStr s' => String.eqb s' s
  | _ => false
  end.

(** [v is not None] *)
Definition is_not_None (v : pyval) : bool :=
  match v with
  | PNone => false
  | _ => true
  end.

Fixpoint dict_lookup {A : Type} (k : string) (d : list (string * A))
  : option A :=
  match d with
  | [] => None
  | (k', v) :: d' => if String.eqb k k' then Some v else dict_lookup k d'
  end.

Fixpoint chars (s : string) : list pyval :=
  match s with
  | EmptyString => []
  | String c s' => PStr (String c EmptyString) :: chars s'
  end.

Fixpoint is_prefix (p s : string) : bool :=
  match p, s with
  | EmptyString, _ => true
  | String a p', String b s' => Ascii.eqb a b && is_prefix p' s'
  | String _ _, EmptyString => false
  end.

Fixpoint is_substring (p s : string) : bool :=
  is_prefix p s
  || match s with
     | EmptyString => false
     | String _ s' => is_substring p s'
     end.

(** ** Exceptions *)

Inductive transport_failure : Type :=
| ConnectionError
| ReadTimeout
| TooManyRedirects.

(** The subclasses of [requests.RequestException] that a page request can
    end in.  [Refused] stands for the four that [requests] raises before
    anything is sent - [MissingSchema], [InvalidSchema], [InvalidURL] and
    [InvalidHeader] - which the program does not tell apart. *)
Inductive request_failure : Type :=
| Transport (t : transport_failure)
| Refused
| HTTPError (status_code : Z)
| JSONDecodeError.

(** Every exception below is a subclass of Python's [Exception].
    [ValueError] also stands for its subclass [UnicodeEncodeError]: no
    handler of the program names the subclass. *)
Inductive exn : Type :=
| ValueError (msg : string)
| TypeError (msg : string)
| AttributeError
| KeyError (key : string)
| OverflowError
| OSError
| RecursionError
| RequestException (f : request_failure)
| UptimeRobotAPIError (cause : request_failure).

Definition is_RequestException (e : exn) : bool :=
  match e with
  | RequestException _ => true
  | _ => false
  end.

Definition is_UptimeRobotAPIError (e : exn) : bool :=
  match e with
  | UptimeRobotAPIError _ => true
  | _ => false
  end.

Inductive result (A : Type) : Type :=
| Ok (a : A)
| Exc (e : exn)
| Diverges.

Arguments Ok {A} a.
Arguments Exc {A} e.
Arguments Diverges {A}.

(** ** Operations on JSON values that can raise *)

(** [v.get(k, default)]: only a dict has the method. *)
Definition py_get (v : pyval) (k : string) (default : pyval) : result pyval :=
  match v with
  | PDict d =>
      match dict_lookup k d with
      | Some x => Ok x
      | None => Ok default
      end
  | _ => Exc AttributeError
  end.

(** [v[k]] *)
Definition py_getitem (v : pyval) (k : string) : result pyval :=
  match v with
  | PDict d =>
      match dict_lookup k d with
      | Some x => Ok x
      | None => Exc (KeyError k)
      end
  | _ => Exc (TypeError "indices must be integers")
  end.

(** [k in v] for a string [k]. *)
Definition py_contains (k : string) (v : pyval) : result bool :=
  match v with
  | PDict d =>
      match dict_lookup k d with
      | Some _ => Ok true
      | None => Ok false
      end
  | PList l => Ok (existsb (fun x => py_eq_str x k) l)
  | PStr s => Ok (is_substring k s)
  | _ => Exc (TypeError "argument is not iterable")
  end.

(** The elements [list.extend(v)] appends: a list gives its items, a dict
    its keys, a string its characters; nothing else is iterable. *)
Definition py_iter (v : pyval) : result (list pyval) :=
  match v with
  | PList l => Ok l
  | PDict d => Ok (map (fun kv => PStr (fst kv)) d)
  | PStr s => Ok (chars s)
  | _ => Exc (TypeError "object is not iterable")
  end.

(** [len(v)] *)
Definition py_len (v : pyval) : result nat :=
  match v with
  | PList l => Ok (List.length l)
  | PDict d => Ok (List.length d)
  | PStr s => Ok (String.length s)
  | _ => Exc (TypeError "object has no len()")
  end.

(** ** Samples, gauge families, the world *)

(** [core.Sample(name, labels, value)] *)
Record Sample : Type := mkSample {
  sample_name : string;
  sample_labels : pydict;
  sample_value : pyval
}.

Record PrometheusGauge : Type := mkGauge {
  name : string;                 (* namespace_shortname, set by the base class *)
  documentation : string;
  samples : list Sample;
  _name : string;
  _namespace : string
}.

Inductive level : Type := INFO | WARNING | ERROR.

(** What the module's [logger] was asked to write, by format string. *)
Inductive log_message : Type :=
| Failed_to_parse_datetime (iso_string : pyval) (e : exn)
| Error_collecting_metrics (e : exn)
| Error_processing_monitor (friendlyName : pyval) (e : exn)
| Fetched_page (page_count : nat) (n : nat)
| Fetched_total (n : nat)
| Failed_to_fetch (url : pyval) (e : exn).

Record world : Type := mkWorld {
  heap : list PrometheusGauge;         (* the gauge objects, by address *)
  calls : list string;                 (* URLs requested so far, in order *)
  logs : list (level * log_message);   (* log records, in order *)
  ticks : nat                          (* readings of the clock so far *)
}.

Definition empty_world : world := mkWorld [] [] [] 0.

Definition set_heap (h : list PrometheusGauge) (w : world) : world :=
  mkWorld h (calls w) (logs w) (ticks w).

(** ** The monad of methods *)

Definition M (A : Type) : Type := world -> result A * world.

Definition ret {A : Type} (a : A) : M A := fun w => (Ok a, w).

Definition raise {A : Type} (e : exn) : M A := fun w => (Exc e, w).

Definition bind {A B : Type} (m : M A) (k : A -> M B) : M B :=
  fun w =>
    match m w with
    | (Ok a, w') => k a w'
    | (Exc e, w') => (Exc e, w')
    | (Diverges, w') => (Diverges, w')
    end.

Declare Scope py_scope.
Delimit Scope py_scope with py.
Notation "x <- m ;; k" := (bind m (fun x => k))
  (at level 61, m at next level, right associativity) : py_scope.
Notation "m ;; k" := (bind m (fun _ => k))
  (at level 61, right associativity) : py_scope.
Local Open Scope py_scope.

(** A pure operation that may raise, run as a method. *)
Definition lift {A : Type} (r : result A) : M A := fun w => (r, w).

(** [try: body  except <catches> as e: handler e]; an exception the
    clause does not name goes on to the caller. *)
Definition try_except {A : Type} (body : M A) (catches : exn -> bool)
    (handler : exn -> M A) : M A :=
  fun w =>
    match body w with
    | (Exc e, w') => if catches e then handler e w' else (Exc e, w')
    | r => r
    end.

Definition except_Exception (e : exn) : bool := true.

Definition log (l : level) (m : log_message) : M unit :=
  fun w => (Ok tt, mkWorld (heap w) (calls w) (logs w ++ [(l, m)]) (ticks w)).

(** ** Heap of gauge objects *)

Definition dummy_gauge : PrometheusGauge := mkGauge "" "" [] "" "".

(** The object at an address.  Addresses come from [alloc] only, so they
    are in range in every world a program reaches. *)
Definition gauge_at (w : world) (a : nat) : PrometheusGauge :=
  nth a (heap w) dummy_gauge.

Fixpoint update_nth {A : Type} (n : nat) (f : A -> A) (l : list A) : list A :=
  match l, n with
  | [], _ => []
  | x :: l', O => f x :: l'
  | x :: l', S n' => x :: update_nth n' f l'
  end.

Definition alloc (g : PrometheusGauge) : M nat :=
  fun w => (Ok (List.length (heap w)), set_heap (heap w ++ [g]) w).

Definition read (a : nat) : M PrometheusGauge :=
  fun w => (Ok (gauge_at w a), w).

Definition modify (a : nat) (f : PrometheusGauge -> PrometheusGauge) : M unit :=
  fun w => (Ok tt, set_heap (update_nth a f (heap w)) w).

Definition NAMESPACE : string := "uptimerobot".
Definition API_BASE_URL : string := "https://api.uptimerobot.com/v3".

Module Gauge.

(** [PrometheusGauge.__init__]: the base class stores
    [f"{namespace}_{name}"] and the documentation and starts with no
    samples. *)
Definition __init__ (name documentation namespace : string) : M nat :=
  alloc (mkGauge (namespace ++ "_" ++ name) documentation [] name namespace).

(** [PrometheusGauge.__call__] *)
Definition __call__ (self : nat) (value : pyval) (labels : option pydict)
  : M unit :=
  let labels :=
    match labels with
    | None => []
    | Some l => l
    end in
  g <- read self ;;
  modify self (fun g' =>
    mkGauge (name g') (documentation g')
            (samples g' ++ [mkSample (name g) labels value])
            (_name g') (_namespace g')).

(** [PrometheusGauge.clone] *)
Definition clone (self : nat) : M nat :=
  g <- read self ;;
  __init__ (_name g) (documentation g) (_namespace g).

End Gauge.

(** ** The environment of a collector

    What the program cannot see in its own text: the upstream server, the
    wall clock, and the platform's conversion of local time. *)

(** Why [requests.get] raises before anything is sent: [requests] refuses
    the URL or a header (a [RequestException]), or the standard library
    raises a [ValueError] that [requests] does not wrap - the
    [UnicodeEncodeError] of an authorization header outside Latin-1, the
    [ValueError] of a header that breaks the line or of a URL that cannot
    be split. *)
Inductive send_refusal : Type :=
| invalid_request
| unwrapped_value_error.

(** Where the JSON decoder gives up on a text that is JSON: an integer of
    more digits than the interpreter converts ([ValueError]), or more
    nesting than its stack takes ([RecursionError]).  [response.json()]
    does not wrap either. *)
Inductive decoder_limit : Type :=
| integer_too_long
| nesting_too_deep.

Definition exn_of_decoder_limit (l : decoder_limit) : exn :=
  match l with
  | integer_too_long =>
      ValueError "Exceeds the limit for integer string conversion"
  | nesting_too_deep => RecursionError
  end.

(** What [requests.get(url, headers=..., timeout=...)] comes back with for
    the headers and the timeout of the collector at hand, redirects
    already followed: nothing is sent; the request is sent and no response
    comes back; or a response with its status code and its body.  The body
    is [None] when it is not JSON ([response.json()] raises
    [JSONDecodeError]), and [Oversized] when it is JSON beyond a limit of
    the decoder. *)
Inductive http_outcome : Type :=
| NotSent (r : send_refusal)
| Unreachable (t : transport_failure)
| Response (status_code : Z) (body : option pyval)
| Oversized (status_code : Z) (l : decoder_limit).

(** ** The [datetime] library, as far as the collector uses it

    Every CPython since 3.7 reads
    [YYYY-MM-DD[*HH[:MM[:SS[.fff[fff]]]][+HH:MM[:SS[.ffffff]]]]], with
    ASCII digits only, and reads it alike.  CPython 3.11 and later read
    more of ISO 8601 (dates without hyphens, week dates, fractions of any
    length, offsets without a colon, ...): what the running interpreter
    makes of a string outside the common format is a parameter of the
    environment. *)

Record datetime : Type := mkDatetime {
  year : Z;
  month : Z;
  day : Z;
  hour : Z;
  minute : Z;
  second : Z;
  microsecond : Z;
  tzinfo : option Z        (* UTC offset in microseconds; None when naive *)
}.

(** Why the platform refuses the fields of a naive datetime:
    [OverflowError] (out of range for [time_t]), [ValueError] (year out of
    range) or [OSError]. *)
Inductive mktime_error : Type :=
| time_t_overflow
| year_out_of_range
| os_error.

Record environment : Type := mkEnvironment {
  (** the outcome of a GET of a URL, sent with the authorization header
      made of the collector's [api_key] and with its timeout *)
  upstream : string -> http_outcome;
  (** the k-th reading of [datetime.now()], in microseconds of local time *)
  wall_clock : nat -> Z;
  (** [time.mktime] on the fields of a naive datetime: seconds since the
      epoch, or why the platform refuses the date *)
  mktime : datetime -> Z + mktime_error;
  (** what [datetime.fromisoformat] of the running interpreter reads from
      a string outside the common format, if it reads it *)
  isoformat_extension : string -> option datetime
}.

Definition and_then {A B : Type} (o : option A) (k : A -> option B)
  : option B :=
  match o with
  | Some a => k a
  | None => None
  end.

Notation "'let?' x ':=' o 'in' k" := (and_then o (fun x => k))
  (at level 10, x pattern, o at level 100, k at level 200).

Definition digit_of (c : ascii) : option Z :=
  let n := Z.of_nat (nat_of_ascii c) in
  if (48 <=? n) && (n <=? 57) then Some (n - 48) else None.

Fixpoint parse_digits (n : nat) (acc : Z) (s : string) : option (Z * string) :=
  match n with
  | O => Some (acc, s)
  | S n' =>
      match s with
      | EmptyString => None
      | String c s' =>
          let? d := digit_of c in
          parse_digits n' (acc * 10 + d) s'
      end
  end.

Definition expect (c : ascii) (s : string) : option string :=
  match s with
  | EmptyString => None
  | String c' s' => if Ascii.eqb c c' then Some s' else None
  end.

(** [YYYY-MM-DD], and what follows it. *)
Definition _parse_isoformat_date (s : string) : option (Z * Z * Z * string) :=
  let? (y, s) := parse_digits 4 0 s in
  let? s := expect "-" s in
  let? (m, s) := parse_digits 2 0 s in
  let? s := expect "-" s in
  let? (d, s) := parse_digits 2 0 s in
  Some (y, m, d, s).

(** The fraction of a second: three digits are milliseconds, six are
    microseconds, nothing else is accepted. *)
Definition parse_fraction (s : string) : option Z :=
  match String.length s with
  | 3%nat =>
      let? (v, _) := parse_digits 3 0 s in
      Some (v * 1000)
  | 6%nat =>
      let? (v, _) := parse_digits 6 0 s in
      Some v
  | _ => None
  end.

(** [HH[:MM[:SS[.fff[fff]]]]], the whole of [s]. *)
Definition _parse_hh_mm_ss_ff (s : string) : option (Z * Z * Z * Z) :=
  let? (hh, s) := parse_digits 2 0 s in
  match s with
  | EmptyString => Some (hh, 0, 0, 0)
  | String c s =>
      if negb (Ascii.eqb c ":") then None else
      let? (mm, s) := parse_digits 2 0 s in
      match s with
      | EmptyString => Some (hh, mm, 0, 0)
      | String c s =>
          if negb (Ascii.eqb c ":") then None else
          let? (ss, s) := parse_digits 2 0 s in
          match s with
          | EmptyString => Some (hh, mm, ss, 0)
          | String c s =>
              if negb (Ascii.eqb c ".") then None else
              let? us := parse_fraction s in
              Some (hh, mm, ss, us)
          end
      end
  end.

Definition is_sign (c : ascii) : bool := Ascii.eqb c "+" || Ascii.eqb c "-".

(** The time string up to the first sign, the sign, and the rest. *)
Fixpoint split_at_sign (s : string) : string * option (ascii * string) :=
  match s with
  | EmptyString => (EmptyString, None)
  | String c s' =>
      if is_sign c then (EmptyString, Some (c, s'))
      else let (t, z) := split_at_sign s' in (String c t, z)
  end.

Definition tz_length_ok (tzstr : string) : bool :=
  let n := String.length tzstr in
  Nat.eqb n 5 || Nat.eqb n 8 || Nat.eqb n 15.

(** [HH[:MM[:SS[.fff[fff]]]][+HH:MM[:SS[.ffffff]]]]: the time fields and
    the UTC offset in microseconds, if one is written. *)
Definition _parse_isoformat_time (tstr : string)
  : option (Z * Z * Z * Z * option Z) :=
  let (timestr, tz) := split_at_sign tstr in
  let? (hh, mm, ss, us) := _parse_hh_mm_ss_ff timestr in
  match tz with
  | None => Some (hh, mm, ss, us, None)
  | Some (sign, tzstr) =>
      if negb (tz_length_ok tzstr) then None else
      let? (th, tm, ts, tus) := _parse_hh_mm_ss_ff tzstr in
      let tzsign := if Ascii.eqb sign "-" then -1 else 1 in
      Some (hh, mm, ss, us,
            Some (tzsign * ((th * 3600 + tm * 60 + ts) * 1000000 + tus)))
  end.

Definition _is_leap (year : Z) : bool :=
  (year mod 4 =? 0) && (negb (year mod 100 =? 0) || (year mod 400 =? 0)).

Definition _DAYS_IN_MONTH : list Z :=
  [-1; 31; 28; 31; 30; 31; 30; 31; 31; 30; 31; 30; 31].

Definition _DAYS_BEFORE_MONTH : list Z :=
  [-1; 0; 31; 59; 90; 120; 151; 181; 212; 243; 273; 304; 334].

Definition _days_before_year (year : Z) : Z :=
  let y := year - 1 in
  y * 365 + y / 4 - y / 100 + y / 400.

Definition _days_in_month (year month : Z) : Z :=
  if (month =? 2) && _is_leap year then 29
  else nth (Z.to_nat month) _DAYS_IN_MONTH 0.

Definition _days_before_month (year month : Z) : Z :=
  nth (Z.to_nat month) _DAYS_BEFORE_MONTH 0
  + (if (2 <? month) && _is_leap year then 1 else 0).

Definition _ymd2ord (year month day : Z) : Z :=
  _days_before_year year + _days_before_month year month + day.

Definition between (lo x hi : Z) : bool := (lo <=? x) && (x <=? hi).

(** The range checks of the [datetime] and [timezone] constructors. *)
Definition fields_in_range (dt : datetime) : bool :=
  between 1 (year dt) 9999
  && between 1 (month dt) 12
  && between 1 (day dt) (_days_in_month (year dt) (month dt))
  && between 0 (hour dt) 23
  && between 0 (minute dt) 59
  && between 0 (second dt) 59
  && between 0 (microsecond dt) 999999
  && match tzinfo dt with
     | None => true
     | Some off => (-86400000000 <? off) && (off <? 86400000000)
     end.

(** The range checks on the date fields alone. *)
Definition date_in_range (dt : datetime) : bool :=
  between 1 (year dt) 9999
  && between 1 (month dt) 12
  && between 1 (day dt) (_days_in_month (year dt) (month dt)).

Definition invalid_isoformat : exn := ValueError "Invalid isoformat string".

(** The string starts with four ASCII digits: no interpreter reads a
    string that does not. *)
Definition begins_with_year (s : string) : bool :=
  match parse_digits 4 0 s with
  | Some _ => true
  | None => false
  end.

(** The year is followed by a hyphen and no [W]: the date can only be
    written [YYYY-MM-DD], for every interpreter. *)
Definition hyphen_after_year (s : string) : bool :=
  match s with
  | String _ (String _ (String _ (String _ (String c4 rest)))) =>
      Ascii.eqb c4 "-"
      && match rest with
         | String c5 _ => negb (Ascii.eqb c5 "W")
         | EmptyString => true
         end
  | _ => false
  end.

(** What the running interpreter makes of a string outside the common
    format. *)
Definition beyond_common_format (env : environment) (date_string : string)
  : result datetime :=
  match isoformat_extension env date_string with
  | Some dt =>
      if fields_in_range dt then Ok dt
      else Exc (ValueError "field out of range")
  | None => Exc invalid_isoformat
  end.

(** [datetime.fromisoformat] on a [str].  A string in the common format
    with its fields in range is read; one whose date is out of the
    calendar, one that does not start with a year, and one with a
    malformed [YYYY-MM-DD] are refused by every interpreter; the rest is
    the running interpreter's to decide. *)
Definition fromisoformat (env : environment) (date_string : string)
  : result datetime :=
  match _parse_isoformat_date date_string with
  | None =>
      if begins_with_year date_string && negb (hyphen_after_year date_string)
      then beyond_common_format env date_string
      else Exc invalid_isoformat
  | Some (y, m, d, rest) =>
      let time_components :=
        match rest with
        | EmptyString => Some (0, 0, 0, 0, None)
        | String _ tstr => _parse_isoformat_time tstr
        end in
      match time_components with
      | None => beyond_common_format env date_string
      | Some (hh, mm, ss, us, tz) =>
          let dt := mkDatetime y m d hh mm ss us tz in
          if fields_in_range dt then Ok dt
          else if date_in_range dt then beyond_common_format env date_string
          else Exc (ValueError "field out of range")
      end
  end.

(** [timedelta.total_seconds()] of a timedelta of [td] microseconds. *)
Definition total_seconds (td : Z) : pyval := PFloat (td # 1000000).

Definition exn_of_mktime_error (e : mktime_error) : exn :=
  match e with
  | time_t_overflow => OverflowError
  | year_out_of_range => ValueError "year out of range"
  | os_error => OSError
  end.

(** [datetime.timestamp]: an aware datetime is subtracted from the epoch
    1970-01-01T00:00:00+00:00; a naive one is local time and goes to the
    platform. *)
Definition timestamp (env : environment) (dt : datetime) : result pyval :=
  match tzinfo dt with
  | Some off =>
      let days := _ymd2ord (year dt) (month dt) (day dt) - _ymd2ord 1970 1 1 in
      let secs := hour dt * 3600 + minute dt * 60 + second dt in
      Ok (total_seconds
            ((days * 86400 + secs) * 1000000 + microsecond dt - off))
  | None =>
      match mktime env dt with
      | inl s => Ok (total_seconds (s * 1000000 + microsecond dt))
      | inr e => Exc (exn_of_mktime_error e)
      end
  end.

(** [s.replace(old, new)] for a one-character [old]. *)
Fixpoint str_replace (old : ascii) (new : string) (s : string) : string :=
  match s with
  | EmptyString => EmptyString
  | String c s' =>
      if Ascii.eqb c old then new ++ str_replace old new s'
      else String c (str_replace old new s')
  end.

(** [v.replace("Z", "+00:00")]: only a [str] has the method. *)
Definition py_replace (v : pyval) (old : ascii) (new : string) : result string :=
  match v with
  | PStr s => Ok (str_replace old new s)
  | _ => Exc AttributeError
  end.

(** ** The collector *)

Record UptimeRobotCollector : Type := mkCollector {
  api_key : string;
  timeout : Z;
  _metrics : list (string * nat)     (* metric key -> address of its gauge *)
}.

Fixpoint for_each {A : Type} (l : list A) (body : A -> M unit) : M unit :=
  match l with
  | [] => ret tt
  | x :: l' => body x ;; for_each l' body
  end.

(** [metrics[key]] on a dictionary of gauges *)
Definition metrics_getitem (metrics : list (string * nat)) (key : string)
  : M nat :=
  match dict_lookup key metrics with
  | Some a => ret a
  | None => raise (KeyError key)
  end.

Module Collector.
Section WithEnvironment.

Variable env : environment.

Definition STATUS_UP : string := "UP".
Definition STATUS_DOWN : string := "DOWN".
Definition STATUS_PAUSED : string := "PAUSED".

Definition __init__ (api_key : pyval) (timeout : Z)
  : M UptimeRobotCollector :=
  if negb (truthy api_key) then raise (ValueError "API key is required")
  else
    match api_key with
    | PStr key =>
        if timeout <=? 0 then raise (ValueError "Timeout must be positive")
        else
          up <- Gauge.__init__ "up" "Is the monitor up?" NAMESPACE ;;
          status <- Gauge.__init__ "status" "Numeric status of the monitor"
                      NAMESPACE ;;
          ssl_expire <- Gauge.__init__ "ssl_expire" "Date of cert expiration"
                          NAMESPACE ;;
          scrape <- Gauge.__init__ "scrape_duration_seconds"
                      "Duration of uptimerobot.com scrape" NAMESPACE ;;
          ret (mkCollector key timeout
                 [("up", up); ("status", status); ("ssl_expire", ssl_expire);
                  ("scrape_duration_seconds", scrape)])
    | _ => raise (TypeError "API key must be a string")
    end.

(** [datetime.now()] *)
Definition now : M Z :=
  fun w => (Ok (wall_clock env (ticks w)),
            mkWorld (heap w) (calls w) (logs w) (S (ticks w))).

Definition _parse_iso_datetime (iso_string : pyval) : M pyval :=
  if negb (truthy iso_string) then ret PNone
  else
    try_except
      (s <- lift (py_replace iso_string "Z" "+00:00") ;;
       dt <- lift (fromisoformat env s) ;;
       lift (timestamp env dt))
      (fun e =>
         match e with
         | ValueError _ | AttributeError => true
         | _ => false
         end)
      (fun e =>
         log ERROR (Failed_to_parse_datetime iso_string e) ;;
         ret PNone).

Definition configure (api_key : pyval) (timeout : Z)
  : M UptimeRobotCollector :=
  __init__ api_key timeout.

(** The property [metrics]: the cached dictionary itself. *)
Definition metrics (self : UptimeRobotCollector) : list (string * nat) :=
  _metrics self.

Definition describe (self : UptimeRobotCollector) : list nat :=
  map snd (metrics self).

Definition _process_monitor (monitor : pyval) (metrics : list (string * nat))
  : M unit :=
  try_except
    (status <- lift (py_get monitor "status" PNone) ;;
     monitor_name <- lift (py_get monitor "friendlyName" (PStr "")) ;;
     monitor_type <- lift (py_get monitor "type" (PStr "")) ;;
     monitor_url <- lift (py_get monitor "url" (PStr "")) ;;
     let labels :=
       [("monitor_name", monitor_name);
        ("monitor_type", monitor_type);
        ("monitor_url", monitor_url);
        ("monitor_paused",
         PStr (if py_eq_str status STATUS_PAUSED then "true" else "false"))]
     in
     let is_up := py_eq_str status STATUS_UP in
     up <- metrics_getitem metrics "up" ;;
     Gauge.__call__ up (PInt (if is_up then 1 else 0)) (Some labels) ;;
     let status_value := PInt (if is_up then 1 else 0) in
     st <- metrics_getitem metrics "status" ;;
     Gauge.__call__ st status_value (Some labels) ;;
     ssl_info <- lift (py_get monitor "sslExpiryDateTime" PNone) ;;
     if truthy ssl_info then
       ssl_timestamp <- _parse_iso_datetime ssl_info ;;
       if is_not_None ssl_timestamp then
         ssl_expire <- metrics_getitem metrics "ssl_expire" ;;
         Gauge.__call__ ssl_expire ssl_timestamp (Some labels)
       else ret tt
     else ret tt)
    except_Exception
    (fun e =>
       friendlyName <- lift (py_get monitor "friendlyName" (PStr "unknown")) ;;
       log ERROR (Error_processing_monitor friendlyName e)).

(** [requests.get(url, headers=..., timeout=...)].  The response is its
    status code and what [response.json()] will do.  A URL that is not a
    string is turned into one that has no scheme [requests] serves, and is
    refused; which strings are refused, and what the headers made of
    [self.api_key] lead to, is the environment's.  Only a request that is
    sent is recorded. *)
Definition requests_get (url : pyval) : M (Z * result pyval) :=
  match url with
  | PStr u =>
      fun w =>
        let sent := mkWorld (heap w) (calls w ++ [u]) (logs w) (ticks w) in
        match upstream env u with
        | NotSent invalid_request => (Exc (RequestException Refused), w)
        | NotSent unwrapped_value_error =>
            (Exc (ValueError "the request cannot be written"), w)
        | Unreachable t => (Exc (RequestException (Transport t)), sent)
        | Response status_code (Some v) => (Ok (status_code, Ok v), sent)
        | Response status_code None =>
            (Ok (status_code, Exc (RequestException JSONDecodeError)), sent)
        | Oversized status_code l =>
            (Ok (status_code, Exc (exn_of_decoder_limit l)), sent)
        end
  | _ => raise (RequestException Refused)
  end.

(** [response.raise_for_status()]: client and server errors raise. *)
Definition raise_for_status (response : Z * result pyval) : M unit :=
  let status_code := fst response in
  if (400 <=? status_code) && (status_code <? 600)
  then raise (RequestException (HTTPError status_code))
  else ret tt.

(** [response.json()]: a body that is not JSON raises
    [requests.exceptions.JSONDecodeError], a [RequestException] (the test
    [test_malformed_json_response] expects the API error for it); a
    [ValueError] or [RecursionError] of the decoder is passed on as it
    is. *)
Definition json (response : Z * result pyval) : M pyval :=
  lift (snd response).

Definition _get_paginated (next_link : pyval) : M pyval :=
  let url :=
    if truthy next_link then next_link
    else PStr (API_BASE_URL ++ "/monitors/") in
  try_except
    (response <- requests_get url ;;
     raise_for_status response ;;
     json response)
    is_RequestException
    (fun e =>
       log ERROR (Failed_to_fetch url e) ;;
       match e with
       | RequestException f => raise (UptimeRobotAPIError f)
       | _ => raise e
       end).

(** [monitors.extend(response.get("data", []))] *)
Definition extend_with_data (monitors : list pyval) (response : pyval)
  : M (list pyval) :=
  data <- lift (py_get response "data" (PList [])) ;;
  items <- lift (py_iter data) ;;
  ret (monitors ++ items).

(** ["nextLink" in response and response.get("nextLink")], as a truth
    value. *)
Definition has_next_link (response : pyval) : M bool :=
  present <- lift (py_contains "nextLink" response) ;;
  if present then
    link <- lift (py_get response "nextLink" PNone) ;;
    ret (truthy link)
  else ret false.

(** The [while] loop of [_get_monitors]; [fuel] bounds the number of
    times its body runs. *)
Fixpoint follow_next_links (fuel : nat) (response : pyval)
    (monitors : list pyval) (page_count : nat) : M (list pyval) :=
  continue <- has_next_link response ;;
  if continue then
    match fuel with
    | O => fun w => (Diverges, w)
    | S fuel' =>
        next_link <- lift (py_getitem response "nextLink") ;;
        response <- _get_paginated next_link ;;
        if truthy response then
          monitors <- extend_with_data monitors response ;;
          let page_count := S page_count in
          data <- lift (py_get response "data" (PList [])) ;;
          n <- lift (py_len data) ;;
          log INFO (Fetched_page page_count n) ;;
          follow_next_links fuel' response monitors page_count
        else ret monitors
    end
  else ret monitors.

Definition _get_monitors (fuel : nat) : M (list pyval) :=
  response <- _get_paginated PNone ;;
  monitors <-
    (if truthy response then
       monitors <- extend_with_data [] response ;;
       follow_next_links fuel response monitors 0
     else ret []) ;;
  log INFO (Fetched_total (List.length monitors)) ;;
  ret monitors.

Definition collect (fuel : nat) (self : UptimeRobotCollector)
  : M (list nat) :=
  start_time <- now ;;
  try_except
    (let metrics := metrics self in
     monitors <- _get_monitors fuel ;;
     for_each monitors (fun monitor => _process_monitor monitor metrics) ;;
     end_time <- now ;;
     let duration := total_seconds (end_time - start_time) in
     scrape <- metrics_getitem metrics "scrape_duration_seconds" ;;
     Gauge.__call__ scrape duration (Some []))
    except_Exception
    (fun e =>
       if is_UptimeRobotAPIError e then raise e
       else log ERROR (Error_collecting_metrics e)) ;;
  ret (map snd (metrics self)).

End WithEnvironment.
End Collector.

(** The families a caller sees behind the references [collect] returns. *)
Definition families (w : world) (refs : list nat) : list PrometheusGauge :=
  map (gauge_at w) refs.

(** ** Vocabulary of the specification: pages *)

(** The listing endpoint, where the first page is fetched. *)
Definition listing_url : string := API_BASE_URL ++ "/monitors/".

(** The link a page gives to its successor: the value under [nextLink]
    when it is present and non-empty. *)
Definition next_link (page : pydict) : option pyval :=
  match dict_lookup "nextLink" page with
  | Some v => if truthy v then Some v else None
  | None => None
  end.

(** The records of a page: its [data] array, nothing when it is absent. *)
Definition records (page : pydict) : list pyval :=
  match dict_lookup "data" page with
  | Some (PList l) => l
  | _ => []
  end.

Definition data_array_or_absent (page : pydict) : bool :=
  match dict_lookup "data" page with
  | None => true
  | Some (PList _) => true
  | Some _ => false
  end.

Definition all_records (pages : list (string * pydict)) : list pyval :=
  List.concat (map (fun up => records (snd up)) pages).

(** The server answers [url] with a response that is no client or server
    error and whose body decodes to [v]. *)
Definition serves (env : environment) (url : string) (v : pyval) : Prop :=
  match upstream env url with
  | Response status_code (Some body) =>
      (status_code < 400 \/ 600 <= status_code) /\ body = v
  | _ => False
  end.

(** The request of [url] is sent and ends in a transport failure, a 4xx
    or 5xx status, or a body that is not JSON. *)
Definition fails (env : environment) (url : string) : Prop :=
  match upstream env url with
  | NotSent _ => False
  | Unreachable _ => True
  | Response status_code body =>
      400 <= status_code < 600 \/ body = None
  | Oversized status_code _ => 400 <= status_code < 600
  end.




Definition hd_url (pages : list (string * pydict)) (pending : string)
  : string :=
  match pages with
  | [] => pending
  | (u, _) :: _ => u
  end.

(** [pages] are served one after the other from [url] on, each at the URL
    paired with it and each linking to the next; the last one links to
    [pending], which is not fetched yet. *)
Fixpoint linked_prefix (env : environment) (url : string)
    (pages : list (string * pydict)) (pending : string) : Prop :=
  match pages with
  | [] => url = pending
  | (u, page) :: rest =>
      u = url
      /\ serves env u (PDict page)
      /\ next_link page = Some (PStr (hd_url rest pending))
      /\ linked_prefix env (hd_url rest pending) rest pending
  end.

(** A sequence of N >= 1 linked pages: as above, and the last page has no
    link. *)
Fixpoint linked_pages (env : environment) (url : string)
    (pages : list (string * pydict)) : Prop :=
  match pages with
  | [] => False
  | (u, page) :: rest =>
      u = url
      /\ serves env u (PDict page)
      /\ match rest with
         | [] => next_link page = None
         | (u', _) :: _ =>
             next_link page = Some (PStr u') /\ linked_pages env u' rest
         end
  end.

Definition pages_well_formed (pages : list (string * pydict)) : Prop :=
  Forall (fun up => data_array_or_absent (snd up) = true) pages.

(** ** Vocabulary of the specification: effects of a method *)

(** The method returns or raises; it does not run out of fuel. *)
Definition terminates {A : Type} (m : M A) : Prop :=
  forall w, fst (m w) <> Diverges.

(** The method leaves every gauge object as it was. *)
Definition heap_stable {A : Type} (m : M A) : Prop :=
  forall w, heap (snd (m w)) = heap w.

(** The method does not read the clock. *)
Definition clock_stable {A : Type} (m : M A) : Prop :=
  forall w, ticks (snd (m w)) = ticks w.

(** The method leaves the gauge object at address [b] as it was, and
    creates no gauge object. *)
Definition leaves (b : nat) {A : Type} (m : M A) : Prop :=
  forall w,
    gauge_at (snd (m w)) b = gauge_at w b
    /\ List.length (heap (snd (m w))) = List.length (heap w).

(** The method changes no gauge object but the one at address [a], and
    creates none. *)
Definition touches_only (a : nat) {A : Type} (m : M A) : Prop :=
  forall w,
    List.length (heap (snd (m w))) = List.length (heap w)
    /\ forall b, b <> a -> gauge_at (snd (m w)) b = gauge_at w b.

(** ** Vocabulary of the specification: the metric set *)

Definition sample_count (g : PrometheusGauge) : nat :=
  List.length (samples g).

(** The family behind a key of a metric set. *)
Definition family (w : world) (metrics : list (string * nat)) (key : string)
  : PrometheusGauge :=
  match dict_lookup key metrics with
  | Some a => gauge_at w a
  | None => dummy_gauge
  end.

Definition distinct4 (a b c d : nat) : bool :=
  negb (Nat.eqb a b) && negb (Nat.eqb a c) && negb (Nat.eqb a d)
  && negb (Nat.eqb b c) && negb (Nat.eqb b d) && negb (Nat.eqb c d).

(** The four keys of the metric set name four different gauge objects of
    the heap. *)
Definition is_metric_set (metrics : list (string * nat)) (w : world) : bool :=
  match dict_lookup "up" metrics, dict_lookup "status" metrics,
        dict_lookup "ssl_expire" metrics,
        dict_lookup "scrape_duration_seconds" metrics with
  | Some up, Some st, Some ssl, Some sc =>
      distinct4 up st ssl sc
      && Nat.ltb up (List.length (heap w))
      && Nat.ltb st (List.length (heap w))
      && Nat.ltb ssl (List.length (heap w))
      && Nat.ltb sc (List.length (heap w))
  | _, _, _, _ => false
  end.

(** A monitor record: a JSON object. *)
Definition is_record (v : pyval) : bool :=
  match v with
  | PDict _ => true
  | _ => false
  end.

(** [d.get(k, default)] on a dict. *)
Definition dict_get (d : pydict) (k : string) (default : pyval) : pyval :=
  match dict_lookup k d with
  | Some x => x
  | None => default
  end.

(** The label set the mapper builds for a record. *)
Definition monitor_labels (d : pydict) : pydict :=
  [("monitor_name", dict_get d "friendlyName" (PStr ""));
   ("monitor_type", dict_get d "type" (PStr ""));
   ("monitor_url", dict_get d "url" (PStr ""));
   ("monitor_paused",
    PStr (if py_eq_str (dict_get d "status" PNone) "PAUSED"
          then "true" else "false"))].

(** The value of the [up] and [status] samples of a record. *)
Definition up_value (d : pydict) : pyval :=
  PInt (if py_eq_str (dict_get d "status" PNone) "UP" then 1 else 0).

(** A gauge family with one more sample at the end. *)
Definition append_sample (s : Sample) (g : PrometheusGauge) : PrometheusGauge :=
  mkGauge (name g) (documentation g) (samples g ++ [s]) (_name g) (_namespace g).

(** ** Vocabulary of the specification: UTC timestamps *)

Definition digit_char (d : Z) : ascii := ascii_of_nat (Z.to_nat (48 + d)).

(** [v] written with [n] decimal digits, leading zeros included. *)
Fixpoint digits (n : nat) (v : Z) : string :=
  match n with
  | O => EmptyString
  | S n' => String (digit_char ((v / 10 ^ Z.of_nat n') mod 10)) (digits n' v)
  end.

Inductive fraction : Type :=
| whole_second
| milliseconds (ms : Z)
| microseconds (us : Z).

Definition fraction_string (f : fraction) : string :=
  match f with
  | whole_second => ""
  | milliseconds ms => "." ++ digits 3 ms
  | microseconds us => "." ++ digits 6 us
  end.

Definition fraction_micros (f : fraction) : Z :=
  match f with
  | whole_second => 0
  | milliseconds ms => ms * 1000
  | microseconds us => us
  end.

Definition fraction_in_range (f : fraction) : Prop :=
  match f with
  | whole_second => True
  | milliseconds ms => 0 <= ms <= 999
  | microseconds us => 0 <= us <= 999999
  end.

(** [YYYY-MM-DDThh:mm:ss[.fff[fff]]Z] *)
Definition iso_utc_string (y m d hh mm ss : Z) (f : fraction) : string :=
  digits 4 y ++ "-" ++ digits 2 m ++ "-" ++ digits 2 d ++ "T"
  ++ digits 2 hh ++ ":" ++ digits 2 mm ++ ":" ++ digits 2 ss
  ++ fraction_string f ++ "Z".



(** The Gregorian calendar. *)
Definition leap_year (y : Z) : bool :=
  ((y mod 4 =? 0) && negb (y mod 100 =? 0)) || (y mod 400 =? 0).

Definition year_length (y : Z) : Z := if leap_year y then 366 else 365.

Definition month_length (y m : Z) : Z :=
  match m with
  | 1 => 31
  | 2 => if leap_year y then 29 else 28
  | 3 => 31
  | 4 => 30
  | 5 => 31
  | 6 => 30
  | 7 => 31
  | 8 => 31
  | 9 => 30
  | 10 => 31
  | 11 => 30
  | 12 => 31
  | _ => 0
  end.

(** Days in the years 1 .. n. *)
Fixpoint days_in_years_upto (n : nat) : Z :=
  match n with
  | O => 0
  | S k => days_in_years_upto k + year_length (Z.of_nat (S k))
  end.

(** Days in the months 1 .. n of year [y]. *)
Fixpoint days_in_months_upto (y : Z) (n : nat) : Z :=
  match n with
  | O => 0
  | S k => days_in_months_upto y k + month_length y (Z.of_nat (S k))
  end.

(** Whole days from 1970-01-01 to the day [d] of month [m] of year [y]. *)
Definition days_since_epoch (y m d : Z) : Z :=
  days_in_years_upto (Z.to_nat (y - 1)) - days_in_years_upto 1969
  + days_in_months_upto y (Z.to_nat (m - 1)) + (d - 1).

(** The instant in microseconds since 1970-01-01T00:00:00Z. *)
Definition utc_epoch_micros (y m d hh mm ss us : Z) : Z :=
  (((days_since_epoch y m d * 24 + hh) * 60 + mm) * 60 + ss) * 1000000 + us.

Definition valid_fields (y m d hh mm ss : Z) : Prop :=
  1 <= y <= 9999 /\ 1 <= m <= 12 /\ 1 <= d <= month_length y m
  /\ 0 <= hh <= 23 /\ 0 <= mm <= 59 /\ 0 <= ss <= 59.




(** The world after one more request, of [u]. *)
Definition add_call (u : string) (w : world) : world :=
  mkWorld (heap w) (calls w ++ [u]) (logs w) (ticks w).

(** ** Concrete upstreams, for the evaluation lemmas *)

(** A server that answers the listed URLs and has nothing else; a string
    that is not listed and does not start with [http://] or [https://] is
    not sent. *)
Definition serve_at (table : list (string * http_outcome)) (url : string)
  : http_outcome :=
  match dict_lookup url table with
  | Some r => r
  | None =>
      if is_prefix "http://" url || is_prefix "https://" url
      then Response 404 None
      else NotSent invalid_request
  end.

(** A clock that advances by a millisecond between two readings. *)
Definition steady_clock (k : nat) : Z := Z.of_nat k * 1000.

Definition environment_of (table : list (string * http_outcome))
  : environment :=
  mkEnvironment (serve_at table) steady_clock
    (fun _ => inr time_t_overflow) (fun _ => None).

Definition up_monitor : pyval :=
  PDict [("friendlyName", PStr "Test Monitor"); ("type", PStr "http");
         ("url", PStr "https://example.com"); ("status", PStr "UP")].

Definition paused_monitor : pyval :=
  PDict [("friendlyName", PStr "Paused Monitor"); ("type", PStr "port");
         ("url", PStr "db.example.com:5432"); ("status", PStr "PAUSED");
         ("sslExpiryDateTime", PNone)].

(** One page with one monitor that is up. *)
Definition single_page_upstream : environment :=
  environment_of
    [(listing_url, Response 200 (Some (PDict [("data", PList [up_monitor])])))].

(** One page whose [data] array starts with a JSON [null]. *)
Definition null_record_upstream : environment :=
  environment_of
    [(listing_url,
      Response 200 (Some (PDict [("data", PList [PNone; up_monitor])])))].

(** A 300 answer that carries a well-formed page. *)
Definition multiple_choices_upstream : environment :=
  environment_of
    [(listing_url, Response 300 (Some (PDict [("data", PList [up_monitor])])))].

(** A 200 answer whose body is JSON with an integer of more digits than
    the interpreter converts. *)
Definition oversized_body_upstream : environment :=
  environment_of [(listing_url, Oversized 200 integer_too_long)].

Definition second_url : string :=
  "https://api.uptimerobot.com/v3/monitors/?page=2".

Definition first_page : pydict :=
  [("data", PList [up_monitor]); ("nextLink", PStr second_url)].

Definition second_page : pydict := [("data", PList [paused_monitor])].

(** Two linked pages. *)
Definition two_page_upstream : environment :=
  environment_of
    [(listing_url, Response 200 (Some (PDict first_page)));
     (second_url, Response 200 (Some (PDict second_page)))].

(** A first page that links to a URL answering 500. *)
Definition broken_link_upstream : environment :=
  environment_of
    [(listing_url, Response 200 (Some (PDict first_page)));
     (second_url, Response 500 None)].

(** A first page that links to a URL answering the JSON value [null]. *)
Definition null_page_upstream : environment :=
  environment_of
    [(listing_url, Response 200 (Some (PDict first_page)));
     (second_url, Response 200 (Some PNone))].

(** The world in which a collector has just been constructed. *)
Definition fresh_collector : result UptimeRobotCollector * world :=
  Collector.__init__ (PStr "ur12345-abcdef123456789") 30 empty_world.

Definition the_collector : UptimeRobotCollector :=
  mkCollector "ur12345-abcdef123456789" 30
    [("up", 0%nat); ("status", 1%nat); ("ssl_expire", 2%nat);
     ("scrape_duration_seconds", 3%nat)].

Definition fresh_world : world := snd fresh_collector.

(** ** Vocabulary of the specification: what a method may raise and change *)

(** Every exception the method raises satisfies [P]. *)
Definition raises_only (P : exn -> Prop) {A : Type} (m : M A) : Prop :=
  forall w e, fst (m w) = Exc e -> P e.

(** [g'] is [g] with samples added at the end: name, documentation and
    namespace are the same and the samples of [g] are a prefix. *)
Definition extends (g g' : PrometheusGauge) : Prop :=
  name g' = name g
  /\ documentation g' = documentation g
  /\ _name g' = _name g
  /\ _namespace g' = _namespace g
  /\ exists more, samples g' = samples g ++ more.

(** The method creates no gauge object and only appends samples to the
    ones there are. *)
Definition append_only {A : Type} (m : M A) : Prop :=
  forall w,
    List.length (heap (snd (m w))) = List.length (heap w)
    /\ forall a, extends (gauge_at w a) (gauge_at (snd (m w)) a).

(** The outcome of the method does not depend on the world it starts
    in. *)
Definition world_blind {A : Type} (m : M A) : Prop :=
  forall w w', fst (m w) = fst (m w').

(** ** Vocabulary of the specification: links that never end *)

(** Every page of [pages] carries a link, and the link is served with a
    page of [pages] again: following the links from any of them comes to
    no end. *)
Definition links_never_end (env : environment) (pages : list pydict) : Prop :=
  forall p, In p pages ->
    data_array_or_absent p = true
    /\ exists u p',
         next_link p = Some (PStr u) /\ serves env u (PDict p')
         /\ In p' pages.

(** A listing whose only page links to itself. *)
Definition looping_page : pydict :=
  [("data", PList [up_monitor]); ("nextLink", PStr listing_url)].

Definition looping_upstream : environment :=
  environment_of [(listing_url, Response 200 (Some (PDict looping_page)))].

(** ** Vocabulary of the specification: pages the fetch cannot use *)

(** Values [list.extend] cannot iterate over. *)
Definition not_iterable (v : pyval) : bool :=
  match v with
  | PList _ | PDict _ | PStr _ => false
  | _ => true
  end.

(** A decoded body that is no JSON object, or an object whose [data] is
    not iterable. *)
Definition unusable_page (v : pyval) : bool :=
  match v with
  | PDict p =>
      match dict_lookup "data" p with
      | Some data => not_iterable data
      | None => false
      end
  | _ => true
  end.

(** A listing endpoint that answers with a JSON array instead of an
    object. *)
Definition array_upstream : environment :=
  environment_of [(listing_url, Response 200 (Some (PList [up_monitor])))].

(** Records with a certificate expiry: one the normalizer reads, one it
    rejects. *)
Definition certified_record : pydict :=
  [("friendlyName", PStr "Shop"); ("type", PStr "http");
   ("url", PStr "https://shop.example.com"); ("status", PStr "UP");
   ("sslExpiryDateTime", PStr "2025-12-31T23:59:59.000Z")].

Definition miscertified_record : pydict :=
  [("friendlyName", PStr "Shop"); ("type", PStr "http");
   ("url", PStr "https://shop.example.com"); ("status", PStr "UP");
   ("sslExpiryDateTime", PStr "invalid-datetime")].

(** ** The web application

    [generate_latest], the [ConfigParser] and the process environment are
    the libraries' and the platform's: they are parameters here.  The
    application's own log records are kept apart from the collector's. *)

Definition DEFAULT_PORT : Z := 9429.
Definition MIMETYPE_TEXT_PLAIN : string := "text/plain".

(** The bodies the routes answer with, by format string. *)
Inductive response_body : Type :=
| Exposition (data : string)
| API_key_not_configured
| UptimeRobot_API_Error (e : exn)
| Error_collecting_metrics_with_trace (e : exn)
| Health_OK.


(** What [config.get] raises. *)
Inductive config_error : Type :=
| NoSectionError
| NoOptionError
| InterpolationError.

Inductive app_log_message : Type :=
| UptimeRobot_API_error (e : exn)
| Error_collecting_metrics_in_route (e : exn)
| Failed_to_read_configuration_file
| Failed_to_get_api_key_from_config (e : config_error)
| API_key_not_found
| Starting_server (host : string) (port : Z).

Module flask.

(** [Response(body, mimetype=..., status=...)]; the status is 200 when it
    is not given. *)
Record Response : Type := mkResponse {
  body : response_body;
  mimetype : string;
  status : Z
}.

(** The application object: of [app.config], the one key the module
    sets. *)
Record Flask : Type := mkFlask {
  config : pydict
}.

End flask.

Record app_world : Type := mkAppWorld {
  collector_world : world;
  app_logs : list (level * app_log_message)
}.

(** [argparse.Namespace] of the three options. *)
Record Namespace : Type := mkNamespace {
  host : string;
  port : Z;
  config_file : option string        (* options.config *)
}.

(** [app.run(host=..., port=...)] *)
Inductive running : Type :=
| run (app : flask.Flask) (host : string) (port : Z).

Definition nonempty (s : string) : bool :=
  match s with
  | EmptyString => false
  | String _ _ => true
  end.

Module App.
Section WithPlatform.

(** [generate_latest]'s rendering of the metric families a registry
    yields; it raises on a family it cannot render. *)
Variable render : list PrometheusGauge -> result string.

Variable env : environment.

(** [os.environ.get] *)
Variable environ : string -> option string.

Variable ConfigParser : Type.

(** [config.get(section, option)] *)
Variable config_get : ConfigParser -> string -> string -> config_error + string.

(** [ConfigParser().read(os.path.expanduser(path))] and the parser it
    leaves; nothing when reading raises. *)
Variable config_read : string -> option ConfigParser.

Definition create_app (api_key : pyval) : flask.Flask :=
  flask.mkFlask
    (if truthy api_key then [("UPTIMEROBOT_API_KEY", api_key)] else []).

(** [registry.register(collector)] asks [describe] for the names and a new
    registry has none to clash with; [generate_latest(registry)] then runs
    [collect] once and renders what it returns. *)
Definition generate_latest (fuel : nat) (collector : UptimeRobotCollector)
  : M string :=
  refs <- Collector.collect env fuel collector ;;
  fun w => (render (families w refs), w).

(** The route [/metrics] *)
Definition metrics (fuel : nat) (app : flask.Flask) (aw : app_world)
  : result flask.Response * app_world :=
  let configured_api_key := dict_get (flask.config app) "UPTIMEROBOT_API_KEY" PNone in
  if negb (truthy configured_api_key) then
    (Ok (flask.mkResponse API_key_not_configured MIMETYPE_TEXT_PLAIN 500), aw)
  else
    match (collector <- Collector.configure configured_api_key 30 ;;
           generate_latest fuel collector) (collector_world aw) with
    | (Ok data, w) =>
        (Ok (flask.mkResponse (Exposition data) MIMETYPE_TEXT_PLAIN 200),
         mkAppWorld w (app_logs aw))
    | (Exc e, w) =>
        if is_UptimeRobotAPIError e then
          (Ok (flask.mkResponse (UptimeRobot_API_Error e) MIMETYPE_TEXT_PLAIN
                 503),
           mkAppWorld w (app_logs aw ++ [(ERROR, UptimeRobot_API_error e)]))
        else
          (Ok (flask.mkResponse (Error_collecting_metrics_with_trace e)
                 MIMETYPE_TEXT_PLAIN 500),
           mkAppWorld w
             (app_logs aw ++ [(ERROR, Error_collecting_metrics_in_route e)]))
    | (Diverges, w) => (Diverges, mkAppWorld w (app_logs aw))
    end.

(** The route [/health] *)
Definition health : flask.Response :=
  flask.mkResponse Health_OK MIMETYPE_TEXT_PLAIN 200.

Definition load_config (config_path : string)
  : option ConfigParser * list (level * app_log_message) :=
  match config_read config_path with
  | Some config => (Some config, [])
  | None => (None, [(ERROR, Failed_to_read_configuration_file)])
  end.

(** A [ConfigParser] is never false: it always has its default section. *)
Definition get_api_key (config : option ConfigParser)
  : option string * list (level * app_log_message) :=
  let from_config :=
    match config with
    | Some c =>
        match config_get c "default" "api_key" with
        | inr value => (Some value, [])
        | inl e => (None, [(WARNING, Failed_to_get_api_key_from_config e)])
        end
    | None => (None, [])
    end in
  match environ "UPTIMEROBOT_API_KEY" with
  | Some api_key => if nonempty api_key then (Some api_key, []) else from_config
  | None => from_config
  end.

(** [main], up to the call of [app.run]: the application it starts, if
    any, and the log records it writes. *)
Definition main (options : Namespace)
  : option running * list (level * app_log_message) :=
  let (config, read_log) :=
    match config_file options with
    | Some path => if nonempty path then load_config path else (None, [])
    | None => (None, [])
    end in
  let (api_key, key_log) := get_api_key config in
  match api_key with
  | Some key =>
      if nonempty key then
        (Some (run (create_app (PStr key)) (host options) (port options)),
         read_log ++ key_log
         ++ [(INFO, Starting_server (host options) (port options))])
      else (None, read_log ++ key_log ++ [(ERROR, API_key_not_found)])
  | None => (None, read_log ++ key_log ++ [(ERROR, API_key_not_found)])
  end.

End WithPlatform.
End App.

(** A renderer for the evaluation lemmas: one line per sample, with the
    name of its family. *)
Definition sample_names (gauges : list PrometheusGauge) : result string :=
  Ok (String.concat ""
        (flat_map (fun g => map (fun s => (sample_name s ++ ";")%string)
                              (samples g)) gauges)).


(** A platform for the evaluation lemmas: the key in the process
    environment, and a parser that holds sections of options, with one
    configuration file. *)
Definition key_in_environ (variable : string) : option string :=
  if String.eqb variable "UPTIMEROBOT_API_KEY"
  then Some "ur12345-abcdef123456789"
  else None.

Definition sections : Type := list (string * list (string * string)).

Definition sections_get (config : sections) (section option : string)
  : config_error + string :=
  match dict_lookup section config with
  | None => inl NoSectionError
  | Some options =>
      match dict_lookup option options with
      | None => inl NoOptionError
      | Some value => inr value
      end
  end.

Definition one_config_file (path : string) : option sections :=
  if String.eqb path "/etc/uptimerobot.ini"
  then Some [("default", [("api_key", "ur-from-the-file")])]
  else Some [].

(** ** Vocabulary of the specification: timestamps with a UTC offset *)

(** [+HH:MM] is east of Greenwich, [-HH:MM] west of it. *)
Inductive direction : Type := east | west.

Definition sign_char (s : direction) : ascii :=
  match s with
  | east => "+"
  | west => "-"
  end.

(** The offset from UTC, in microseconds. *)
Definition offset_micros (s : direction) (oh om : Z) : Z :=
  match s with
  | east => (oh * 3600 + om * 60) * 1000000
  | west => - ((oh * 3600 + om * 60) * 1000000)
  end.

(** [YYYY-MM-DDThh:mm:ss[.fff[fff]]+HH:MM], or with [-HH:MM] *)
Definition iso_offset_string (y m d hh mm ss : Z) (f : fraction)
    (s : direction) (oh om : Z) : string :=
  digits 4 y ++ "-" ++ digits 2 m ++ "-" ++ digits 2 d ++ "T"
  ++ digits 2 hh ++ ":" ++ digits 2 mm ++ ":" ++ digits 2 ss
  ++ fraction_string f
  ++ String (sign_char s) (digits 2 oh ++ ":" ++ digits 2 om).

(** * Properties *)

(** ** Arithmetic on addresses *)

Ltac decide_nat_tests :=
  repeat match goal with
  | |- context [Nat.eqb ?a ?b] =>
      first [ replace (Nat.eqb a b) with false
                by (symmetry; apply Nat.eqb_neq; lia)
            | replace (Nat.eqb a b) with true
                by (symmetry; apply Nat.eqb_eq; lia) ]
  | |- context [Nat.ltb ?a ?b] =>
      first [ replace (Nat.ltb a b) with true
                by (symmetry; apply Nat.ltb_lt; lia)
            | replace (Nat.ltb a b) with false
                by (symmetry; apply Nat.ltb_ge; lia) ]
  end.

Lemma nth_after_prefix {A : Type} (h l : list A) (i : nat) (d : A) :
  nth (List.length h + i) (h ++ l) d = nth i l d.
Proof. apply app_nth2_plus. Qed.

(** ** Construction *)

(** C8. Constructing a collector raises for an absent or empty API key
    and for a non-positive timeout, in both cases before any gauge is
    created; with a non-empty string key and a positive timeout it returns
    a collector that holds the key, the timeout and four distinct, empty
    gauge families. *)
Theorem init_validates_configuration
    (key_arg : pyval) (timeout_arg : Z) (w : world) :
  (key_arg = PNone \/ key_arg = PStr "" ->
     Collector.__init__ key_arg timeout_arg w
     = (Exc (ValueError "API key is required"), w))
  /\ (timeout_arg <= 0 ->
      exists e, Collector.__init__ key_arg timeout_arg w = (Exc e, w))
  /\ (forall key, key_arg = PStr key -> key <> "" -> 0 < timeout_arg ->
      exists c w',
        Collector.__init__ key_arg timeout_arg w = (Ok c, w')
        /\ api_key c = key /\ timeout c = timeout_arg
        /\ is_metric_set (Collector.metrics c) w' = true
        /\ forall k, samples (family w' (Collector.metrics c) k) = []).
Proof.
  split; [| split].
  - intros [-> | ->]; reflexivity.
  - intros Hle. unfold Collector.__init__.
    destruct (negb (truthy key_arg)); [eexists; reflexivity |].
    destruct key_arg; try (eexists; reflexivity).
    apply Z.leb_le in Hle. rewrite Hle. eexists; reflexivity.
  - intros key -> Hne Hpos. unfold Collector.__init__.
    assert (truthy (PStr key) = true) as ->.
    { simpl. destruct key; [congruence | reflexivity]. }
    simpl negb. cbv iota.
    assert ((timeout_arg <=? 0) = false) as -> by (apply Z.leb_gt; lia).
    eexists. eexists. split; [reflexivity |].
    cbn [api_key timeout snd Collector.metrics _metrics].
    repeat split.
    + unfold is_metric_set.
      cbn [dict_lookup String.eqb Ascii.eqb Bool.eqb heap set_heap].
      rewrite !length_app. cbn [List.length]. unfold distinct4.
      decide_nat_tests. reflexivity.
    + intros k. unfold family. cbn [dict_lookup].
      unfold gauge_at. cbn [heap set_heap].
      rewrite !length_app. cbn [List.length].
      rewrite <- !app_assoc. cbn [app].
      repeat match goal with
      | |- context [String.eqb k ?s] => destruct (String.eqb k s)
      end; try reflexivity.
      * rewrite <- (Nat.add_0_r (List.length (heap w))).
        rewrite nth_after_prefix. reflexivity.
      * rewrite nth_after_prefix. reflexivity.
      * rewrite <- Nat.add_assoc. rewrite nth_after_prefix. reflexivity.
      * rewrite <- !Nat.add_assoc. rewrite nth_after_prefix. reflexivity.
Qed.

Lemma init_validates_configuration_witness :
  Collector.__init__ PNone 30 empty_world
  = (Exc (ValueError "API key is required"), empty_world)
  /\ (exists e,
        Collector.__init__ (PStr "ur12345-abcdef123456789") 0 empty_world
        = (Exc e, empty_world))
  /\ (exists c w',
        Collector.__init__ (PStr "ur12345-abcdef123456789") 30 empty_world
        = (Ok c, w')
        /\ api_key c = "ur12345-abcdef123456789" /\ timeout c = 30
        /\ is_metric_set (Collector.metrics c) w' = true
        /\ forall k, samples (family w' (Collector.metrics c) k) = []).
Proof.
  split; [| split].
  - apply (init_validates_configuration PNone 30 empty_world).
    left; reflexivity.
  - apply (init_validates_configuration
             (PStr "ur12345-abcdef123456789") 0 empty_world).
    lia.
  - destruct (init_validates_configuration
                (PStr "ur12345-abcdef123456789") 30 empty_world)
      as (_ & _ & H).
    apply (H "ur12345-abcdef123456789").
    + reflexivity.
    + discriminate.
    + lia.
Defined.

(** ** The paginated fetch *)

Section Pages.
Variable env : environment.


Lemma get_paginated_serves (link : pyval) (u : string) (v : pyval) (w : world) :
  (if truthy link then link else PStr listing_url) = PStr u ->
  serves env u v ->
  Collector._get_paginated env link w = (Ok v, add_call u w).
Proof.
  intros Hurl Hs. unfold Collector._get_paginated.
  change (API_BASE_URL ++ "/monitors/")%string with listing_url. rewrite Hurl.
  unfold serves in Hs.
  unfold try_except, bind, Collector.requests_get.
  destruct (upstream env u) as [r | t | st [body |] | st l];
    try contradiction.
  destruct Hs as [Hst ->].
  unfold Collector.raise_for_status. cbn [fst].
  assert ((400 <=? st) && (st <? 600) = false) as ->.
  { apply andb_false_iff. destruct Hst; [left; apply Z.leb_gt | right; apply Z.ltb_ge]; lia. }
  reflexivity.
Qed.

Lemma get_paginated_fails (link : pyval) (u : string) (w : world) :
  (if truthy link then link else PStr listing_url) = PStr u ->
  fails env u ->
  exists cause w',
    Collector._get_paginated env link w = (Exc (UptimeRobotAPIError cause), w')
    /\ heap w' = heap w /\ calls w' = calls w ++ [u] /\ ticks w' = ticks w.
Proof.
  intros Hurl Hf. unfold Collector._get_paginated.
  change (API_BASE_URL ++ "/monitors/")%string with listing_url. rewrite Hurl.
  unfold fails in Hf.
  unfold try_except, bind, Collector.requests_get.
  destruct (upstream env u) as [r | t | st body | st l].
  - contradiction.
  - do 2 eexists. split; [reflexivity | repeat split].
  - unfold Collector.raise_for_status.
    destruct body as [v |]; cbn [fst];
      destruct ((400 <=? st) && (st <? 600)) eqn:E;
      try (do 2 eexists; split; [reflexivity | repeat split]).
    destruct Hf as [Hf | Hf]; [| discriminate].
    apply andb_false_iff in E.
    destruct E as [E | E]; [apply Z.leb_gt in E | apply Z.ltb_ge in E]; lia.
  - unfold Collector.raise_for_status. cbn [fst].
    assert ((400 <=? st) && (st <? 600) = true) as ->
      by (apply andb_true_iff; split; [apply Z.leb_le | apply Z.ltb_lt]; lia).
    do 2 eexists. split; [reflexivity | repeat split].
Qed.

Lemma has_next_link_dict (p : pydict) (w : world) :
  Collector.has_next_link (PDict p) w
  = (Ok (match next_link p with Some _ => true | None => false end), w).
Proof.
  unfold Collector.has_next_link, next_link, bind, lift, py_contains, py_get.
  destruct (dict_lookup "nextLink" p) as [v |]; [| reflexivity].
  unfold ret. destruct (truthy v); reflexivity.
Qed.

Lemma next_link_getitem (p : pydict) (v : pyval) :
  next_link p = Some v -> py_getitem (PDict p) "nextLink" = Ok v /\ truthy v = true /\ p <> [].
Proof.
  unfold next_link, py_getitem. destruct p as [| kv p]; [discriminate |].
  destruct (dict_lookup "nextLink" (kv :: p)) as [x |]; [| discriminate].
  destruct (truthy x) eqn:E; [| discriminate].
  intros [= ->]. repeat split; auto. discriminate.
Qed.

Lemma extend_with_records (monitors : list pyval) (p : pydict) (w : world) :
  data_array_or_absent p = true ->
  Collector.extend_with_data monitors (PDict p) w = (Ok (monitors ++ records p), w).
Proof.
  unfold data_array_or_absent, records, Collector.extend_with_data, bind, lift, py_get.
  destruct (dict_lookup "data" p) as [[]|]; try discriminate; reflexivity.
Qed.

Lemma data_of_page (p : pydict) :
  data_array_or_absent p = true ->
  py_get (PDict p) "data" (PList []) = Ok (PList (records p)).
Proof.
  unfold data_array_or_absent, records, py_get.
  destruct (dict_lookup "data" p) as [[]|]; try discriminate; reflexivity.
Qed.

Lemma follow_stop (fuel : nat) (p : pydict) (monitors : list pyval) (n : nat) (w : world) :
  next_link p = None ->
  Collector.follow_next_links env fuel (PDict p) monitors n w = (Ok monitors, w).
Proof.
  intros H. destruct fuel; cbn [Collector.follow_next_links]; unfold bind;
    rewrite has_next_link_dict, H; reflexivity.
Qed.

Lemma follow_step (fuel : nat) (p0 p1 : pydict) (u : string) (monitors : list pyval) (n : nat) (w : world) :
  next_link p0 = Some (PStr u) ->
  serves env u (PDict p1) ->
  p1 <> [] ->
  data_array_or_absent p1 = true ->
  exists w',
    Collector.follow_next_links env (S fuel) (PDict p0) monitors n w
    = Collector.follow_next_links env fuel (PDict p1) (monitors ++ records p1) (S n) w'
    /\ heap w' = heap w /\ calls w' = calls w ++ [u] /\ ticks w' = ticks w.
Proof.
  intros Hl Hs Hne Hd.
  destruct (next_link_getitem _ _ Hl) as (Hg & Ht & _).
  cbn [Collector.follow_next_links]. unfold bind at 1.
  rewrite has_next_link_dict, Hl. unfold bind at 1. unfold lift at 1. rewrite Hg.
  unfold bind at 1. rewrite (get_paginated_serves (PStr u) u (PDict p1)); [| rewrite Ht; reflexivity | assumption].
  assert (truthy (PDict p1) = true) as ->. { destruct p1; [congruence | reflexivity]. }
  unfold bind at 1. rewrite extend_with_records by assumption.
  unfold bind at 1. unfold lift at 1. rewrite data_of_page by assumption.
  unfold bind at 1. unfold lift at 1. cbn [py_len].
  unfold bind at 1. unfold log at 1.
  eexists. split; [reflexivity |]. repeat split.
Qed.

Lemma follow_prefix (pending : string) (pages : list (string * pydict)) :
  forall (u : string) (p0 : pydict) (monitors : list pyval) (n : nat)
         (w : world) (fuel : nat),
    next_link p0 = Some (PStr u) ->
    linked_prefix env u pages pending ->
    pages_well_formed pages ->
    exists w' plast n',
      Collector.follow_next_links env (List.length pages + fuel) (PDict p0)
        monitors n w
      = Collector.follow_next_links env fuel (PDict plast)
          (monitors ++ all_records pages) n' w'
      /\ next_link plast = Some (PStr pending)
      /\ heap w' = heap w /\ calls w' = calls w ++ map fst pages
      /\ ticks w' = ticks w.
Proof.
  induction pages as [| [u1 p1] rest IH]; intros u p0 monitors n w fuel Hl Hp Hwf.
  - cbn in Hp. subst u. exists w, p0, n.
    unfold all_records. cbn. rewrite !app_nil_r. auto.
  - cbn [linked_prefix] in Hp. destruct Hp as (-> & Hs & Hn & Hrest).
    inversion Hwf as [| ? ? Hd Hwf']; subst. cbn [snd] in Hd.
    destruct (next_link_getitem _ _ Hn) as (_ & _ & Hne).
    cbn [List.length Nat.add].
    destruct (follow_step (List.length rest + fuel) p0 p1 u monitors n w Hl Hs Hne Hd)
      as (w1 & E1 & Hh1 & Hc1 & Ht1).
    destruct (IH _ p1 (monitors ++ records p1) (S n) w1 fuel Hn Hrest Hwf')
      as (w2 & plast & n' & E2 & Hl2 & Hh2 & Hc2 & Ht2).
    exists w2, plast, n'. rewrite E1, E2.
    unfold all_records. cbn [map List.concat fst snd].
    rewrite <- app_assoc. split; [reflexivity |].
    split; [assumption |]. rewrite Hh2, Hc2, Ht2, Hh1, Hc1, Ht1.
    rewrite <- app_assoc. auto.
Qed.

Lemma follow_last (fuel : nat) (p0 pN : pydict) (u : string)
    (monitors : list pyval) (n : nat) (w : world) :
  next_link p0 = Some (PStr u) ->
  serves env u (PDict pN) ->
  next_link pN = None ->
  data_array_or_absent pN = true ->
  exists w',
    Collector.follow_next_links env (S fuel) (PDict p0) monitors n w
    = (Ok (monitors ++ records pN), w')
    /\ heap w' = heap w /\ calls w' = calls w ++ [u] /\ ticks w' = ticks w.
Proof.
  intros Hl Hs Hn Hd. destruct pN as [| kv pN'].
  - destruct (next_link_getitem _ _ Hl) as (Hg & Ht & _).
    cbn [Collector.follow_next_links]. unfold bind at 1.
    rewrite has_next_link_dict, Hl. unfold bind at 1. unfold lift at 1.
    rewrite Hg. unfold bind at 1.
    rewrite (get_paginated_serves (PStr u) u (PDict []));
      [| rewrite Ht; reflexivity | assumption].
    cbn [truthy records dict_lookup]. rewrite app_nil_r.
    eexists. split; [reflexivity |]. repeat split.
  - destruct (follow_step fuel p0 (kv :: pN') u monitors n w Hl Hs) as (w' & E & H);
      [discriminate | assumption |].
    exists w'. rewrite E, follow_stop by assumption. auto.
Qed.

Lemma follow_falsy (fuel : nat) (p0 : pydict) (u : string) (v : pyval)
    (monitors : list pyval) (n : nat) (w : world) :
  next_link p0 = Some (PStr u) ->
  serves env u v ->
  truthy v = false ->
  Collector.follow_next_links env (S fuel) (PDict p0) monitors n w
  = (Ok monitors, add_call u w).
Proof.
  intros Hl Hs Hf.
  destruct (next_link_getitem _ _ Hl) as (Hg & Ht & _).
  cbn [Collector.follow_next_links]. unfold bind at 1.
  rewrite has_next_link_dict, Hl. unfold bind at 1. unfold lift at 1.
  rewrite Hg. unfold bind at 1.
  rewrite (get_paginated_serves (PStr u) u v);
    [| rewrite Ht; reflexivity | assumption].
  rewrite Hf. reflexivity.
Qed.

Lemma follow_fails (fuel : nat) (p0 : pydict) (u : string)
    (monitors : list pyval) (n : nat) (w : world) :
  next_link p0 = Some (PStr u) ->
  fails env u ->
  exists cause w',
    Collector.follow_next_links env (S fuel) (PDict p0) monitors n w
    = (Exc (UptimeRobotAPIError cause), w')
    /\ heap w' = heap w /\ calls w' = calls w ++ [u] /\ ticks w' = ticks w.
Proof.
  intros Hl Hf.
  destruct (next_link_getitem _ _ Hl) as (Hg & Ht & _).
  destruct (get_paginated_fails (PStr u) u w) as (cause & w' & E & H);
    [rewrite Ht; reflexivity | assumption |].
  exists cause, w'. split; [| assumption].
  cbn [Collector.follow_next_links]. unfold bind at 1.
  rewrite has_next_link_dict, Hl. unfold bind at 1. unfold lift at 1.
  rewrite Hg. unfold bind at 1. rewrite E. reflexivity.
Qed.

(** The first page is truthy: [_get_monitors] enters the loop with its
    records. *)
Lemma get_monitors_enter (fuel : nat) (p1 : pydict) (w : world) :
  serves env listing_url (PDict p1) ->
  p1 <> [] ->
  data_array_or_absent p1 = true ->
  Collector._get_monitors env fuel w
  = (monitors <- Collector.follow_next_links env fuel (PDict p1) (records p1) 0 ;;
     log INFO (Fetched_total (List.length monitors)) ;;
     ret monitors) (add_call listing_url w).
Proof.
  intros Hs Hne Hd. unfold Collector._get_monitors. unfold bind at 1.
  rewrite (get_paginated_serves PNone listing_url (PDict p1)) by (reflexivity || assumption).
  assert (truthy (PDict p1) = true) as ->. { destruct p1; [congruence | reflexivity]. }
  unfold bind at 1. unfold bind at 1. rewrite extend_with_records by assumption.
  reflexivity.
Qed.

Lemma linked_pages_split (pages : list (string * pydict)) :
  forall u, linked_pages env u pages ->
  exists init uN pN,
    pages = init ++ [(uN, pN)]
    /\ linked_prefix env u init uN
    /\ serves env uN (PDict pN)
    /\ next_link pN = None.
Proof.
  induction pages as [| [u1 p1] rest IH]; intros u H; [contradiction |].
  cbn [linked_pages] in H. destruct H as (-> & Hs & H).
  destruct rest as [| [u2 p2] rest'].
  - exists [], u, p1. cbn. auto.
  - destruct H as (Hn & Hrest).
    destruct (IH _ Hrest) as (init & uN & pN & E & Hp & HsN & HnN).
    exists ((u, p1) :: init), uN, pN. rewrite E. split; [reflexivity |].
    split; [| auto]. cbn [linked_prefix].
    assert (hd_url init uN = u2) as ->.
    { destruct init as [| [u' p'] init']; cbn in E |- *; congruence. }
    auto.
Qed.

End Pages.

(** C6. For a sequence of N linked pages, the first at the listing
    endpoint, each with a data array or none and each but the last with a
    non-empty [nextLink] naming the next, [_get_monitors] returns the
    records of all pages concatenated in page order, and it issues exactly
    the N requests of the pages' URLs, in that order: it follows
    [nextLink] while there is one and stops at the page without.  A page
    without a data array contributes no record.  (The loop body runs N - 1
    times.) *)
Theorem fetch_all_concatenates_pages
    (env : environment) (pages : list (string * pydict)) (fuel : nat)
    (w : world) :
  linked_pages env listing_url pages ->
  pages_well_formed pages ->
  (List.length pages <= S fuel)%nat ->
  exists w',
    Collector._get_monitors env fuel w = (Ok (all_records pages), w')
    /\ calls w' = calls w ++ map fst pages
    /\ List.length (calls w') = (List.length (calls w) + List.length pages)%nat
    /\ heap w' = heap w.
Proof.
  intros Hl Hwf Hfuel.
  destruct (linked_pages_split env pages _ Hl) as (init & uN & pN & -> & Hp & HsN & HnN).
  apply Forall_app in Hwf. destruct Hwf as [Hwf HwfN].
  inversion HwfN as [| ? ? HdN _]; subst. cbn [snd] in HdN.
  assert (forall w' : world, calls w' = calls w ++ map fst (init ++ [(uN, pN)]) ->
            List.length (calls w') = (List.length (calls w) + List.length (init ++ [(uN, pN)]))%nat) as Hlen.
  { intros w' ->. rewrite length_app, length_map. reflexivity. }
  assert (all_records (init ++ [(uN, pN)]) = all_records init ++ records pN) as ->.
  { unfold all_records. rewrite map_app, concat_app. cbn. rewrite app_nil_r. reflexivity. }
  destruct init as [| [u1 p1] rest].
  - cbn in Hp. subst uN. destruct pN as [| kv pN'].
    + unfold Collector._get_monitors. unfold bind at 1.
      rewrite (get_paginated_serves env PNone listing_url (PDict [])) by (reflexivity || assumption).
      eexists. split; [reflexivity |]. split; [reflexivity |]. split; [| reflexivity].
      apply Hlen. reflexivity.
    + rewrite get_monitors_enter with (p1 := kv :: pN') by (assumption || discriminate).
      unfold bind at 1. rewrite follow_stop by assumption.
      eexists. split; [reflexivity |]. split; [reflexivity |]. split; [| reflexivity].
      apply Hlen. reflexivity.
  - cbn [linked_prefix] in Hp. destruct Hp as (-> & Hs1 & Hn1 & Hrest).
    inversion Hwf as [| ? ? Hd1 Hwf']; subst. cbn [snd] in Hd1.
    destruct (next_link_getitem _ _ Hn1) as (_ & _ & Hne1).
    rewrite get_monitors_enter with (p1 := p1) by assumption.
    rewrite length_app in Hfuel. cbn [List.length] in Hfuel.
    replace fuel with (List.length rest + S (fuel - S (List.length rest)))%nat by lia.
    destruct (follow_prefix env uN rest _ p1 (records p1) 0%nat (add_call listing_url w)
                (S (fuel - S (List.length rest))) Hn1 Hrest Hwf')
      as (w1 & plast & n' & E1 & Hl1 & Hh1 & Hc1 & Ht1).
    destruct (follow_last env (fuel - S (List.length rest)) plast pN uN
                (records p1 ++ all_records rest) n' w1 Hl1 HsN HnN HdN)
      as (w2 & E2 & Hh2 & Hc2 & Ht2).
    unfold bind at 1. rewrite E1, E2.
    eexists. split.
    { unfold bind, log, ret. unfold all_records. cbn [map List.concat snd]. reflexivity. }
    cbn [calls heap]. rewrite Hc2, Hc1, Hh2, Hh1. cbn [add_call calls heap].
    assert (calls w ++ map fst (((listing_url, p1) :: rest) ++ [(uN, pN)])
            = ((calls w ++ [listing_url]) ++ map fst rest) ++ [uN]) as Ecalls.
    { cbn [app map fst]. rewrite map_app. cbn [map fst]. rewrite <- !app_assoc. reflexivity. }
    split; [symmetry; exact Ecalls |]. split; [| reflexivity].
    rewrite <- Ecalls. rewrite length_app, length_map. reflexivity.
Qed.


(** C10. When, after any number of linked pages, the next page request
    is answered with a body that decodes to a falsy JSON value (null,
    false, 0, an empty string, array or object), [_get_monitors] stops
    there without raising and returns the records of the pages before; a
    falsy first page gives the empty list. *)
Theorem falsy_page_ends_pagination
    (env : environment) (pages : list (string * pydict)) (url : string)
    (v : pyval) (fuel : nat) (w : world) :
  linked_prefix env listing_url pages url ->
  pages_well_formed pages ->
  serves env url v ->
  truthy v = false ->
  (List.length pages <= fuel)%nat ->
  exists w',
    Collector._get_monitors env fuel w = (Ok (all_records pages), w')
    /\ calls w' = calls w ++ map fst pages ++ [url]
    /\ heap w' = heap w.
Proof.
  intros Hp Hwf Hs Hf Hfuel.
  destruct pages as [| [u1 p1] rest].
  - cbn in Hp. subst url.
    unfold Collector._get_monitors. unfold bind at 1.
    rewrite (get_paginated_serves env PNone listing_url v) by (reflexivity || assumption).
    rewrite Hf. eexists. split; [reflexivity |]. split; reflexivity.
  - cbn [linked_prefix] in Hp. destruct Hp as (-> & Hs1 & Hn1 & Hrest).
    inversion Hwf as [| ? ? Hd1 Hwf']; subst. cbn [snd] in Hd1.
    destruct (next_link_getitem _ _ Hn1) as (_ & _ & Hne1).
    rewrite get_monitors_enter with (p1 := p1) by assumption.
    cbn [List.length] in Hfuel.
    replace fuel with (List.length rest + S (fuel - S (List.length rest)))%nat by lia.
    destruct (follow_prefix env url rest _ p1 (records p1) 0%nat
                (add_call listing_url w)
                (S (fuel - S (List.length rest))) Hn1 Hrest Hwf')
      as (w1 & plast & n' & E1 & Hl1 & Hh1 & Hc1 & Ht1).
    unfold bind at 1.
    rewrite E1, (follow_falsy env _ plast url v) by assumption.
    eexists. split.
    { unfold bind, log, ret. unfold all_records. cbn [map List.concat snd]. reflexivity. }
    cbn [calls heap add_call]. rewrite Hc1, Hh1. cbn [add_call calls heap map fst app].
    rewrite <- !app_assoc. split; reflexivity.
Qed.

Lemma collect_propagates (env : environment) (fuel : nat)
    (self : UptimeRobotCollector) (w w1 : world) (cause : request_failure) :
  Collector._get_monitors env fuel (snd (Collector.now env w))
  = (Exc (UptimeRobotAPIError cause), w1) ->
  Collector.collect env fuel self w = (Exc (UptimeRobotAPIError cause), w1).
Proof.
  intros E. unfold Collector.collect. unfold bind at 1. cbn [Collector.now].
  cbn [Collector.now snd] in E.
  unfold bind at 1. unfold try_except. unfold bind at 1. rewrite E. reflexivity.
Qed.

Lemma get_monitors_fails
    (env : environment) (pages : list (string * pydict)) (url : string)
    (fuel : nat) (w : world) :
  linked_prefix env listing_url pages url ->
  pages_well_formed pages ->
  fails env url ->
  (List.length pages <= fuel)%nat ->
  exists cause w',
    Collector._get_monitors env fuel w = (Exc (UptimeRobotAPIError cause), w')
    /\ heap w' = heap w
    /\ calls w' = calls w ++ map fst pages ++ [url].
Proof.
  intros Hp Hwf Hf Hfuel.
  destruct pages as [| [u1 p1] rest].
  - cbn in Hp. subst url.
    destruct (get_paginated_fails env PNone listing_url w eq_refl Hf)
      as (cause & w' & E & Hh & Hc & _).
    exists cause, w'. unfold Collector._get_monitors. unfold bind at 1.
    rewrite E. auto.
  - cbn [linked_prefix] in Hp. destruct Hp as (-> & Hs1 & Hn1 & Hrest).
    inversion Hwf as [| ? ? Hd1 Hwf']; subst. cbn [snd] in Hd1.
    destruct (next_link_getitem _ _ Hn1) as (_ & _ & Hne1).
    rewrite get_monitors_enter with (p1 := p1) by assumption.
    cbn [List.length] in Hfuel.
    replace fuel with (List.length rest + S (fuel - S (List.length rest)))%nat by lia.
    destruct (follow_prefix env url rest _ p1 (records p1) 0%nat
                (add_call listing_url w)
                (S (fuel - S (List.length rest))) Hn1 Hrest Hwf')
      as (w1 & plast & n' & E1 & Hl1 & Hh1 & Hc1 & Ht1).
    destruct (follow_fails env (fuel - S (List.length rest)) plast url
                (records p1 ++ all_records rest) n' w1 Hl1 Hf)
      as (cause & w2 & E2 & Hh2 & Hc2 & _).
    exists cause, w2. unfold bind at 1. rewrite E1, E2.
    split; [reflexivity |]. rewrite Hh2, Hc2, Hh1, Hc1.
    cbn [add_call calls heap map fst app]. rewrite <- !app_assoc. auto.
Qed.

(** C2, as amended. When a page request, the first or a later one, ends
    in a transport failure, a 4xx or 5xx status, or a body that is not
    JSON, [_get_monitors] raises one [UptimeRobotAPIError] at once (no
    further request is made), and [collect] lets it through to its caller:
    it returns no families and no gauge object has changed. *)
Theorem fetch_failure_is_propagated
    (env : environment) (pages : list (string * pydict)) (url : string)
    (fuel : nat) (self : UptimeRobotCollector) (w : world) :
  linked_prefix env listing_url pages url ->
  pages_well_formed pages ->
  fails env url ->
  (List.length pages <= fuel)%nat ->
  (exists cause w1,
     Collector._get_monitors env fuel w = (Exc (UptimeRobotAPIError cause), w1)
     /\ calls w1 = calls w ++ map fst pages ++ [url])
  /\ (exists cause w2,
        Collector.collect env fuel self w
        = (Exc (UptimeRobotAPIError cause), w2)
        /\ heap w2 = heap w
        /\ calls w2 = calls w ++ map fst pages ++ [url]).
Proof.
  intros Hp Hwf Hf Hfuel. split.
  - destruct (get_monitors_fails env pages url fuel w Hp Hwf Hf Hfuel)
      as (cause & w1 & E & _ & Hc).
    exists cause, w1. auto.
  - destruct (get_monitors_fails env pages url fuel (snd (Collector.now env w))
                Hp Hwf Hf Hfuel) as (cause & w2 & E & Hh & Hc).
    exists cause, w2. split; [apply collect_propagates; exact E |].
    cbn [Collector.now snd heap calls] in Hh, Hc. auto.
Qed.

Lemma fetch_failure_is_propagated_witness :
  (exists cause w1,
     Collector._get_monitors broken_link_upstream 1 fresh_world
     = (Exc (UptimeRobotAPIError cause), w1)
     /\ calls w1 = calls fresh_world ++ map fst [(listing_url, first_page)] ++ [second_url])
  /\ (exists cause w2,
        Collector.collect broken_link_upstream 1 the_collector fresh_world
        = (Exc (UptimeRobotAPIError cause), w2)
        /\ heap w2 = heap fresh_world
        /\ calls w2 = calls fresh_world ++ map fst [(listing_url, first_page)] ++ [second_url]).
Proof.
  apply (fetch_failure_is_propagated broken_link_upstream
           [(listing_url, first_page)] second_url 1 the_collector fresh_world).
  - cbn. repeat split. left; lia.
  - repeat constructor.
  - cbn. left; lia.
  - cbn. lia.
Defined.

Lemma falsy_page_ends_pagination_witness :
  exists w',
    Collector._get_monitors null_page_upstream 1 fresh_world
    = (Ok (all_records [(listing_url, first_page)]), w')
    /\ calls w' = calls fresh_world ++ map fst [(listing_url, first_page)] ++ [second_url]
    /\ heap w' = heap fresh_world.
Proof.
  apply (falsy_page_ends_pagination null_page_upstream
           [(listing_url, first_page)] second_url PNone 1 fresh_world).
  - cbn. repeat split. left; lia.
  - repeat constructor.
  - cbn. split; [left; lia | reflexivity].
  - reflexivity.
  - cbn. lia.
Defined.

Lemma fetch_all_concatenates_pages_witness :
  exists w',
    Collector._get_monitors two_page_upstream 1 fresh_world
    = (Ok (all_records [(listing_url, first_page); (second_url, second_page)]), w')
    /\ calls w' = calls fresh_world
                  ++ map fst [(listing_url, first_page); (second_url, second_page)]
    /\ List.length (calls w')
       = (List.length (calls fresh_world)
          + List.length [(listing_url, first_page); (second_url, second_page)])%nat
    /\ heap w' = heap fresh_world.
Proof.
  apply (fetch_all_concatenates_pages two_page_upstream
           [(listing_url, first_page); (second_url, second_page)] 1 fresh_world).
  - cbn. repeat split; left; lia.
  - repeat constructor.
  - cbn. lia.
Defined.

(** C2 fails as stated in two ways.  A status that is neither 2xx nor an
    error is not a failure: a 300 answer with a well-formed body passes
    [raise_for_status], the fetch returns its records and [collect]
    returns families with samples.  And a body that does not decode need
    not give the API error: for JSON with an integer beyond the
    interpreter's digit limit [response.json()] raises a plain
    [ValueError], which [_get_paginated] does not wrap; [collect] catches
    it, logs it and returns the families, empty, as if the scrape had
    succeeded. *)
Lemma fetch_faults_that_are_not_propagated :
  upstream multiple_choices_upstream listing_url
  = Response 300 (Some (PDict [("data", PList [up_monitor])]))
  /\ fst (Collector._get_monitors multiple_choices_upstream 0 fresh_world)
     = Ok [up_monitor]
  /\ (exists refs w',
        Collector.collect multiple_choices_upstream 0 the_collector fresh_world
        = (Ok refs, w')
        /\ map sample_count (families w' refs) = [1; 1; 0; 1]%nat)
  /\ upstream oversized_body_upstream listing_url
     = Oversized 200 integer_too_long
  /\ fst (Collector._get_monitors oversized_body_upstream 0 fresh_world)
     = Exc (exn_of_decoder_limit integer_too_long)
  /\ exists refs w',
       Collector.collect oversized_body_upstream 0 the_collector fresh_world
       = (Ok refs, w')
       /\ refs = Collector.describe the_collector
       /\ map sample_count (families w' refs) = [0; 0; 0; 0]%nat
       /\ logs w'
          = [(ERROR,
              Error_collecting_metrics
                (exn_of_decoder_limit integer_too_long))].
Proof.
  split; [reflexivity |]. split; [reflexivity |].
  split; [do 2 eexists; split; reflexivity |].
  split; [reflexivity |]. split; [reflexivity |].
  do 2 eexists. split; [reflexivity |]. repeat split.
Qed.

(** ** Effects of the building blocks *)

Lemma length_update_nth {A : Type} (f : A -> A) (l : list A) :
  forall n, List.length (update_nth n f l) = List.length l.
Proof.
  induction l as [| x l IH]; intros [| n]; cbn; auto.
Qed.

Lemma nth_update_nth_same {A : Type} (f : A -> A) (d : A) (l : list A) :
  forall n, (n < List.length l)%nat ->
  nth n (update_nth n f l) d = f (nth n l d).
Proof.
  induction l as [| x l IH]; intros [| n] H; cbn in *; try lia; auto.
  apply IH. lia.
Qed.

Lemma nth_update_nth_other {A : Type} (f : A -> A) (d : A) (l : list A) :
  forall n k, k <> n -> nth k (update_nth n f l) d = nth k l d.
Proof.
  induction l as [| x l IH]; intros [| n] [| k] H; cbn; auto; try congruence.
Qed.

Lemma terminates_ret {A : Type} (a : A) : terminates (ret a).
Proof. intros w. cbn. discriminate. Qed.

Lemma terminates_raise {A : Type} (e : exn) : terminates (@raise A e).
Proof. intros w. cbn. discriminate. Qed.

Lemma terminates_lift {A : Type} (r : result A) :
  r <> Diverges -> terminates (lift r).
Proof. intros H w. exact H. Qed.

Lemma terminates_log (l : level) (m : log_message) : terminates (log l m).
Proof. intros w. cbn. discriminate. Qed.

Lemma terminates_bind {A B : Type} (m : M A) (k : A -> M B) :
  terminates m -> (forall a, terminates (k a)) -> terminates (bind m k).
Proof.
  intros Hm Hk w. unfold bind. specialize (Hm w).
  destruct (m w) as [[a | e |] w']; cbn [fst] in *;
    [apply Hk | discriminate | congruence].
Qed.

Lemma terminates_try_except {A : Type} (m : M A) (c : exn -> bool)
    (h : exn -> M A) :
  terminates m -> (forall e, terminates (h e)) -> terminates (try_except m c h).
Proof.
  intros Hm Hh w. unfold try_except. specialize (Hm w).
  destruct (m w) as [[a | e |] w']; cbn [fst] in *;
    [discriminate | | congruence].
  destruct (c e); [apply Hh | cbn; discriminate].
Qed.

Lemma terminates_metrics_getitem (metrics : list (string * nat)) (k : string) :
  terminates (metrics_getitem metrics k).
Proof.
  unfold metrics_getitem. destruct (dict_lookup k metrics);
    [apply terminates_ret | apply terminates_raise].
Qed.

Lemma terminates_call (a : nat) (v : pyval) (l : option pydict) :
  terminates (Gauge.__call__ a v l).
Proof. intros w. cbn. discriminate. Qed.

Lemma heap_stable_ret {A : Type} (a : A) : heap_stable (ret a).
Proof. intros w. reflexivity. Qed.

Lemma heap_stable_raise {A : Type} (e : exn) : heap_stable (@raise A e).
Proof. intros w. reflexivity. Qed.

Lemma heap_stable_lift {A : Type} (r : result A) : heap_stable (lift r).
Proof. intros w. reflexivity. Qed.

Lemma heap_stable_log (l : level) (m : log_message) : heap_stable (log l m).
Proof. intros w. reflexivity. Qed.

Lemma heap_stable_bind {A B : Type} (m : M A) (k : A -> M B) :
  heap_stable m -> (forall a, heap_stable (k a)) -> heap_stable (bind m k).
Proof.
  intros Hm Hk w. unfold bind. specialize (Hm w).
  destruct (m w) as [[a | e |] w']; cbn [snd] in *;
    [rewrite Hk; exact Hm | exact Hm | exact Hm].
Qed.

Lemma heap_stable_try_except {A : Type} (m : M A) (c : exn -> bool)
    (h : exn -> M A) :
  heap_stable m -> (forall e, heap_stable (h e)) ->
  heap_stable (try_except m c h).
Proof.
  intros Hm Hh w. unfold try_except. specialize (Hm w).
  destruct (m w) as [[a | e |] w']; cbn [snd] in *;
    [exact Hm | | exact Hm].
  destruct (c e); [rewrite Hh; exact Hm | exact Hm].
Qed.

Lemma heap_stable_touches_only (a : nat) {A : Type} (m : M A) :
  heap_stable m -> touches_only a m.
Proof.
  intros H w. split; [rewrite H; reflexivity |].
  intros b _. unfold gauge_at. rewrite H. reflexivity.
Qed.

Lemma touches_only_bind (a : nat) {A B : Type} (m : M A) (k : A -> M B) :
  touches_only a m -> (forall x, touches_only a (k x)) ->
  touches_only a (bind m k).
Proof.
  intros Hm Hk w. unfold bind. specialize (Hm w).
  destruct (m w) as [[x | e |] w']; cbn [snd] in *; try exact Hm.
  destruct Hm as [Hlen Hm]. destruct (Hk x w') as [Hlen' Hk'].
  split; [congruence |]. intros b Hb. rewrite Hk' by assumption. auto.
Qed.

Lemma touches_only_call (a : nat) (v : pyval) (l : option pydict) :
  touches_only a (Gauge.__call__ a v l).
Proof.
  intros w. cbn. split; [apply length_update_nth |].
  intros b Hb. unfold gauge_at. cbn. apply nth_update_nth_other. exact Hb.
Qed.

Lemma beyond_common_format_returns (env : environment) (s : string) :
  beyond_common_format env s <> Diverges.
Proof.
  unfold beyond_common_format.
  destruct (isoformat_extension env s) as [dt |]; [| discriminate].
  destruct (fields_in_range dt); discriminate.
Qed.

Lemma fromisoformat_returns (env : environment) (s : string) :
  fromisoformat env s <> Diverges.
Proof.
  pose proof (beyond_common_format_returns env s) as H.
  unfold fromisoformat.
  destruct (_parse_isoformat_date s) as [[[[y m] d] rest] |].
  - destruct (match rest with EmptyString => _ | String _ tstr => _ end)
      as [[[[[hh mm] ss] us] tz] |]; [| exact H].
    destruct (fields_in_range _); [discriminate |].
    destruct (date_in_range _); [exact H | discriminate].
  - destruct (_ && _); [exact H | discriminate].
Qed.

Lemma timestamp_returns (env : environment) (dt : datetime) :
  timestamp env dt <> Diverges.
Proof.
  unfold timestamp. destruct (tzinfo dt); [discriminate |].
  destruct (mktime env dt) as [s | e]; discriminate.
Qed.

Lemma py_replace_returns (v : pyval) (c : ascii) (s : string) :
  py_replace v c s <> Diverges.
Proof. destruct v; discriminate. Qed.

Create HintDb effects.
#[local] Hint Resolve terminates_ret terminates_raise terminates_lift
  terminates_log terminates_bind terminates_try_except
  terminates_metrics_getitem terminates_call
  heap_stable_ret heap_stable_raise heap_stable_lift heap_stable_log
  heap_stable_bind heap_stable_try_except
  fromisoformat_returns timestamp_returns py_replace_returns : effects.

Lemma parse_iso_datetime_terminates (env : environment) (v : pyval) :
  terminates (Collector._parse_iso_datetime env v).
Proof.
  unfold Collector._parse_iso_datetime.
  destruct (negb (truthy v)); auto 10 with effects.
Qed.

Lemma parse_iso_datetime_heap_stable (env : environment) (v : pyval) :
  heap_stable (Collector._parse_iso_datetime env v).
Proof.
  unfold Collector._parse_iso_datetime.
  destruct (negb (truthy v)); auto 10 with effects.
Qed.

Lemma py_get_dict (d : pydict) (k : string) (default : pyval) :
  py_get (PDict d) k default = Ok (dict_get d k default).
Proof. unfold py_get, dict_get. destruct (dict_lookup k d); reflexivity. Qed.

Lemma is_metric_set_facts (metrics : list (string * nat)) (w : world) :
  is_metric_set metrics w = true ->
  exists up st ssl sc,
    dict_lookup "up" metrics = Some up
    /\ dict_lookup "status" metrics = Some st
    /\ dict_lookup "ssl_expire" metrics = Some ssl
    /\ dict_lookup "scrape_duration_seconds" metrics = Some sc
    /\ up <> st /\ up <> ssl /\ up <> sc /\ st <> ssl /\ st <> sc /\ ssl <> sc
    /\ (up < List.length (heap w))%nat /\ (st < List.length (heap w))%nat
    /\ (ssl < List.length (heap w))%nat /\ (sc < List.length (heap w))%nat.
Proof.
  unfold is_metric_set, distinct4.
  destruct (dict_lookup "up" metrics) as [up |]; [| discriminate].
  destruct (dict_lookup "status" metrics) as [st |]; [| discriminate].
  destruct (dict_lookup "ssl_expire" metrics) as [ssl |]; [| discriminate].
  destruct (dict_lookup "scrape_duration_seconds" metrics) as [sc |];
    [| discriminate].
  intros H. repeat (apply andb_true_iff in H; destruct H as [H ?]).
  repeat match goal with
  | H : negb (Nat.eqb _ _) = true |- _ =>
      apply negb_true_iff in H; apply Nat.eqb_neq in H
  | H : Nat.ltb _ _ = true |- _ => apply Nat.ltb_lt in H
  end.
  exists up, st, ssl, sc. repeat split; assumption.
Qed.

Lemma call_appends (a : nat) (v : pyval) (l : pydict) (w : world) :
  Gauge.__call__ a v (Some l) w
  = (Ok tt,
     set_heap (update_nth a (append_sample (mkSample (name (gauge_at w a)) l v))
                 (heap w)) w).
Proof. reflexivity. Qed.

(** ** The monitor mapper *)

Section Mapper.
Variable env : environment.

Lemma process_monitor_dict (d : pydict) (metrics : list (string * nat))
    (w : world) (up st : nat) :
  is_metric_set metrics w = true ->
  dict_lookup "up" metrics = Some up ->
  dict_lookup "status" metrics = Some st ->
  exists w',
    Collector._process_monitor env (PDict d) metrics w = (Ok tt, w')
    /\ gauge_at w' up
       = append_sample
           (mkSample (name (gauge_at w up)) (monitor_labels d) (up_value d))
           (gauge_at w up)
    /\ gauge_at w' st
       = append_sample
           (mkSample (name (gauge_at w st)) (monitor_labels d) (up_value d))
           (gauge_at w st)
    /\ List.length (heap w') = List.length (heap w).
Proof.
  intros Hms Hup Hst.
  destruct (is_metric_set_facts _ _ Hms)
    as (up' & st' & ssl & sc & Hup' & Hst' & Hssl & Hsc & N1 & N2 & N3 & N4 & N5
        & N6 & L1 & L2 & L3 & L4).
  rewrite Hup in Hup'. rewrite Hst in Hst'.
  injection Hup' as <-. injection Hst' as <-.
  unfold Collector._process_monitor, try_except.
  unfold bind at 1. unfold lift at 1. rewrite py_get_dict.
  unfold bind at 1. unfold lift at 1. rewrite py_get_dict.
  unfold bind at 1. unfold lift at 1. rewrite py_get_dict.
  unfold bind at 1. unfold lift at 1. rewrite py_get_dict.
  unfold bind at 1. unfold metrics_getitem at 1. rewrite Hup. unfold ret at 1.
  unfold bind at 1. rewrite call_appends.
  unfold bind at 1. unfold metrics_getitem at 1. rewrite Hst. unfold ret at 1.
  unfold bind at 1. rewrite call_appends.
  change Collector.STATUS_PAUSED with "PAUSED".
  change Collector.STATUS_UP with "UP".
  fold (monitor_labels d). fold (up_value d).
  assert (name (gauge_at (set_heap (update_nth up
            (append_sample (mkSample (name (gauge_at w up)) (monitor_labels d)
                              (up_value d))) (heap w)) w) st)
          = name (gauge_at w st)) as ->.
  { unfold gauge_at. cbn [heap set_heap].
    rewrite nth_update_nth_other by congruence. reflexivity. }
  match goal with
  | |- exists w', (let (r0, w'0) := ?K ?W in _) = _ /\ _ =>
      set (rest := K); set (w2 := W)
  end.
  assert (touches_only ssl rest) as Hframe.
  { subst rest. apply touches_only_bind;
      [apply heap_stable_touches_only; auto with effects |].
    intros ssl_info. destruct (truthy ssl_info);
      [| apply heap_stable_touches_only; auto with effects].
    apply touches_only_bind;
      [apply heap_stable_touches_only, parse_iso_datetime_heap_stable |].
    intros ts. destruct (is_not_None ts);
      [| apply heap_stable_touches_only; auto with effects].
    unfold metrics_getitem. rewrite Hssl.
    intros w0. exact (touches_only_call ssl ts _ w0). }
  assert (terminates rest) as Hterm.
  { subst rest. apply terminates_bind;
      [apply terminates_lift; rewrite py_get_dict; discriminate |].
    intros ssl_info. destruct (truthy ssl_info); [| apply terminates_ret].
    apply terminates_bind; [apply parse_iso_datetime_terminates |].
    intros ts. destruct (is_not_None ts); auto with effects. }
  specialize (Hframe w2). specialize (Hterm w2).
  assert (List.length (heap w2) = List.length (heap w)) as Hlen2.
  { subst w2. cbn [heap set_heap]. rewrite !length_update_nth. reflexivity. }
  assert (gauge_at w2 up
          = append_sample (mkSample (name (gauge_at w up)) (monitor_labels d)
                             (up_value d)) (gauge_at w up)) as Gup.
  { subst w2. unfold gauge_at. cbn [heap set_heap].
    rewrite nth_update_nth_other by congruence.
    rewrite nth_update_nth_same by assumption. reflexivity. }
  assert (gauge_at w2 st
          = append_sample (mkSample (name (gauge_at w st)) (monitor_labels d)
                             (up_value d)) (gauge_at w st)) as Gst.
  { subst w2. unfold gauge_at. cbn [heap set_heap].
    rewrite nth_update_nth_same by (rewrite length_update_nth; assumption).
    rewrite nth_update_nth_other by congruence. reflexivity. }
  clearbody w2 rest.
  destruct (rest w2) as [[[] | e |] w3]; cbn [fst snd] in *;
    destruct Hframe as [Hlen3 Hsame].
  - exists w3. split; [reflexivity |].
    rewrite !Hsame by congruence. rewrite Gup, Gst. repeat split. congruence.
  - cbn [except_Exception]. unfold bind, lift. rewrite py_get_dict.
    unfold log. eexists. split; [reflexivity |].
    unfold gauge_at in *. cbn [heap].
    rewrite !Hsame by congruence. rewrite Gup, Gst. repeat split. congruence.
  - congruence.
Qed.

Lemma process_monitor_dict_returns (d : pydict) (metrics : list (string * nat))
    (w : world) :
  exists w', Collector._process_monitor env (PDict d) metrics w = (Ok tt, w').
Proof.
  unfold Collector._process_monitor, try_except.
  match goal with
  | |- exists w', (let (r0, w'0) := ?K ?W in _) = _ => set (body := K)
  end.
  assert (terminates body) as Hterm.
  { subst body.
    repeat (apply terminates_bind;
            [first [ apply terminates_lift; rewrite py_get_dict; discriminate
                   | apply terminates_metrics_getitem
                   | apply terminates_call ] | intros ?]).
    destruct (truthy _); [| apply terminates_ret].
    apply terminates_bind; [apply parse_iso_datetime_terminates |].
    intros ts. destruct (is_not_None ts); auto with effects. }
  specialize (Hterm w). clearbody body.
  destruct (body w) as [[[] | e |] w1]; cbn [fst] in *.
  - eauto.
  - cbn [except_Exception]. unfold bind, lift. rewrite py_get_dict.
    unfold log. eauto.
  - congruence.
Qed.

End Mapper.

Lemma monitor_paused_label (d : pydict) :
  dict_lookup "monitor_paused" (monitor_labels d)
  = Some (PStr (if py_eq_str (dict_get d "status" PNone) "PAUSED"
                then "true" else "false")).
Proof. reflexivity. Qed.

Lemma py_eq_str_status (d : pydict) (s : string) :
  py_eq_str (dict_get d "status" PNone) s = true
  <-> dict_lookup "status" d = Some (PStr s).
Proof.
  unfold dict_get. destruct (dict_lookup "status" d) as [v |].
  - destruct v; cbn; try (split; [discriminate | intros [= ]]).
    rewrite String.eqb_eq. split; [intros -> | intros [= ->]]; reflexivity.
  - cbn. split; discriminate.
Qed.

(** C3. For every monitor record and every metric set (four keys naming
    four distinct gauge objects), the mapper returns normally and appends
    exactly one sample to the [up] family and one to the [status] family;
    each has value 1
    when the record's status equals "UP" and value 0 for any other status
    (DOWN, PAUSED, unknown, absent); the label [monitor_paused] of both is
    "true" exactly when the status equals "PAUSED" and "false" otherwise,
    so a paused record has value 0 together with [monitor_paused] "true". *)
Theorem mapper_reports_up_and_paused
    (env : environment) (d : pydict) (metrics : list (string * nat))
    (w : world) :
  is_metric_set metrics w = true ->
  exists w' s_up s_status,
    Collector._process_monitor env (PDict d) metrics w = (Ok tt, w')
    /\ samples (family w' metrics "up")
       = samples (family w metrics "up") ++ [s_up]
    /\ samples (family w' metrics "status")
       = samples (family w metrics "status") ++ [s_status]
    /\ (dict_lookup "status" d = Some (PStr "UP") ->
        sample_value s_up = PInt 1 /\ sample_value s_status = PInt 1)
    /\ (dict_lookup "status" d <> Some (PStr "UP") ->
        sample_value s_up = PInt 0 /\ sample_value s_status = PInt 0)
    /\ (dict_lookup "status" d = Some (PStr "PAUSED") ->
        sample_value s_up = PInt 0
        /\ dict_lookup "monitor_paused" (sample_labels s_up)
           = Some (PStr "true")
        /\ dict_lookup "monitor_paused" (sample_labels s_status)
           = Some (PStr "true"))
    /\ (dict_lookup "status" d <> Some (PStr "PAUSED") ->
        dict_lookup "monitor_paused" (sample_labels s_up)
        = Some (PStr "false")
        /\ dict_lookup "monitor_paused" (sample_labels s_status)
           = Some (PStr "false")).
Proof.
  intros Hms.
  destruct (is_metric_set_facts _ _ Hms)
    as (up & st & ssl & sc & Hup & Hst & _).
  destruct (process_monitor_dict env d metrics w up st Hms Hup Hst)
    as (w' & E & Gup & Gst & _).
  eexists w', _, _. split; [exact E |].
  unfold family. rewrite Hup, Hst, Gup, Gst. cbn [samples append_sample].
  split; [reflexivity |]. split; [reflexivity |].
  cbn [sample_value sample_labels]. rewrite monitor_paused_label.
  unfold up_value.
  pose proof (py_eq_str_status d) as HU'.
  assert (forall s,
            (py_eq_str (dict_get d "status" PNone) s = true
             /\ dict_lookup "status" d = Some (PStr s))
            \/ (py_eq_str (dict_get d "status" PNone) s = false
                /\ dict_lookup "status" d <> Some (PStr s))) as Hcase.
  { intros s. destruct (py_eq_str (dict_get d "status" PNone) s) eqn:Es.
    - left. split; [reflexivity | apply HU'; exact Es].
    - right. split; [reflexivity |]. intros X. apply HU' in X. congruence. }
  destruct (Hcase "UP") as [[-> SU] | [-> NU]];
    destruct (Hcase "PAUSED") as [[-> SP] | [-> NP]];
    repeat match goal with
    | |- _ /\ _ => split
    | |- _ -> _ => intros ?
    end; try reflexivity; try congruence.
Qed.

(** C7. For every monitor record and every metric set, the sample
    appended to the [status] family has the same value (and the same
    labels) as the sample appended to the [up] family. *)
Theorem status_value_equals_up_value
    (env : environment) (d : pydict) (metrics : list (string * nat))
    (w : world) :
  is_metric_set metrics w = true ->
  exists w' s_up s_status,
    Collector._process_monitor env (PDict d) metrics w = (Ok tt, w')
    /\ samples (family w' metrics "up")
       = samples (family w metrics "up") ++ [s_up]
    /\ samples (family w' metrics "status")
       = samples (family w metrics "status") ++ [s_status]
    /\ sample_value s_status = sample_value s_up
    /\ sample_labels s_status = sample_labels s_up.
Proof.
  intros Hms.
  destruct (is_metric_set_facts _ _ Hms)
    as (up & st & ssl & sc & Hup & Hst & _).
  destruct (process_monitor_dict env d metrics w up st Hms Hup Hst)
    as (w' & E & Gup & Gst & _).
  eexists w', _, _. split; [exact E |].
  unfold family. rewrite Hup, Hst, Gup, Gst. cbn [samples append_sample].
  repeat split.
Qed.


Lemma mapper_reports_up_and_paused_witness :
  exists w' s_up s_status,
    Collector._process_monitor single_page_upstream paused_monitor
      (Collector.metrics the_collector) fresh_world = (Ok tt, w')
    /\ samples (family w' (Collector.metrics the_collector) "up")
       = samples (family fresh_world (Collector.metrics the_collector) "up")
         ++ [s_up]
    /\ samples (family w' (Collector.metrics the_collector) "status")
       = samples (family fresh_world (Collector.metrics the_collector) "status")
         ++ [s_status]
    /\ sample_value s_up = PInt 0
    /\ dict_lookup "monitor_paused" (sample_labels s_up) = Some (PStr "true")
    /\ dict_lookup "monitor_paused" (sample_labels s_status)
       = Some (PStr "true").
Proof.
  destruct (mapper_reports_up_and_paused single_page_upstream
              [("friendlyName", PStr "Paused Monitor"); ("type", PStr "port");
               ("url", PStr "db.example.com:5432"); ("status", PStr "PAUSED");
               ("sslExpiryDateTime", PNone)]
              (Collector.metrics the_collector) fresh_world eq_refl)
    as (w' & s_up & s_status & E & Sup & Sst & _ & _ & HP & _).
  exists w', s_up, s_status. split; [exact E |].
  split; [exact Sup |]. split; [exact Sst |]. apply HP. reflexivity.
Defined.

Lemma status_value_equals_up_value_witness :
  exists w' s_up s_status,
    Collector._process_monitor single_page_upstream up_monitor
      (Collector.metrics the_collector) fresh_world = (Ok tt, w')
    /\ samples (family w' (Collector.metrics the_collector) "up")
       = samples (family fresh_world (Collector.metrics the_collector) "up")
         ++ [s_up]
    /\ samples (family w' (Collector.metrics the_collector) "status")
       = samples (family fresh_world (Collector.metrics the_collector) "status")
         ++ [s_status]
    /\ sample_value s_status = sample_value s_up
    /\ sample_labels s_status = sample_labels s_up.
Proof.
  apply (status_value_equals_up_value single_page_upstream
           [("friendlyName", PStr "Test Monitor"); ("type", PStr "http");
            ("url", PStr "https://example.com"); ("status", PStr "UP")]
           (Collector.metrics the_collector) fresh_world).
  reflexivity.
Defined.

(** C4, evaluated where the code departs from it.  A monitor that is not
    a JSON object makes [_process_monitor] raise: the handler that logs the
    fault asks the monitor for its name and fails the same way.  In
    [collect] the escaped fault ends the loop over the records: with a
    [data] array that starts with [null], the record after it is never
    mapped and no scrape duration is recorded. *)
Theorem non_record_monitor_escapes_the_mapper :
  let scrape :=
    Collector.collect null_record_upstream 0 the_collector fresh_world in
  (forall (env : environment) (monitor : pyval)
          (metrics : list (string * nat)) (w : world),
      (forall d, monitor <> PDict d) ->
      Collector._process_monitor env monitor metrics w = (Exc AttributeError, w))
  /\ fst (Collector._get_monitors null_record_upstream 0 fresh_world)
     = Ok [PNone; up_monitor]
  /\ fst scrape = Ok (Collector.describe the_collector)
  /\ map sample_count (families (snd scrape) (Collector.describe the_collector))
     = [0; 0; 0; 0]%nat
  /\ logs (snd scrape)
     = [(INFO, Fetched_total 2);
        (ERROR, Error_collecting_metrics AttributeError)].
Proof.
  split.
  - intros env monitor metrics w H.
    destruct monitor; try reflexivity. exfalso. exact (H d eq_refl).
  - vm_compute. repeat split.
Qed.

(** ** Two scrapes on one collector *)

(** C1, evaluated where the code departs from it.  [collect] appends to
    the gauge objects the collector was constructed with, not to clones of
    them: against an unchanged upstream with one monitor, the first call
    returns families with 1, 1, 0 and 1 samples and the second call
    returns the same objects with 2, 2, 0 and 2 samples. *)
Theorem second_collect_accumulates_samples :
  let first :=
    Collector.collect single_page_upstream 0 the_collector fresh_world in
  let second :=
    Collector.collect single_page_upstream 0 the_collector (snd first) in
  fresh_collector = (Ok the_collector, fresh_world)
  /\ map sample_count (families fresh_world (Collector.describe the_collector))
     = [0; 0; 0; 0]%nat
  /\ fst first = Ok (Collector.describe the_collector)
  /\ fst second = Ok (Collector.describe the_collector)
  /\ map sample_count (families (snd first) (Collector.describe the_collector))
     = [1; 1; 0; 1]%nat
  /\ map sample_count (families (snd second) (Collector.describe the_collector))
     = [2; 2; 0; 2]%nat.
Proof. vm_compute. repeat split. Qed.

(** C9, evaluated where the code departs from it.  After the second
    successful [collect] on one collector the [scrape_duration_seconds]
    family that is returned holds two samples, the one of the first call
    and the one of the second. *)
Theorem second_collect_leaves_two_durations :
  let first :=
    Collector.collect single_page_upstream 0 the_collector fresh_world in
  let second :=
    Collector.collect single_page_upstream 0 the_collector (snd first) in
  let duration := mkSample "uptimerobot_scrape_duration_seconds" []
                    (PFloat (1000 # 1000000)) in
  fst first = Ok (Collector.describe the_collector)
  /\ fst second = Ok (Collector.describe the_collector)
  /\ samples (family (snd first) (Collector.metrics the_collector)
                "scrape_duration_seconds") = [duration]
  /\ samples (family (snd second) (Collector.metrics the_collector)
                "scrape_duration_seconds") = [duration; duration]
  /\ nth 3 (families (snd second) (Collector.describe the_collector))
         dummy_gauge
     = family (snd second) (Collector.metrics the_collector)
         "scrape_duration_seconds".
Proof. vm_compute. repeat split. Qed.

(** ** Decimal digits *)

Lemma digit_cases (x : Z) :
  let d := x mod 10 in
  d = 0 \/ d = 1 \/ d = 2 \/ d = 3 \/ d = 4 \/ d = 5 \/ d = 6 \/ d = 7
  \/ d = 8 \/ d = 9.
Proof.
  intros d. pose proof (Z.mod_pos_bound x 10 eq_refl). subst d. lia.
Qed.

Ltac by_digit x :=
  let H := fresh in
  pose proof (digit_cases x) as H; cbv zeta in H;
  repeat (destruct H as [H | H]); rewrite H; reflexivity.

Lemma digit_of_digit_char (x : Z) :
  digit_of (digit_char (x mod 10)) = Some (x mod 10).
Proof. by_digit x. Qed.

Lemma digit_char_is_no_sign (x : Z) : is_sign (digit_char (x mod 10)) = false.
Proof. by_digit x. Qed.

Lemma digit_char_is_no_Z (x : Z) :
  Ascii.eqb (digit_char (x mod 10)) "Z" = false.
Proof. by_digit x. Qed.

Lemma parse_digits_digits (n : nat) :
  forall (acc v : Z) (rest : string),
    parse_digits n acc (digits n v ++ rest)
    = Some (acc * 10 ^ Z.of_nat n + v mod 10 ^ Z.of_nat n, rest).
Proof.
  induction n as [| n IH]; intros acc v rest.
  - cbn [parse_digits digits append]. rewrite Z.mod_1_r. f_equal. f_equal. cbn. lia.
  - cbn [parse_digits digits append]. rewrite digit_of_digit_char.
    cbn [and_then]. rewrite IH. f_equal. f_equal.
    rewrite Nat2Z.inj_succ, Z.pow_succ_r by lia.
    assert (0 < 10 ^ Z.of_nat n) by (apply Z.pow_pos_nonneg; lia).
    rewrite (Z.mul_comm 10 (10 ^ Z.of_nat n)).
    rewrite Z.rem_mul_r by lia. lia.
Qed.

Lemma str_replace_digits (new : string) (n : nat) (v : Z) (rest : string) :
  str_replace "Z" new (digits n v ++ rest)
  = (digits n v ++ str_replace "Z" new rest)%string.
Proof.
  induction n as [| n IH]; cbn [digits append str_replace]; [reflexivity |].
  rewrite digit_char_is_no_Z, IH. reflexivity.
Qed.

Lemma split_at_sign_digits (n : nat) (v : Z) (rest : string) :
  split_at_sign (digits n v ++ rest)
  = ((digits n v ++ fst (split_at_sign rest))%string,
     snd (split_at_sign rest)).
Proof.
  induction n as [| n IH]; cbn [digits append split_at_sign].
  - destruct (split_at_sign rest); reflexivity.
  - rewrite digit_char_is_no_sign, IH. reflexivity.
Qed.

Lemma length_digits (n : nat) (v : Z) : String.length (digits n v) = n.
Proof. induction n; cbn; congruence. Qed.
(** ** The calendar *)

Lemma is_leap_leap_year (y : Z) : _is_leap y = leap_year y.
Proof.
  unfold _is_leap, leap_year.
  destruct (Z.eqb_spec (y mod 4) 0), (Z.eqb_spec (y mod 100) 0),
    (Z.eqb_spec (y mod 400) 0); cbn; try reflexivity;
    exfalso; Z.div_mod_to_equations; lia.
Qed.

Lemma days_before_next_year (k : Z) :
  _days_before_year (k + 1) = _days_before_year k + year_length k.
Proof.
  unfold _days_before_year, year_length, leap_year.
  replace (k + 1 - 1) with k by lia.
  destruct (Z.eqb_spec (k mod 4) 0), (Z.eqb_spec (k mod 100) 0),
    (Z.eqb_spec (k mod 400) 0); cbn [andb orb negb];
    Z.div_mod_to_equations; lia.
Qed.

Lemma days_before_year_is_sum (n : nat) :
  _days_before_year (Z.of_nat (S n)) = days_in_years_upto n.
Proof.
  induction n as [| n IH]; [reflexivity |].
  cbn [days_in_years_upto]. rewrite <- IH.
  rewrite (Nat2Z.inj_succ (S n)). unfold Z.succ.
  apply days_before_next_year.
Qed.

Lemma month_cases (m : Z) :
  1 <= m <= 12 ->
  m = 1 \/ m = 2 \/ m = 3 \/ m = 4 \/ m = 5 \/ m = 6 \/ m = 7 \/ m = 8
  \/ m = 9 \/ m = 10 \/ m = 11 \/ m = 12.
Proof. lia. Qed.

Lemma days_before_month_is_sum (y m : Z) :
  1 <= m <= 12 ->
  _days_before_month y m = days_in_months_upto y (Z.to_nat (m - 1)).
Proof.
  intros H. apply month_cases in H. unfold _days_before_month.
  rewrite is_leap_leap_year.
  repeat (destruct H as [H | H]); subst m; cbv - [leap_year];
    destruct (leap_year y); reflexivity.
Qed.

Lemma days_in_month_is_month_length (y m : Z) :
  1 <= m <= 12 -> _days_in_month y m = month_length y m.
Proof.
  intros H. apply month_cases in H. unfold _days_in_month.
  rewrite is_leap_leap_year.
  repeat (destruct H as [H | H]); subst m; cbv - [leap_year];
    destruct (leap_year y); reflexivity.
Qed.

Lemma ymd2ord_is_days_since_epoch (y m d : Z) :
  1 <= y -> 1 <= m <= 12 ->
  _ymd2ord y m d - _ymd2ord 1970 1 1 = days_since_epoch y m d.
Proof.
  intros Hy Hm. unfold _ymd2ord, days_since_epoch.
  rewrite days_before_month_is_sum by assumption.
  replace y with (Z.of_nat (S (Z.to_nat (y - 1)))) at 1 by lia.
  rewrite days_before_year_is_sum.
  replace (_days_before_year 1970) with (days_in_years_upto 1969)
    by (rewrite <- days_before_year_is_sum; reflexivity).
  change (_days_before_month 1970 1) with 0. lia.
Qed.
(** ** Parsing a rendered UTC timestamp *)

Lemma append_empty_r (s : string) : (s ++ "")%string = s.
Proof. induction s; cbn; congruence. Qed.

Lemma parse_digits_small (n : nat) (v : Z) (rest : string) :
  0 <= v < 10 ^ Z.of_nat n ->
  parse_digits n 0 (digits n v ++ rest) = Some (v, rest).
Proof.
  intros H. rewrite parse_digits_digits, Z.mod_small by assumption.
  reflexivity.
Qed.

Lemma parse_digits_exact (n : nat) (v : Z) :
  0 <= v < 10 ^ Z.of_nat n ->
  parse_digits n 0 (digits n v) = Some (v, EmptyString).
Proof.
  intros H. rewrite <- (append_empty_r (digits n v)) at 1.
  apply parse_digits_small. exact H.
Qed.

Lemma split_at_sign_cons (c : ascii) (rest : string) :
  is_sign c = false ->
  split_at_sign (String c rest)
  = (String c (fst (split_at_sign rest)), snd (split_at_sign rest)).
Proof.
  intros H. cbn [split_at_sign]. rewrite H.
  destruct (split_at_sign rest); reflexivity.
Qed.

Lemma str_replace_fraction (f : fraction) (rest : string) :
  str_replace "Z" "+00:00" (fraction_string f ++ rest)
  = (fraction_string f ++ str_replace "Z" "+00:00" rest)%string.
Proof.
  destruct f; cbn [fraction_string append]; [reflexivity | |];
    cbn [str_replace Ascii.eqb Bool.eqb]; rewrite str_replace_digits;
    reflexivity.
Qed.

Lemma split_at_sign_fraction (f : fraction) (rest : string) :
  split_at_sign (fraction_string f ++ rest)
  = ((fraction_string f ++ fst (split_at_sign rest))%string,
     snd (split_at_sign rest)).
Proof.
  destruct f; cbn [fraction_string append].
  - destruct (split_at_sign rest); reflexivity.
  - rewrite split_at_sign_cons by reflexivity.
    rewrite split_at_sign_digits. reflexivity.
  - rewrite split_at_sign_cons by reflexivity.
    rewrite split_at_sign_digits. reflexivity.
Qed.

(** What [fromisoformat] is given: the string with [Z] replaced. *)
Lemma replace_Z_in_iso_utc_string (y m d hh mm ss : Z) (f : fraction) :
  str_replace "Z" "+00:00" (iso_utc_string y m d hh mm ss f)
  = (digits 4 y ++ "-" ++ digits 2 m ++ "-" ++ digits 2 d ++ "T"
     ++ digits 2 hh ++ ":" ++ digits 2 mm ++ ":" ++ digits 2 ss
     ++ fraction_string f ++ "+00:00")%string.
Proof.
  unfold iso_utc_string.
  repeat (rewrite str_replace_digits
          || rewrite str_replace_fraction
          || (progress cbn [append str_replace Ascii.eqb Bool.eqb])).
  reflexivity.
Qed.

Lemma split_rendered_time (hh mm ss : Z) (f : fraction) :
  split_at_sign
    (digits 2 hh ++ ":" ++ digits 2 mm ++ ":" ++ digits 2 ss
     ++ fraction_string f ++ "+00:00")
  = ((digits 2 hh ++ ":" ++ digits 2 mm ++ ":" ++ digits 2 ss
      ++ fraction_string f)%string,
     Some ("+"%char, "00:00")).
Proof.
  rewrite split_at_sign_digits. cbn [append].
  rewrite split_at_sign_cons by reflexivity. cbn [fst snd].
  rewrite split_at_sign_digits. cbn [append fst snd].
  rewrite split_at_sign_cons by reflexivity. cbn [fst snd].
  rewrite split_at_sign_digits. cbn [fst snd].
  rewrite split_at_sign_fraction. cbn [fst snd].
  change (split_at_sign "+00:00") with (EmptyString, Some ("+"%char, "00:00")).
  cbn [fst snd]. rewrite append_empty_r. reflexivity.
Qed.

Lemma parse_rendered_fraction (f : fraction) :
  fraction_in_range f ->
  match fraction_string f with
  | EmptyString => Some 0
  | String c s =>
      if negb (Ascii.eqb c ".") then None else parse_fraction s
  end = Some (fraction_micros f).
Proof.
  destruct f; cbn [fraction_string fraction_in_range append fraction_micros];
    intros H; [reflexivity | |]; cbn [Ascii.eqb Bool.eqb negb];
    unfold parse_fraction; rewrite length_digits;
    rewrite parse_digits_exact by (cbn; lia); reflexivity.
Qed.

Lemma parse_rendered_time (hh mm ss : Z) (f : fraction) :
  0 <= hh <= 23 -> 0 <= mm <= 59 -> 0 <= ss <= 59 -> fraction_in_range f ->
  _parse_hh_mm_ss_ff
    (digits 2 hh ++ ":" ++ digits 2 mm ++ ":" ++ digits 2 ss
     ++ fraction_string f)
  = Some (hh, mm, ss, fraction_micros f).
Proof.
  intros Hh Hm Hs Hf. unfold _parse_hh_mm_ss_ff.
  rewrite parse_digits_small by (cbn; lia). cbn [and_then append].
  cbn [Ascii.eqb Bool.eqb negb].
  rewrite parse_digits_small by (cbn; lia). cbn [and_then append].
  cbn [Ascii.eqb Bool.eqb negb].
  rewrite parse_digits_small by (cbn; lia). cbn [and_then].
  pose proof (parse_rendered_fraction f Hf) as E.
  destruct (fraction_string f) as [| c s].
  - injection E as <-. reflexivity.
  - destruct (negb (Ascii.eqb c ".")); [discriminate |].
    rewrite E. reflexivity.
Qed.

Lemma split_rendered_time_cons (hh mm ss : Z) (f : fraction) :
  split_at_sign
    (digits 2 hh
     ++ String ":" (digits 2 mm
     ++ String ":" (digits 2 ss ++ fraction_string f ++ "+00:00")))
  = ((digits 2 hh
      ++ String ":" (digits 2 mm
      ++ String ":" (digits 2 ss ++ fraction_string f)))%string,
     Some ("+"%char, "00:00")).
Proof. exact (split_rendered_time hh mm ss f). Qed.

Lemma parse_rendered_time_cons (hh mm ss : Z) (f : fraction) :
  0 <= hh <= 23 -> 0 <= mm <= 59 -> 0 <= ss <= 59 -> fraction_in_range f ->
  _parse_hh_mm_ss_ff
    (digits 2 hh
     ++ String ":" (digits 2 mm
     ++ String ":" (digits 2 ss ++ fraction_string f)))
  = Some (hh, mm, ss, fraction_micros f).
Proof. exact (parse_rendered_time hh mm ss f). Qed.

Lemma fromisoformat_rendered (env : environment) (y m d hh mm ss : Z)
    (f : fraction) :
  valid_fields y m d hh mm ss ->
  fraction_in_range f ->
  fromisoformat env
    (str_replace "Z" "+00:00" (iso_utc_string y m d hh mm ss f))
  = Ok (mkDatetime y m d hh mm ss (fraction_micros f) (Some 0)).
Proof.
  intros (Hy & Hm & Hd & Hh & Hmi & Hs) Hf.
  rewrite replace_Z_in_iso_utc_string.
  unfold fromisoformat, _parse_isoformat_date.
  rewrite parse_digits_small by (cbn; lia).
  cbn [and_then append expect Ascii.eqb Bool.eqb andb].
  rewrite parse_digits_small by (cbn; lia).
  cbn [and_then append expect Ascii.eqb Bool.eqb andb].
  assert (0 <= d <= 31) as Hd'.
  { destruct (month_cases m Hm) as [E | E]; repeat (destruct E as [E | E]);
      subst m; cbn [month_length] in Hd; try destruct (leap_year y); lia. }
  rewrite parse_digits_small by (cbn; lia). cbn [and_then].
  unfold _parse_isoformat_time. rewrite split_rendered_time_cons.
  rewrite parse_rendered_time_cons by assumption. cbn [and_then].
  change (tz_length_ok "00:00") with true. cbn [negb].
  change (_parse_hh_mm_ss_ff "00:00") with (Some (0, 0, 0, 0)).
  cbn [and_then Ascii.eqb Bool.eqb].
  change (1 * ((0 * 3600 + 0 * 60 + 0) * 1000000 + 0)) with 0.
  assert (fields_in_range
            (mkDatetime y m d hh mm ss (fraction_micros f) (Some 0)) = true)
    as ->; [| reflexivity].
  unfold fields_in_range, between.
  cbn [year month day hour minute second microsecond tzinfo].
  rewrite days_in_month_is_month_length by assumption.
  assert (0 <= fraction_micros f <= 999999) as Hus.
  { destruct f; cbn in Hf |- *; lia. }
  repeat (apply andb_true_iff; split);
    try (apply Z.leb_le; lia); reflexivity.
Qed.

Lemma timestamp_of_utc (env : environment) (y m d hh mm ss us : Z) :
  1 <= y -> 1 <= m <= 12 ->
  timestamp env (mkDatetime y m d hh mm ss us (Some 0))
  = Ok (PFloat (utc_epoch_micros y m d hh mm ss us # 1000000)).
Proof.
  intros Hy Hm. unfold timestamp, total_seconds, utc_epoch_micros.
  cbn [year month day hour minute second microsecond tzinfo].
  rewrite ymd2ord_is_days_since_epoch by assumption.
  do 3 f_equal. lia.
Qed.

(** ** The datetime normalizer *)

Section Normalizer.
Variable env : environment.




Lemma fromisoformat_raises_ValueError (s : string) (e : exn) :
  fromisoformat env s = Exc e -> exists msg, e = ValueError msg.
Proof.
  assert (beyond_common_format env s = Exc e -> exists msg, e = ValueError msg)
    as H.
  { unfold beyond_common_format.
    destruct (isoformat_extension env s) as [dt |];
      [| intros [= <-]; eexists; reflexivity].
    destruct (fields_in_range dt); [discriminate |].
    intros [= <-]; eexists; reflexivity. }
  unfold fromisoformat.
  destruct (_parse_isoformat_date s) as [[[[y m] d] rest] |].
  - destruct (match rest with EmptyString => _ | String _ tstr => _ end)
      as [[[[[hh mm] ss] us] tz] |]; [| exact H].
    destruct (fields_in_range _); [discriminate |].
    destruct (date_in_range _); [exact H |].
    intros [= <-]; eexists; reflexivity.
  - destruct (_ && _); [exact H |].
    intros [= <-]; eexists; reflexivity.
Qed.

(** A string that does not begin with four digits is refused; replacing
    its [Z]s does not give it a year. *)
Lemma parse_digits_after_replace (n : nat) :
  forall (acc : Z) (s : string),
    parse_digits n acc s = None ->
    parse_digits n acc (str_replace "Z" "+00:00" s) = None.
Proof.
  induction n as [| n IH]; intros acc s; cbn [parse_digits];
    [discriminate |].
  destruct s as [| c s]; cbn [str_replace]; [reflexivity |].
  destruct (Ascii.eqb c "Z") eqn:Ec.
  - intros _. reflexivity.
  - cbn [parse_digits]. destruct (digit_of c) as [d |]; cbn [and_then];
      [apply IH | reflexivity].
Qed.

Lemma fromisoformat_without_year (s : string) :
  begins_with_year s = false ->
  fromisoformat env (str_replace "Z" "+00:00" s) = Exc invalid_isoformat.
Proof.
  unfold begins_with_year. intros H.
  destruct (parse_digits 4 0 s) eqn:E; [discriminate |].
  apply parse_digits_after_replace in E.
  unfold fromisoformat, _parse_isoformat_date, begins_with_year.
  rewrite E. reflexivity.
Qed.


End Normalizer.







(** ** A scrape, in general *)

Lemma clock_stable_ret {A : Type} (a : A) : clock_stable (ret a).
Proof. intros w. reflexivity. Qed.

Lemma clock_stable_raise {A : Type} (e : exn) : clock_stable (@raise A e).
Proof. intros w. reflexivity. Qed.

Lemma clock_stable_lift {A : Type} (r : result A) : clock_stable (lift r).
Proof. intros w. reflexivity. Qed.

Lemma clock_stable_log (l : level) (m : log_message) : clock_stable (log l m).
Proof. intros w. reflexivity. Qed.

Lemma clock_stable_bind {A B : Type} (m : M A) (k : A -> M B) :
  clock_stable m -> (forall a, clock_stable (k a)) -> clock_stable (bind m k).
Proof.
  intros Hm Hk w. unfold bind. specialize (Hm w).
  destruct (m w) as [[a | e |] w']; cbn [snd] in *;
    [rewrite Hk; exact Hm | exact Hm | exact Hm].
Qed.

Lemma clock_stable_try_except {A : Type} (m : M A) (c : exn -> bool)
    (h : exn -> M A) :
  clock_stable m -> (forall e, clock_stable (h e)) ->
  clock_stable (try_except m c h).
Proof.
  intros Hm Hh w. unfold try_except. specialize (Hm w).
  destruct (m w) as [[a | e |] w']; cbn [snd] in *;
    [exact Hm | | exact Hm].
  destruct (c e); [rewrite Hh; exact Hm | exact Hm].
Qed.

Lemma clock_stable_metrics_getitem (metrics : list (string * nat))
    (k : string) :
  clock_stable (metrics_getitem metrics k).
Proof.
  unfold metrics_getitem. destruct (dict_lookup k metrics);
    [apply clock_stable_ret | apply clock_stable_raise].
Qed.

Lemma heap_stable_metrics_getitem (metrics : list (string * nat))
    (k : string) :
  heap_stable (metrics_getitem metrics k).
Proof.
  unfold metrics_getitem. destruct (dict_lookup k metrics);
    [apply heap_stable_ret | apply heap_stable_raise].
Qed.

Lemma clock_stable_call (a : nat) (v : pyval) (l : option pydict) :
  clock_stable (Gauge.__call__ a v l).
Proof. intros w. reflexivity. Qed.

#[local] Hint Resolve clock_stable_ret clock_stable_raise clock_stable_lift
  clock_stable_log clock_stable_bind clock_stable_try_except
  clock_stable_metrics_getitem clock_stable_call
  heap_stable_metrics_getitem : effects.

Lemma leaves_of_heap_stable (b : nat) {A : Type} (m : M A) :
  heap_stable m -> leaves b m.
Proof.
  intros H w. unfold gauge_at. rewrite H. split; reflexivity.
Qed.

Lemma leaves_bind (b : nat) {A B : Type} (m : M A) (k : A -> M B) :
  leaves b m -> (forall x, leaves b (k x)) -> leaves b (bind m k).
Proof.
  intros Hm Hk w. unfold bind. specialize (Hm w).
  destruct (m w) as [[x | e |] w']; cbn [snd] in *; try exact Hm.
  destruct Hm as [Hg Hl]. destruct (Hk x w') as [Hg' Hl'].
  split; congruence.
Qed.

Lemma leaves_try_except (b : nat) {A : Type} (m : M A) (c : exn -> bool)
    (h : exn -> M A) :
  leaves b m -> (forall e, leaves b (h e)) -> leaves b (try_except m c h).
Proof.
  intros Hm Hh w. unfold try_except. specialize (Hm w).
  destruct (m w) as [[x | e |] w']; cbn [snd] in *; try exact Hm.
  destruct (c e); [| exact Hm].
  destruct Hm as [Hg Hl]. destruct (Hh e w') as [Hg' Hl'].
  split; congruence.
Qed.

Lemma leaves_call (a b : nat) (v : pyval) (l : option pydict) :
  a <> b -> leaves b (Gauge.__call__ a v l).
Proof.
  intros H w. cbn. split; [| apply length_update_nth].
  unfold gauge_at. cbn. apply nth_update_nth_other. congruence.
Qed.

Lemma leaves_bind_getitem (b : nat) {B : Type}
    (metrics : list (string * nat)) (key : string) (k : nat -> M B) :
  (forall a, dict_lookup key metrics = Some a -> leaves b (k a)) ->
  leaves b (bind (metrics_getitem metrics key) k).
Proof.
  intros H w. unfold bind, metrics_getitem.
  destruct (dict_lookup key metrics) as [a |]; [| split; reflexivity].
  exact (H a eq_refl w).
Qed.

Section Scrape.
Variable env : environment.

Lemma parse_iso_datetime_clock_stable (v : pyval) :
  clock_stable (Collector._parse_iso_datetime env v).
Proof.
  unfold Collector._parse_iso_datetime.
  destruct (negb (truthy v)); auto 10 with effects.
Qed.

Lemma process_monitor_clock_stable (monitor : pyval)
    (metrics : list (string * nat)) :
  clock_stable (Collector._process_monitor env monitor metrics).
Proof.
  unfold Collector._process_monitor.
  apply clock_stable_try_except; [| auto with effects].
  repeat (apply clock_stable_bind; [auto with effects | intros ?]).
  destruct (truthy _); [| apply clock_stable_ret].
  apply clock_stable_bind; [apply parse_iso_datetime_clock_stable |].
  intros ts. destruct (is_not_None ts); auto with effects.
Qed.

Lemma process_monitor_leaves_duration (monitor : pyval)
    (metrics : list (string * nat)) (w0 : world) (sc : nat) :
  is_metric_set metrics w0 = true ->
  dict_lookup "scrape_duration_seconds" metrics = Some sc ->
  leaves sc (Collector._process_monitor env monitor metrics).
Proof.
  intros Hms Hsc.
  destruct (is_metric_set_facts _ _ Hms)
    as (up & st & ssl & sc' & Hup & Hst & Hssl & Hsc' & N1 & N2 & N3 & N4 & N5
        & N6 & _).
  rewrite Hsc in Hsc'. injection Hsc' as <-.
  unfold Collector._process_monitor.
  apply leaves_try_except;
    [| intros e; apply leaves_of_heap_stable; auto with effects].
  do 4 (apply leaves_bind;
        [apply leaves_of_heap_stable; auto with effects | intros ?]).
  apply leaves_bind_getitem. intros a Ha. rewrite Hup in Ha.
  injection Ha as <-.
  apply leaves_bind; [apply leaves_call; assumption | intros _].
  apply leaves_bind_getitem. intros a Ha. rewrite Hst in Ha.
  injection Ha as <-.
  apply leaves_bind; [apply leaves_call; assumption | intros _].
  apply leaves_bind;
    [apply leaves_of_heap_stable; auto with effects | intros ssl_info].
  destruct (truthy ssl_info);
    [| apply leaves_of_heap_stable; auto with effects].
  apply leaves_bind;
    [apply leaves_of_heap_stable, parse_iso_datetime_heap_stable | intros ts].
  destruct (is_not_None ts);
    [| apply leaves_of_heap_stable; auto with effects].
  apply leaves_bind_getitem. intros a Ha. rewrite Hssl in Ha.
  injection Ha as <-. apply leaves_call; assumption.
Qed.

Lemma is_metric_set_same_length (metrics : list (string * nat))
    (w w' : world) :
  List.length (heap w') = List.length (heap w) ->
  is_metric_set metrics w' = is_metric_set metrics w.
Proof. intros H. unfold is_metric_set. rewrite H. reflexivity. Qed.

(** The loop of [collect] over records that are JSON objects: every
    record adds one sample to [up] and one to [status]; the duration family
    and the clock are left alone. *)
Lemma for_each_record (metrics : list (string * nat)) (up st sc : nat)
    (monitors : list pyval) :
  forall w,
    is_metric_set metrics w = true ->
    dict_lookup "up" metrics = Some up ->
    dict_lookup "status" metrics = Some st ->
    dict_lookup "scrape_duration_seconds" metrics = Some sc ->
    forallb is_record monitors = true ->
    exists w',
      for_each monitors
        (fun monitor => Collector._process_monitor env monitor metrics) w
      = (Ok tt, w')
      /\ List.length (heap w') = List.length (heap w)
      /\ ticks w' = ticks w
      /\ gauge_at w' sc = gauge_at w sc
      /\ sample_count (gauge_at w' up)
         = (sample_count (gauge_at w up) + List.length monitors)%nat
      /\ sample_count (gauge_at w' st)
         = (sample_count (gauge_at w st) + List.length monitors)%nat.
Proof.
  induction monitors as [| monitor rest IH]; intros w Hms Hup Hst Hsc Hrec.
  - exists w. cbn [for_each List.length]. rewrite !Nat.add_0_r.
    repeat split; auto.
  - cbn [forallb] in Hrec. apply andb_true_iff in Hrec.
    destruct Hrec as [Hd Hrec]. destruct monitor; try discriminate.
    destruct (process_monitor_dict env d metrics w up st Hms Hup Hst)
      as (w1 & E1 & Gup & Gst & Hlen).
    pose proof (process_monitor_clock_stable (PDict d) metrics w) as Hclock.
    pose proof (process_monitor_leaves_duration (PDict d) metrics w sc Hms Hsc w)
      as [Hsc1 _].
    rewrite E1 in Hclock, Hsc1. cbn [snd] in Hclock, Hsc1.
    assert (is_metric_set metrics w1 = true) as Hms1.
    { rewrite (is_metric_set_same_length metrics w w1 Hlen). exact Hms. }
    destruct (IH w1 Hms1 Hup Hst Hsc Hrec)
      as (w' & E & Hlen' & Ht & Gsc & Cup & Cst).
    exists w'. cbn [for_each]. unfold bind. rewrite E1, E.
    split; [reflexivity |]. split; [congruence |].
    split; [congruence |]. split; [congruence |].
    rewrite Cup, Cst, Gup, Gst. unfold sample_count.
    cbn [samples append_sample List.length]. rewrite !length_app.
    cbn [List.length]. split; lia.
Qed.

Lemma requests_get_quiet (url : pyval) :
  heap_stable (Collector.requests_get env url)
  /\ clock_stable (Collector.requests_get env url).
Proof.
  split; intros w; destruct url; try reflexivity;
    unfold Collector.requests_get;
    destruct (upstream env s) as [[|] | t | st [v |] | st l]; reflexivity.
Qed.

Lemma get_paginated_quiet (link : pyval) :
  heap_stable (Collector._get_paginated env link)
  /\ clock_stable (Collector._get_paginated env link).
Proof.
  unfold Collector._get_paginated.
  split.
  - apply heap_stable_try_except.
    + apply heap_stable_bind; [apply requests_get_quiet | intros r].
      apply heap_stable_bind; [| intros _].
      * unfold Collector.raise_for_status. destruct (_ && _); auto with effects.
      * unfold Collector.json. auto with effects.
    + intros e. apply heap_stable_bind; [auto with effects | intros _].
      destruct e; auto with effects.
  - apply clock_stable_try_except.
    + apply clock_stable_bind; [apply requests_get_quiet | intros r].
      apply clock_stable_bind; [| intros _].
      * unfold Collector.raise_for_status. destruct (_ && _); auto with effects.
      * unfold Collector.json. auto with effects.
    + intros e. apply clock_stable_bind; [auto with effects | intros _].
      destruct e; auto with effects.
Qed.

Lemma follow_next_links_quiet (fuel : nat) :
  forall response monitors n,
    heap_stable (Collector.follow_next_links env fuel response monitors n)
    /\ clock_stable (Collector.follow_next_links env fuel response monitors n).
Proof.
  induction fuel as [| fuel IH]; intros response monitors n;
    cbn [Collector.follow_next_links].
  - split.
    + apply heap_stable_bind;
        [unfold Collector.has_next_link; apply heap_stable_bind;
           [auto with effects | intros []; auto with effects] |].
      intros []; [intros w; reflexivity | auto with effects].
    + apply clock_stable_bind;
        [unfold Collector.has_next_link; apply clock_stable_bind;
           [auto with effects | intros []; auto with effects] |].
      intros []; [intros w; reflexivity | auto with effects].
  - split.
    + apply heap_stable_bind;
        [unfold Collector.has_next_link; apply heap_stable_bind;
           [auto with effects | intros []; auto with effects] |].
      intros []; [| auto with effects].
      apply heap_stable_bind; [auto with effects | intros link].
      apply heap_stable_bind; [apply get_paginated_quiet | intros r].
      destruct (truthy r); [| auto with effects].
      apply heap_stable_bind;
        [unfold Collector.extend_with_data; auto 10 with effects | intros ms].
      do 2 (apply heap_stable_bind; [auto with effects | intros ?]).
      apply heap_stable_bind; [auto with effects | intros _]. apply IH.
    + apply clock_stable_bind;
        [unfold Collector.has_next_link; apply clock_stable_bind;
           [auto with effects | intros []; auto with effects] |].
      intros []; [| auto with effects].
      apply clock_stable_bind; [auto with effects | intros link].
      apply clock_stable_bind; [apply get_paginated_quiet | intros r].
      destruct (truthy r); [| auto with effects].
      apply clock_stable_bind;
        [unfold Collector.extend_with_data; auto 10 with effects | intros ms].
      do 2 (apply clock_stable_bind; [auto with effects | intros ?]).
      apply clock_stable_bind; [auto with effects | intros _]. apply IH.
Qed.

(** The fetch touches neither the gauge objects nor the clock, whatever
    the upstream answers. *)
Lemma get_monitors_quiet (fuel : nat) :
  heap_stable (Collector._get_monitors env fuel)
  /\ clock_stable (Collector._get_monitors env fuel).
Proof.
  unfold Collector._get_monitors. split.
  - apply heap_stable_bind; [apply get_paginated_quiet | intros r].
    apply heap_stable_bind; [| auto with effects].
    destruct (truthy r); [| auto with effects].
    apply heap_stable_bind;
      [unfold Collector.extend_with_data; auto 10 with effects | intros ms].
    apply follow_next_links_quiet.
  - apply clock_stable_bind; [apply get_paginated_quiet | intros r].
    apply clock_stable_bind; [| auto with effects].
    destruct (truthy r); [| auto with effects].
    apply clock_stable_bind;
      [unfold Collector.extend_with_data; auto 10 with effects | intros ms].
    apply follow_next_links_quiet.
Qed.

End Scrape.

(** What one run of [collect] does when the fetch returns records that are
    JSON objects: it returns references to the families the collector was
    built with, after appending to them one duration sample without labels
    (the difference of two clock readings) and one [up] and one [status]
    sample per record. *)
Lemma collect_appends_to_cached_families
    (env : environment) (fuel : nat) (self : UptimeRobotCollector)
    (w w1 : world) (monitors : list pyval) :
  is_metric_set (Collector.metrics self) w = true ->
  Collector._get_monitors env fuel (snd (Collector.now env w))
  = (Ok monitors, w1) ->
  forallb is_record monitors = true ->
  exists w',
    Collector.collect env fuel self w = (Ok (Collector.describe self), w')
    /\ samples (family w' (Collector.metrics self) "scrape_duration_seconds")
       = samples (family w (Collector.metrics self) "scrape_duration_seconds")
         ++ [mkSample
               (name (family w (Collector.metrics self)
                        "scrape_duration_seconds"))
               []
               (total_seconds (wall_clock env (S (ticks w))
                               - wall_clock env (ticks w)))]
    /\ sample_count (family w' (Collector.metrics self) "up")
       = (sample_count (family w (Collector.metrics self) "up")
          + List.length monitors)%nat
    /\ sample_count (family w' (Collector.metrics self) "status")
       = (sample_count (family w (Collector.metrics self) "status")
          + List.length monitors)%nat
    /\ is_metric_set (Collector.metrics self) w' = true.
Proof.
  intros Hms Hfetch Hrec.
  set (metrics := Collector.metrics self) in *.
  destruct (is_metric_set_facts _ _ Hms)
    as (up & st & ssl & sc & Hup & Hst & Hssl & Hsc & N1 & N2 & N3 & N4 & N5
        & N6 & L1 & L2 & L3 & L4).
  destruct (get_monitors_quiet env fuel) as [Hheap Hclock].
  specialize (Hheap (snd (Collector.now env w))).
  specialize (Hclock (snd (Collector.now env w))).
  rewrite Hfetch in Hheap, Hclock.
  cbn [snd Collector.now heap ticks] in Hheap, Hclock.
  assert (is_metric_set metrics w1 = true) as Hms1.
  { rewrite (is_metric_set_same_length metrics w w1); [exact Hms |].
    rewrite Hheap. reflexivity. }
  destruct (for_each_record env metrics up st sc monitors w1 Hms1 Hup Hst Hsc
              Hrec) as (w2 & Eloop & Hlen21 & Ht2 & Gsc & Cup & Cst).
  assert (List.length (heap w2) = List.length (heap w)) as Hlen2
    by congruence.
  unfold Collector.collect. fold metrics.
  unfold bind at 1. cbn [Collector.now].
  unfold bind at 1. unfold try_except. unfold bind at 1.
  cbn [Collector.now snd] in Hfetch. rewrite Hfetch.
  unfold bind at 1. rewrite Eloop.
  unfold bind at 1. cbn [Collector.now].
  unfold bind at 1. unfold metrics_getitem at 1. rewrite Hsc. unfold ret at 1.
  rewrite call_appends. unfold ret.
  eexists. split; [reflexivity |].
  unfold family. rewrite Hup, Hst, Hsc.
  unfold gauge_at in *. cbn [heap set_heap].
  rewrite nth_update_nth_same by (rewrite Hlen2; exact L4).
  rewrite !nth_update_nth_other by congruence.
  rewrite Gsc, Hheap, Ht2, Hclock. cbn [samples append_sample].
  split; [reflexivity |].
  rewrite Cup, Cst, Hheap. split; [reflexivity |]. split; [reflexivity |].
  unfold is_metric_set. rewrite Hup, Hst, Hssl, Hsc. cbn [heap set_heap].
  rewrite length_update_nth, Hlen2.
  unfold is_metric_set in Hms. rewrite Hup, Hst, Hssl, Hsc in Hms. exact Hms.
Qed.

(** On a collector whose duration family is still empty, a run of
    [collect] as above leaves exactly one duration sample, without labels;
    its value is not negative when the clock did not go back. *)
Lemma first_collect_records_one_duration
    (env : environment) (fuel : nat) (self : UptimeRobotCollector)
    (w w1 : world) (monitors : list pyval) :
  is_metric_set (Collector.metrics self) w = true ->
  samples (family w (Collector.metrics self) "scrape_duration_seconds") = [] ->
  Collector._get_monitors env fuel (snd (Collector.now env w))
  = (Ok monitors, w1) ->
  forallb is_record monitors = true ->
  wall_clock env (ticks w) <= wall_clock env (S (ticks w)) ->
  exists w' s q,
    Collector.collect env fuel self w = (Ok (Collector.describe self), w')
    /\ samples (family w' (Collector.metrics self) "scrape_duration_seconds")
       = [s]
    /\ sample_labels s = []
    /\ sample_value s = PFloat q
    /\ (0 <= q)%Q.
Proof.
  intros Hms Hempty Hfetch Hrec Hclock.
  destruct (collect_appends_to_cached_families env fuel self w w1 monitors
              Hms Hfetch Hrec) as (w' & E & Hs & _).
  rewrite Hempty in Hs. cbn [app] in Hs.
  eexists w', _, _. split; [exact E |]. split; [exact Hs |].
  split; [reflexivity |]. split; [reflexivity |].
  unfold Qle. cbn. lia.
Qed.

(** * Further properties of the code *)

(** ** What the methods raise *)

Lemma raises_only_ret (P : exn -> Prop) {A : Type} (a : A) :
  raises_only P (ret a).
Proof. intros w e H. discriminate. Qed.

Lemma raises_only_log (P : exn -> Prop) (l : level) (m : log_message) :
  raises_only P (log l m).
Proof. intros w e H. discriminate. Qed.

Lemma raises_only_raise (P : exn -> Prop) {A : Type} (e : exn) :
  P e -> raises_only P (@raise A e).
Proof. intros H w e' [= <-]. exact H. Qed.

Lemma raises_only_lift (P : exn -> Prop) {A : Type} (r : result A) :
  (forall e, r = Exc e -> P e) -> raises_only P (lift r).
Proof. intros H w e E. apply H. exact E. Qed.

Lemma raises_only_bind (P : exn -> Prop) {A B : Type} (m : M A)
    (k : A -> M B) :
  raises_only P m -> (forall a, raises_only P (k a)) ->
  raises_only P (bind m k).
Proof.
  intros Hm Hk w e. unfold bind. specialize (Hm w).
  destruct (m w) as [[a | e' |] w']; cbn [fst] in *.
  - apply Hk.
  - intros [= <-]. apply Hm. reflexivity.
  - discriminate.
Qed.

(** A handler that catches everything: what leaves the statement is what
    the handler raises. *)
Lemma raises_only_catch_all (P : exn -> Prop) {A : Type} (m : M A)
    (h : exn -> M A) :
  (forall e, raises_only P (h e)) ->
  raises_only P (try_except m except_Exception h).
Proof.
  intros Hh w e. unfold try_except.
  destruct (m w) as [[a | e' |] w']; cbn [fst except_Exception];
    try discriminate.
  apply Hh.
Qed.

Lemma raises_only_call (P : exn -> Prop) (a : nat) (v : pyval)
    (l : option pydict) :
  raises_only P (Gauge.__call__ a v l).
Proof. intros w e H. discriminate. Qed.

Lemma raises_only_metrics_getitem (P : exn -> Prop)
    (metrics : list (string * nat)) (key : string) :
  P (KeyError key) -> raises_only P (metrics_getitem metrics key).
Proof.
  intros H. unfold metrics_getitem. destruct (dict_lookup key metrics);
    [apply raises_only_ret | apply raises_only_raise; exact H].
Qed.

Lemma raises_only_for_each (P : exn -> Prop) {A : Type} (l : list A)
    (body : A -> M unit) :
  (forall x, raises_only P (body x)) -> raises_only P (for_each l body).
Proof.
  intros H. induction l as [| x l IH]; cbn [for_each].
  - apply raises_only_ret.
  - apply raises_only_bind; [apply H | intros _; exact IH].
Qed.

Lemma py_get_raises_AttributeError (v : pyval) (k : string) (d : pyval)
    (e : exn) :
  py_get v k d = Exc e -> e = AttributeError.
Proof.
  destruct v; cbn; try (intros [= <-]; reflexivity).
  destruct (dict_lookup k d0); discriminate.
Qed.

(** The mapper's own handler is the only place an exception can leave
    [_process_monitor] from, and it raises nothing but the
    [AttributeError] of [monitor.get]. *)
Lemma process_monitor_raises_only_AttributeError (env : environment)
    (monitor : pyval) (metrics : list (string * nat)) :
  raises_only (fun e => e = AttributeError)
    (Collector._process_monitor env monitor metrics).
Proof.
  unfold Collector._process_monitor. apply raises_only_catch_all.
  intros e. apply raises_only_bind; [| intros x; apply raises_only_log].
  apply raises_only_lift. apply py_get_raises_AttributeError.
Qed.

Lemma collect_outcome
    (env : environment) (fuel : nat) (self : UptimeRobotCollector)
    (w : world) :
  match fst (Collector.collect env fuel self w) with
  | Ok refs => refs = Collector.describe self
  | Exc e =>
      (exists cause, e = UptimeRobotAPIError cause)
      /\ fst (Collector._get_monitors env fuel (snd (Collector.now env w)))
         = Exc e
  | Diverges => True
  end.
Proof.
  unfold Collector.collect. unfold bind at 1. cbn [Collector.now snd].
  set (w0 := mkWorld (heap w) (calls w) (logs w) (S (ticks w))).
  unfold bind at 1. unfold try_except. unfold bind at 1.
  destruct (Collector._get_monitors env fuel w0) as [[monitors | e0 |] w1]
    eqn:Efetch; cbn [fst].
  - match goal with
    | |- context [let (r, w') := ?K w1 in _] => set (rest := K)
    end.
    assert (raises_only (fun e => is_UptimeRobotAPIError e = false) rest)
      as Hrest.
    { subst rest. apply raises_only_bind.
      - apply raises_only_for_each. intros x w' e H.
        rewrite (process_monitor_raises_only_AttributeError env x _ w' e H).
        reflexivity.
      - intros _. apply raises_only_bind; [intros w' e H; discriminate |].
        intros t. apply raises_only_bind.
        + apply raises_only_metrics_getitem. reflexivity.
        + intros a. apply raises_only_call. }
    specialize (Hrest w1). clearbody rest.
    destruct (rest w1) as [[[] | e1 |] w2]; cbn [fst] in *.
    + reflexivity.
    + cbn [except_Exception]. rewrite (Hrest e1 eq_refl). reflexivity.
    + exact I.
  - cbn [except_Exception].
    destruct e0; cbn [is_UptimeRobotAPIError]; try reflexivity.
    cbn [fst]. split; [eauto | reflexivity].
  - exact I.
Qed.

(** X1. [collect] lets nothing through but the [UptimeRobotAPIError] of
    the fetch: when it raises, [_get_monitors] raised that very error; when
    it returns, it returns the references the collector holds (the result
    of [describe]), also after a fault it has swallowed. *)
Theorem collect_raises_only_the_fetch_error
    (env : environment) (fuel : nat) (self : UptimeRobotCollector)
    (w : world) :
  (forall refs, fst (Collector.collect env fuel self w) = Ok refs ->
                refs = Collector.describe self)
  /\ (forall e, fst (Collector.collect env fuel self w) = Exc e ->
        (exists cause, e = UptimeRobotAPIError cause)
        /\ fst (Collector._get_monitors env fuel
                  (snd (Collector.now env w))) = Exc e).
Proof.
  pose proof (collect_outcome env fuel self w) as H.
  split.
  - intros refs E. rewrite E in H. exact H.
  - intros e E. rewrite E in H. exact H.
Qed.

Lemma collect_raises_only_the_fetch_error_witness :
  (exists cause, UptimeRobotAPIError (HTTPError 500) = UptimeRobotAPIError cause)
  /\ fst (Collector._get_monitors broken_link_upstream 1
            (snd (Collector.now broken_link_upstream fresh_world)))
     = Exc (UptimeRobotAPIError (HTTPError 500)).
Proof.
  destruct (collect_raises_only_the_fetch_error broken_link_upstream 1
              the_collector fresh_world) as [_ H].
  apply (H (UptimeRobotAPIError (HTTPError 500))).
  vm_compute. reflexivity.
Defined.

(** ** Gauge families only grow *)

Lemma extends_refl (g : PrometheusGauge) : extends g g.
Proof.
  unfold extends. repeat split. exists []. rewrite app_nil_r. reflexivity.
Qed.

Lemma extends_trans (g1 g2 g3 : PrometheusGauge) :
  extends g1 g2 -> extends g2 g3 -> extends g1 g3.
Proof.
  intros (N1 & D1 & S1 & P1 & m1 & E1) (N2 & D2 & S2 & P2 & m2 & E2).
  unfold extends. repeat split; try congruence.
  exists (m1 ++ m2). rewrite E2, E1, app_assoc. reflexivity.
Qed.

Lemma append_only_of_heap_stable {A : Type} (m : M A) :
  heap_stable m -> append_only m.
Proof.
  intros H w. split; [rewrite H; reflexivity |].
  intros a. unfold gauge_at. rewrite H. apply extends_refl.
Qed.

Lemma append_only_bind {A B : Type} (m : M A) (k : A -> M B) :
  append_only m -> (forall a, append_only (k a)) -> append_only (bind m k).
Proof.
  intros Hm Hk w. unfold bind. specialize (Hm w).
  destruct (m w) as [[x | e |] w']; cbn [snd] in *; try exact Hm.
  destruct Hm as [Hl Hm]. destruct (Hk x w') as [Hl' Hk'].
  split; [congruence |]. intros a.
  exact (extends_trans _ _ _ (Hm a) (Hk' a)).
Qed.

Lemma append_only_try_except {A : Type} (m : M A) (c : exn -> bool)
    (h : exn -> M A) :
  append_only m -> (forall e, append_only (h e)) ->
  append_only (try_except m c h).
Proof.
  intros Hm Hh w. unfold try_except. specialize (Hm w).
  destruct (m w) as [[x | e |] w']; cbn [snd] in *; try exact Hm.
  destruct (c e); [| exact Hm].
  destruct Hm as [Hl Hm]. destruct (Hh e w') as [Hl' Hh'].
  split; [congruence |]. intros a.
  exact (extends_trans _ _ _ (Hm a) (Hh' a)).
Qed.

Lemma nth_update_nth_beyond {A : Type} (f : A -> A) (d : A) (l : list A) :
  forall n, (List.length l <= n)%nat -> update_nth n f l = l.
Proof.
  induction l as [| x l IH]; intros [| n] H; cbn in *; try lia; auto.
  f_equal. apply IH. lia.
Qed.

Lemma append_only_call (a : nat) (v : pyval) (l : option pydict) :
  append_only (Gauge.__call__ a v l).
Proof.
  intros w. cbn. split; [apply length_update_nth |].
  intros b. unfold gauge_at. cbn [heap set_heap].
  destruct (Nat.eq_dec b a) as [-> | Hne].
  - destruct (Nat.lt_ge_cases a (List.length (heap w))) as [Hlt | Hge].
    + rewrite nth_update_nth_same by assumption.
      unfold extends. cbn. repeat split. eauto.
    + rewrite (nth_update_nth_beyond _ dummy_gauge) by assumption.
      apply extends_refl.
  - rewrite nth_update_nth_other by assumption. apply extends_refl.
Qed.

Lemma append_only_for_each {A : Type} (l : list A) (body : A -> M unit) :
  (forall x, append_only (body x)) -> append_only (for_each l body).
Proof.
  intros H. induction l as [| x l IH]; cbn [for_each].
  - apply append_only_of_heap_stable, heap_stable_ret.
  - apply append_only_bind; [apply H | intros _; exact IH].
Qed.

Lemma process_monitor_append_only (env : environment) (monitor : pyval)
    (metrics : list (string * nat)) :
  append_only (Collector._process_monitor env monitor metrics).
Proof.
  unfold Collector._process_monitor.
  apply append_only_try_except;
    [| intros e; apply append_only_of_heap_stable; auto with effects].
  do 4 (apply append_only_bind;
        [apply append_only_of_heap_stable; auto with effects | intros ?]).
  do 2 (apply append_only_bind;
        [apply append_only_of_heap_stable; auto with effects | intros ?];
        apply append_only_bind; [apply append_only_call | intros _]).
  apply append_only_bind;
    [apply append_only_of_heap_stable; auto with effects | intros ssl_info].
  destruct (truthy ssl_info);
    [| apply append_only_of_heap_stable; auto with effects].
  apply append_only_bind;
    [apply append_only_of_heap_stable, parse_iso_datetime_heap_stable
    | intros ts].
  destruct (is_not_None ts);
    [| apply append_only_of_heap_stable; auto with effects].
  apply append_only_bind;
    [apply append_only_of_heap_stable; auto with effects | intros gauge].
  apply append_only_call.
Qed.

Lemma collect_append_only (env : environment) (fuel : nat)
    (self : UptimeRobotCollector) :
  append_only (Collector.collect env fuel self).
Proof.
  unfold Collector.collect.
  apply append_only_bind;
    [apply append_only_of_heap_stable; intros w0; reflexivity
    | intros start].
  apply append_only_bind;
    [| intros _; apply append_only_of_heap_stable, heap_stable_ret].
  apply append_only_try_except.
  - apply append_only_bind;
      [apply append_only_of_heap_stable, get_monitors_quiet
      | intros monitors].
    apply append_only_bind;
      [apply append_only_for_each; intros x;
       apply process_monitor_append_only | intros _].
    apply append_only_bind;
      [apply append_only_of_heap_stable; intros w0; reflexivity
      | intros t].
    apply append_only_bind;
      [apply append_only_of_heap_stable; auto with effects | intros g].
    apply append_only_call.
  - intros e. apply append_only_of_heap_stable.
    destruct (is_UptimeRobotAPIError e); auto with effects.
Qed.

(** X2. Whatever the upstream answers and however [collect] ends
    (returning, raising, or swallowing a fault half way), it creates no
    gauge object and every gauge object keeps its name, documentation and
    namespace and all the samples it had, in order: samples are only
    appended. *)
Theorem collect_only_appends_samples
    (env : environment) (fuel : nat) (self : UptimeRobotCollector)
    (w : world) (address : nat) :
  List.length (heap (snd (Collector.collect env fuel self w)))
  = List.length (heap w)
  /\ extends (gauge_at w address)
       (gauge_at (snd (Collector.collect env fuel self w)) address).
Proof.
  destruct (collect_append_only env fuel self w) as [Hl He].
  split; [exact Hl | apply He].
Qed.

(** ** Scrapes on one collector add up *)

(** X3. Two runs of [collect] on one collector, each with a fetch that
    returns JSON-object records, leave in the families the collector was
    built with the samples of both runs: two more duration samples, and
    one more [up] and one more [status] sample for every record of either
    run. *)
Theorem consecutive_collects_accumulate
    (env : environment) (fuel : nat) (self : UptimeRobotCollector)
    (w w1 w2 : world) (first second : list pyval) :
  let metrics := Collector.metrics self in
  let after_first := snd (Collector.collect env fuel self w) in
  let after_second := snd (Collector.collect env fuel self after_first) in
  is_metric_set metrics w = true ->
  Collector._get_monitors env fuel (snd (Collector.now env w))
  = (Ok first, w1) ->
  forallb is_record first = true ->
  Collector._get_monitors env fuel (snd (Collector.now env after_first))
  = (Ok second, w2) ->
  forallb is_record second = true ->
  fst (Collector.collect env fuel self w) = Ok (Collector.describe self)
  /\ fst (Collector.collect env fuel self after_first)
     = Ok (Collector.describe self)
  /\ sample_count (family after_second metrics "scrape_duration_seconds")
     = (sample_count (family w metrics "scrape_duration_seconds") + 2)%nat
  /\ sample_count (family after_second metrics "up")
     = (sample_count (family w metrics "up")
        + List.length first + List.length second)%nat
  /\ sample_count (family after_second metrics "status")
     = (sample_count (family w metrics "status")
        + List.length first + List.length second)%nat.
Proof.
  intros metrics after_first after_second Hms F1 R1 F2 R2.
  destruct (collect_appends_to_cached_families env fuel self w w1 first
              Hms F1 R1) as (wa & Ea & Sa & Ua & Ta & Hmsa).
  assert (after_first = wa) as Eaf by (unfold after_first; rewrite Ea; reflexivity).
  rewrite Eaf in F2.
  destruct (collect_appends_to_cached_families env fuel self wa w2 second
              Hmsa F2 R2) as (wb & Eb & Sb & Ub & Tb & _).
  assert (after_second = wb) as Ebf.
  { unfold after_second. rewrite Eaf, Eb. reflexivity. }
  rewrite Ea, Eaf, Eb, Ebf. cbn [fst].
  split; [reflexivity |]. split; [reflexivity |].
  fold metrics in Sa, Ua, Ta, Sb, Ub, Tb.
  unfold sample_count at 1. rewrite Sb, Sa, Ub, Ua, Tb, Ta.
  rewrite !length_app. cbn [List.length]. unfold sample_count.
  repeat split; lia.
Qed.

Lemma consecutive_collects_accumulate_witness :
  let metrics := Collector.metrics the_collector in
  let after_first :=
    snd (Collector.collect single_page_upstream 0 the_collector fresh_world) in
  let after_second :=
    snd (Collector.collect single_page_upstream 0 the_collector after_first) in
  fst (Collector.collect single_page_upstream 0 the_collector fresh_world)
  = Ok (Collector.describe the_collector)
  /\ fst (Collector.collect single_page_upstream 0 the_collector after_first)
     = Ok (Collector.describe the_collector)
  /\ sample_count (family after_second metrics "scrape_duration_seconds")
     = (sample_count (family fresh_world metrics "scrape_duration_seconds")
        + 2)%nat
  /\ sample_count (family after_second metrics "up")
     = (sample_count (family fresh_world metrics "up")
        + List.length [up_monitor] + List.length [up_monitor])%nat
  /\ sample_count (family after_second metrics "status")
     = (sample_count (family fresh_world metrics "status")
        + List.length [up_monitor] + List.length [up_monitor])%nat.
Proof.
  apply (consecutive_collects_accumulate single_page_upstream 0 the_collector
           fresh_world
           (snd (Collector._get_monitors single_page_upstream 0
                   (snd (Collector.now single_page_upstream fresh_world))))
           (snd (Collector._get_monitors single_page_upstream 0
                   (snd (Collector.now single_page_upstream
                           (snd (Collector.collect single_page_upstream 0
                                   the_collector fresh_world))))))
           [up_monitor] [up_monitor]).
  - reflexivity.
  - vm_compute. reflexivity.
  - reflexivity.
  - vm_compute. reflexivity.
  - reflexivity.
Defined.


(** ** One page request *)


(** ** A loop without a bound *)

Lemma follow_never_ends (env : environment) (pages : list pydict) :
  links_never_end env pages ->
  forall (fuel : nat) (p : pydict) (monitors : list pyval) (n : nat)
         (w : world),
    In p pages ->
    let outcome :=
      Collector.follow_next_links env fuel (PDict p) monitors n w in
    fst outcome = Diverges
    /\ heap (snd outcome) = heap w
    /\ List.length (calls (snd outcome))
       = (List.length (calls w) + fuel)%nat.
Proof.
  intros Hloop. induction fuel as [| fuel IH]; intros p monitors n w Hin.
  - destruct (Hloop p Hin) as (_ & u & p' & Hlink & _).
    assert (Collector.follow_next_links env 0 (PDict p) monitors n w
            = (Diverges, w)) as E.
    { cbn [Collector.follow_next_links]. unfold bind at 1.
      rewrite has_next_link_dict, Hlink. reflexivity. }
    cbv zeta. rewrite E. cbn [fst snd]. repeat split. lia.
  - destruct (Hloop p Hin) as (_ & u & p' & Hlink & Hserves & Hin').
    destruct (Hloop p' Hin') as (Hdata & u' & p'' & Hlink' & _).
    destruct (next_link_getitem _ _ Hlink') as (_ & _ & Hne).
    destruct (follow_step env fuel p p' u monitors n w Hlink Hserves Hne Hdata)
      as (w' & E & Hh & Hc & _).
    cbv zeta. rewrite E.
    destruct (IH p' (monitors ++ records p') (S n) w' Hin') as (D & H & L).
    split; [exact D |]. split; [congruence |].
    rewrite L, Hc, length_app. cbn [List.length]. lia.
Qed.

(** X5. The pagination loop has no page limit and does not notice a page
    it has seen before.  When the listing serves a page from which the
    links never end (every page links to a page that links on), no bound
    on the number of passes through the loop lets [_get_monitors] or
    [collect] come back: each allowed pass is spent on one more request,
    and no sample is recorded. *)
Theorem endless_links_exhaust_every_bound
    (env : environment) (pages : list pydict) (p : pydict) (fuel : nat)
    (self : UptimeRobotCollector) (w : world) :
  links_never_end env pages ->
  serves env listing_url (PDict p) ->
  In p pages ->
  fst (Collector._get_monitors env fuel w) = Diverges
  /\ List.length (calls (snd (Collector._get_monitors env fuel w)))
     = (List.length (calls w) + 1 + fuel)%nat
  /\ fst (Collector.collect env fuel self w) = Diverges
  /\ heap (snd (Collector.collect env fuel self w)) = heap w.
Proof.
  intros Hloop Hserves Hin.
  destruct (Hloop p Hin) as (Hdata & u & p' & Hlink & _).
  destruct (next_link_getitem _ _ Hlink) as (_ & _ & Hne).
  assert (forall w0, exists w1,
            Collector._get_monitors env fuel w0 = (Diverges, w1)
            /\ heap w1 = heap w0
            /\ List.length (calls w1)
               = (List.length (calls w0) + 1 + fuel)%nat) as Hfetch.
  { intros w0.
    rewrite (get_monitors_enter env fuel p w0 Hserves Hne Hdata).
    destruct (follow_never_ends env pages Hloop fuel p (records p) 0%nat
                (add_call listing_url w0) Hin) as (D & H & L).
    unfold bind at 1.
    destruct (Collector.follow_next_links env fuel (PDict p) (records p) 0
                (add_call listing_url w0)) as [[ms | e |] w1];
      cbn [fst snd] in *; try discriminate.
    exists w1. split; [reflexivity |]. split; [exact H |].
    rewrite L. cbn [add_call calls]. rewrite length_app. cbn [List.length].
    lia. }
  destruct (Hfetch w) as (w1 & E & _ & L). rewrite E. cbn [fst snd].
  split; [reflexivity |]. split; [exact L |].
  destruct (Hfetch (snd (Collector.now env w))) as (w2 & E2 & H2 & _).
  assert (Collector.collect env fuel self w = (Diverges, w2)) as Ec.
  { unfold Collector.collect. unfold bind at 1.
    cbn [Collector.now snd] in *.
    unfold bind at 1. unfold try_except. unfold bind at 1.
    rewrite E2. reflexivity. }
  rewrite Ec. cbn [fst snd]. split; [reflexivity | exact H2].
Qed.

Lemma endless_links_exhaust_every_bound_witness :
  fst (Collector._get_monitors looping_upstream 3 fresh_world) = Diverges
  /\ List.length
       (calls (snd (Collector._get_monitors looping_upstream 3 fresh_world)))
     = (List.length (calls fresh_world) + 1 + 3)%nat
  /\ fst (Collector.collect looping_upstream 3 the_collector fresh_world)
     = Diverges
  /\ heap (snd (Collector.collect looping_upstream 3 the_collector fresh_world))
     = heap fresh_world.
Proof.
  apply (endless_links_exhaust_every_bound looping_upstream [looping_page]
           looping_page 3 the_collector fresh_world).
  - intros p [<- | []]. split; [reflexivity |].
    exists listing_url, looping_page.
    split; [reflexivity |]. split; [| left; reflexivity].
    vm_compute. split; [left; reflexivity | reflexivity].
  - vm_compute. split; [left; reflexivity | reflexivity].
  - left. reflexivity.
Defined.

(** ** Faults that [collect] keeps to itself *)

Lemma extend_with_unusable (v : pyval) (w : world) :
  unusable_page v = true ->
  exists e,
    Collector.extend_with_data [] v w = (Exc e, w)
    /\ (e = AttributeError \/ exists msg, e = TypeError msg).
Proof.
  unfold Collector.extend_with_data, unusable_page, bind, lift.
  destruct v as [| b | z | q | s | l | p]; cbn [py_get];
    try (intros _; exists AttributeError; split; [reflexivity | left; reflexivity]).
  destruct (dict_lookup "data" p) as [data |]; [| discriminate].
  destruct data; cbn; try discriminate; intros _;
    (eexists; split; [reflexivity | right; eexists; reflexivity]).
Qed.

(** X6. When the listing endpoint answers with a body that decodes to
    something the fetch cannot use (a true value that is no JSON object, or
    an object whose [data] cannot be iterated), [collect] neither raises
    nor reports the scrape as failed: it returns the collector's families
    with no sample added - not even the scrape duration - and the only
    trace is one error record carrying the [AttributeError] or
    [TypeError]. *)
Theorem unusable_page_is_swallowed
    (env : environment) (fuel : nat) (self : UptimeRobotCollector)
    (w : world) (v : pyval) :
  serves env listing_url v ->
  truthy v = true ->
  unusable_page v = true ->
  exists e w',
    Collector.collect env fuel self w = (Ok (Collector.describe self), w')
    /\ (e = AttributeError \/ exists msg, e = TypeError msg)
    /\ heap w' = heap w
    /\ calls w' = calls w ++ [listing_url]
    /\ logs w' = logs w ++ [(ERROR, Error_collecting_metrics e)].
Proof.
  intros Hserves Htrue Hbad.
  set (w0 := mkWorld (heap w) (calls w) (logs w) (S (ticks w))).
  destruct (extend_with_unusable v (add_call listing_url w0) Hbad)
    as (e & Hext & He).
  exists e. eexists. split; [| split; [exact He |]].
  - unfold Collector.collect. unfold bind at 1. cbn [Collector.now].
    fold w0. unfold bind at 1. unfold try_except. unfold bind at 1.
    unfold Collector._get_monitors. unfold bind at 1.
    rewrite (get_paginated_serves env PNone listing_url v w0 eq_refl Hserves).
    rewrite Htrue. unfold bind at 1. unfold bind at 1. rewrite Hext.
    cbn [except_Exception].
    replace (is_UptimeRobotAPIError e) with false
      by (destruct He as [-> | [msg ->]]; reflexivity).
    cbn. reflexivity.
  - cbn. repeat split.
Qed.

Lemma unusable_page_is_swallowed_witness :
  exists e w',
    Collector.collect array_upstream 0 the_collector fresh_world
    = (Ok (Collector.describe the_collector), w')
    /\ (e = AttributeError \/ exists msg, e = TypeError msg)
    /\ heap w' = heap fresh_world
    /\ calls w' = calls fresh_world ++ [listing_url]
    /\ logs w' = logs fresh_world ++ [(ERROR, Error_collecting_metrics e)].
Proof.
  apply (unusable_page_is_swallowed array_upstream 0 the_collector fresh_world
           (PList [up_monitor])).
  - vm_compute. split; [left; reflexivity | reflexivity].
  - reflexivity.
  - reflexivity.
Defined.

(** ** A metric dictionary that lacks a family *)

(** X7. [_process_monitor] looks its families up by key while it runs, so
    a dictionary that lacks one is found out half way: without [up] the
    record leaves no sample at all, without [status] it leaves the [up]
    sample alone.  Either way the mapper returns normally and writes one
    error record with the record's name and the [KeyError]. *)
Theorem missing_family_is_logged
    (env : environment) (d : pydict) (metrics : list (string * nat))
    (w : world) :
  let failed key :=
    (ERROR,
     Error_processing_monitor (dict_get d "friendlyName" (PStr "unknown"))
       (KeyError key)) in
  (dict_lookup "up" metrics = None ->
   Collector._process_monitor env (PDict d) metrics w
   = (Ok tt, mkWorld (heap w) (calls w) (logs w ++ [failed "up"]) (ticks w)))
  /\ (forall up,
        dict_lookup "up" metrics = Some up ->
        dict_lookup "status" metrics = None ->
        Collector._process_monitor env (PDict d) metrics w
        = (Ok tt,
           mkWorld
             (update_nth up
                (append_sample
                   (mkSample (name (gauge_at w up)) (monitor_labels d)
                      (up_value d)))
                (heap w))
             (calls w) (logs w ++ [failed "status"]) (ticks w))).
Proof.
  intros failed. subst failed.
  split.
  - intros Hup. unfold Collector._process_monitor, try_except.
    unfold bind at 1. rewrite !py_get_dict.
    unfold lift at 1. unfold bind at 1. unfold lift at 1.
    unfold bind at 1. unfold lift at 1. unfold bind at 1. unfold lift at 1.
    unfold bind at 1. unfold metrics_getitem at 1. rewrite Hup.
    reflexivity.
  - intros up Hup Hst. unfold Collector._process_monitor, try_except.
    unfold bind at 1. rewrite !py_get_dict.
    unfold lift at 1. unfold bind at 1. unfold lift at 1.
    unfold bind at 1. unfold lift at 1. unfold bind at 1. unfold lift at 1.
    unfold bind at 1. unfold metrics_getitem at 1. rewrite Hup.
    unfold ret at 1. unfold bind at 1. rewrite call_appends.
    unfold bind at 1. unfold metrics_getitem at 1. rewrite Hst.
    reflexivity.
Qed.

Lemma missing_family_is_logged_witness :
  let d := [("friendlyName", PStr "Test Monitor"); ("status", PStr "UP")] in
  let failed key :=
    (ERROR,
     Error_processing_monitor (dict_get d "friendlyName" (PStr "unknown"))
       (KeyError key)) in
  Collector._process_monitor single_page_upstream (PDict d) [] fresh_world
  = (Ok tt,
     mkWorld (heap fresh_world) (calls fresh_world)
       (logs fresh_world ++ [failed "up"]) (ticks fresh_world))
  /\ Collector._process_monitor single_page_upstream (PDict d)
       [("up", 0%nat)] fresh_world
     = (Ok tt,
        mkWorld
          (update_nth 0
             (append_sample
                (mkSample (name (gauge_at fresh_world 0)) (monitor_labels d)
                   (up_value d)))
             (heap fresh_world))
          (calls fresh_world) (logs fresh_world ++ [failed "status"])
          (ticks fresh_world)).
Proof.
  intros d failed. split.
  - apply (missing_family_is_logged single_page_upstream d [] fresh_world).
    reflexivity.
  - apply (missing_family_is_logged single_page_upstream d [("up", 0%nat)]
             fresh_world); reflexivity.
Defined.

(** ** The certificate expiry sample *)

(** [_process_monitor] on a JSON object, with the three families it uses
    looked up: the two unconditional samples, then the expiry. *)
Lemma process_monitor_stages (env : environment) (d : pydict)
    (metrics : list (string * nat)) (w : world) (up st ssl : nat) :
  dict_lookup "up" metrics = Some up ->
  dict_lookup "status" metrics = Some st ->
  dict_lookup "ssl_expire" metrics = Some ssl ->
  let sample_of g v := mkSample (name g) (monitor_labels d) v in
  let w1 :=
    set_heap (update_nth up
                (append_sample (sample_of (gauge_at w up) (up_value d)))
                (heap w)) w in
  let w2 :=
    set_heap (update_nth st
                (append_sample (sample_of (gauge_at w1 st) (up_value d)))
                (heap w1)) w1 in
  let ssl_info := dict_get d "sslExpiryDateTime" PNone in
  Collector._process_monitor env (PDict d) metrics w
  = if truthy ssl_info then
      match Collector._parse_iso_datetime env ssl_info w2 with
      | (Ok ts, w3) =>
          if is_not_None ts then
            (Ok tt,
             set_heap (update_nth ssl
                         (append_sample (sample_of (gauge_at w3 ssl) ts))
                         (heap w3)) w3)
          else (Ok tt, w3)
      | (Exc e, w3) =>
          log ERROR
            (Error_processing_monitor
               (dict_get d "friendlyName" (PStr "unknown")) e) w3
      | (Diverges, w3) => (Diverges, w3)
      end
    else (Ok tt, w2).
Proof.
  intros Hup Hst Hssl sample_of w1 w2 ssl_info.
  unfold Collector._process_monitor, try_except.
  unfold bind at 1. unfold lift at 1. rewrite py_get_dict.
  unfold bind at 1. unfold lift at 1. rewrite py_get_dict.
  unfold bind at 1. unfold lift at 1. rewrite py_get_dict.
  unfold bind at 1. unfold lift at 1. rewrite py_get_dict.
  unfold bind at 1. unfold metrics_getitem at 1. rewrite Hup. unfold ret at 1.
  unfold bind at 1. rewrite call_appends.
  unfold bind at 1. unfold metrics_getitem at 1. rewrite Hst. unfold ret at 1.
  unfold bind at 1. rewrite call_appends.
  change Collector.STATUS_PAUSED with "PAUSED".
  change Collector.STATUS_UP with "UP".
  fold (monitor_labels d). fold (up_value d).
  fold (sample_of (gauge_at w up) (up_value d)). fold w1.
  fold (sample_of (gauge_at w1 st) (up_value d)). fold w2.
  unfold bind at 1. unfold lift at 1. rewrite py_get_dict. fold ssl_info.
  destruct (truthy ssl_info); [| reflexivity].
  unfold bind at 1.
  destruct (Collector._parse_iso_datetime env ssl_info w2)
    as [[ts | e |] w3].
  - destruct (is_not_None ts); [| reflexivity].
    unfold bind at 1. unfold metrics_getitem. rewrite Hssl. unfold ret at 1.
    rewrite call_appends. reflexivity.
  - cbn [except_Exception]. unfold bind, lift. rewrite py_get_dict.
    reflexivity.
  - reflexivity.
Qed.

Lemma parse_iso_datetime_rendered (env : environment)
    (y m d hh mm ss : Z) (f : fraction) (w : world) :
  valid_fields y m d hh mm ss ->
  fraction_in_range f ->
  Collector._parse_iso_datetime env (PStr (iso_utc_string y m d hh mm ss f)) w
  = (Ok (PFloat (utc_epoch_micros y m d hh mm ss (fraction_micros f)
                 # 1000000)), w).
Proof.
  intros Hv Hf. unfold Collector._parse_iso_datetime.
  assert (truthy (PStr (iso_utc_string y m d hh mm ss f)) = true) as ->
    by reflexivity.
  cbn [negb]. unfold try_except, bind, lift, py_replace.
  rewrite fromisoformat_rendered by assumption.
  destruct Hv as (Hy & Hm & _).
  rewrite timestamp_of_utc by lia. reflexivity.
Qed.

Lemma parse_iso_datetime_logs_rejection (env : environment) (s : string)
    (e : exn) (w : world) :
  s <> "" ->
  fromisoformat env (str_replace "Z" "+00:00" s) = Exc e ->
  Collector._parse_iso_datetime env (PStr s) w
  = (Ok PNone,
     mkWorld (heap w) (calls w)
       (logs w ++ [(ERROR, Failed_to_parse_datetime (PStr s) e)]) (ticks w)).
Proof.
  intros Hs H.
  destruct (fromisoformat_raises_ValueError env _ _ H) as [msg ->].
  unfold Collector._parse_iso_datetime.
  destruct s as [| c s]; [congruence |]. cbn [truthy negb].
  unfold try_except, bind, lift, py_replace. rewrite H. reflexivity.
Qed.

(** X8. What a record leaves in the [ssl_expire] family.  A record without
    [sslExpiryDateTime], or with a false value there, leaves nothing and is
    not logged.  A record whose [sslExpiryDateTime] is a UTC timestamp
    [YYYY-MM-DDThh:mm:ss[.fff[fff]]Z] with fields in calendar range leaves
    one sample: the epoch seconds of that instant, under the same four
    labels as the record's [up] sample.  A record whose
    [sslExpiryDateTime] is a string that does not begin with four digits,
    which no [fromisoformat] reads, leaves nothing but the normalizer's
    error record; its [up] and [status] samples are there all the
    same. *)
Theorem expiry_sample_follows_the_normalizer
    (env : environment) (d : pydict) (metrics : list (string * nat))
    (w : world) :
  is_metric_set metrics w = true ->
  (truthy (dict_get d "sslExpiryDateTime" PNone) = false ->
   exists w',
     Collector._process_monitor env (PDict d) metrics w = (Ok tt, w')
     /\ family w' metrics "ssl_expire" = family w metrics "ssl_expire"
     /\ logs w' = logs w)
  /\ (forall y m dd hh mm ss f,
        valid_fields y m dd hh mm ss ->
        fraction_in_range f ->
        dict_lookup "sslExpiryDateTime" d
        = Some (PStr (iso_utc_string y m dd hh mm ss f)) ->
        exists w',
          Collector._process_monitor env (PDict d) metrics w = (Ok tt, w')
          /\ samples (family w' metrics "ssl_expire")
             = samples (family w metrics "ssl_expire")
               ++ [mkSample (name (family w metrics "ssl_expire"))
                     (monitor_labels d)
                     (PFloat (utc_epoch_micros y m dd hh mm ss
                                (fraction_micros f) # 1000000))]
          /\ logs w' = logs w)
  /\ (forall s,
        dict_lookup "sslExpiryDateTime" d = Some (PStr s) ->
        s <> "" ->
        begins_with_year s = false ->
        exists w',
          Collector._process_monitor env (PDict d) metrics w = (Ok tt, w')
          /\ family w' metrics "ssl_expire" = family w metrics "ssl_expire"
          /\ sample_count (family w' metrics "up")
             = S (sample_count (family w metrics "up"))
          /\ sample_count (family w' metrics "status")
             = S (sample_count (family w metrics "status"))
          /\ logs w'
             = logs w
               ++ [(ERROR,
                    Failed_to_parse_datetime (PStr s) invalid_isoformat)]).
Proof.
  intros Hms.
  destruct (is_metric_set_facts _ _ Hms)
    as (up & st & ssl & sc & Hup & Hst & Hssl & Hsc & N1 & N2 & N3 & N4 & N5
        & N6 & L1 & L2 & L3 & L4).
  pose proof (process_monitor_stages env d metrics w up st ssl Hup Hst Hssl)
    as E.
  cbv zeta in E. unfold family. rewrite Hup, Hst, Hssl.
  split; [| split].
  - intros Hfalsy. rewrite Hfalsy in E. eexists. split; [exact E |].
    split; [| reflexivity].
    unfold gauge_at. cbn [heap set_heap].
    rewrite !nth_update_nth_other by congruence. reflexivity.
  - intros y m dd hh mm ss f Hv Hf Hd.
    assert (dict_get d "sslExpiryDateTime" PNone
            = PStr (iso_utc_string y m dd hh mm ss f)) as Einfo
      by (unfold dict_get; rewrite Hd; reflexivity).
    rewrite Einfo in E.
    rewrite parse_iso_datetime_rendered in E by assumption.
    change (truthy (PStr (iso_utc_string y m dd hh mm ss f))) with true in E.
    cbn [is_not_None] in E.
    eexists. split; [exact E |]. split; [| reflexivity].
    unfold gauge_at. cbn [heap set_heap].
    rewrite nth_update_nth_same by (rewrite !length_update_nth; assumption).
    rewrite !nth_update_nth_other by congruence. reflexivity.
  - intros s Hd Hs Hyear.
    pose proof (fromisoformat_without_year env s Hyear) as Hrej.
    assert (dict_get d "sslExpiryDateTime" PNone = PStr s) as Einfo
      by (unfold dict_get; rewrite Hd; reflexivity).
    rewrite Einfo in E.
    rewrite (parse_iso_datetime_logs_rejection env s _ _ Hs Hrej) in E.
    assert (truthy (PStr s) = true) as Ht
      by (destruct s; [congruence | reflexivity]).
    rewrite Ht in E. cbn [is_not_None] in E.
    eexists. split; [exact E |].
    unfold gauge_at, sample_count. cbn [heap set_heap logs].
    rewrite !nth_update_nth_other by congruence.
    rewrite nth_update_nth_same by assumption.
    rewrite nth_update_nth_same by (rewrite length_update_nth; assumption).
    rewrite nth_update_nth_other by congruence.
    cbn [append_sample samples]. rewrite !length_app. cbn [List.length].
    repeat split; lia.
Qed.

Lemma expiry_sample_follows_the_normalizer_witness :
  let metrics := Collector.metrics the_collector in
  (exists w',
     Collector._process_monitor single_page_upstream paused_monitor metrics
       fresh_world = (Ok tt, w')
     /\ family w' metrics "ssl_expire" = family fresh_world metrics "ssl_expire"
     /\ logs w' = logs fresh_world)
  /\ (exists w',
        Collector._process_monitor single_page_upstream
          (PDict certified_record) metrics fresh_world = (Ok tt, w')
        /\ samples (family w' metrics "ssl_expire")
           = samples (family fresh_world metrics "ssl_expire")
             ++ [mkSample (name (family fresh_world metrics "ssl_expire"))
                   (monitor_labels certified_record)
                   (PFloat (1767225599000000 # 1000000))]
        /\ logs w' = logs fresh_world)
  /\ (exists w',
        Collector._process_monitor single_page_upstream
          (PDict miscertified_record) metrics fresh_world = (Ok tt, w')
        /\ family w' metrics "ssl_expire"
           = family fresh_world metrics "ssl_expire"
        /\ sample_count (family w' metrics "up")
           = S (sample_count (family fresh_world metrics "up"))
        /\ sample_count (family w' metrics "status")
           = S (sample_count (family fresh_world metrics "status"))
        /\ logs w'
           = logs fresh_world
             ++ [(ERROR,
                  Failed_to_parse_datetime (PStr "invalid-datetime")
                    invalid_isoformat)]).
Proof.
  intros metrics. split; [| split].
  - destruct (expiry_sample_follows_the_normalizer single_page_upstream
                [("friendlyName", PStr "Paused Monitor"); ("type", PStr "port");
                 ("url", PStr "db.example.com:5432"); ("status", PStr "PAUSED");
                 ("sslExpiryDateTime", PNone)]
                metrics fresh_world eq_refl) as (H & _).
    apply H. reflexivity.
  - destruct (expiry_sample_follows_the_normalizer single_page_upstream
                certified_record metrics fresh_world eq_refl) as (_ & H & _).
    apply (H 2025 12 31 23 59 59 (milliseconds 0)).
    + unfold valid_fields. cbn. lia.
    + cbn. lia.
    + reflexivity.
  - destruct (expiry_sample_follows_the_normalizer single_page_upstream
                miscertified_record metrics fresh_world eq_refl) as (_ & _ & H).
    apply (H "invalid-datetime").
    + reflexivity.
    + discriminate.
    + reflexivity.
Defined.

(** ** Cloning a gauge *)

(** X9. [clone] makes a new gauge object and leaves every existing one
    alone.  For a gauge that [__init__] built (its full name is its
    namespace, an underscore and its short name), the clone has the same
    full name, documentation, short name and namespace and no samples; a
    sample appended to the clone afterwards does not show in the
    original. *)
Theorem clone_is_fresh_and_empty
    (self : nat) (w : world) (value : pyval) (labels : option pydict) :
  let g := gauge_at w self in
  let copy := List.length (heap w) in
  (self < List.length (heap w))%nat ->
  name g = (_namespace g ++ "_" ++ _name g)%string ->
  exists w',
    Gauge.clone self w = (Ok copy, w')
    /\ gauge_at w' copy
       = mkGauge (name g) (documentation g) [] (_name g) (_namespace g)
    /\ (forall a, (a < List.length (heap w))%nat ->
                  gauge_at w' a = gauge_at w a)
    /\ gauge_at (snd (Gauge.__call__ copy value labels w')) self = g
    /\ sample_count (gauge_at (snd (Gauge.__call__ copy value labels w')) copy)
       = 1%nat.
Proof.
  intros g copy Hlt Hname. eexists. split; [reflexivity |].
  assert (forall a, (a < List.length (heap w))%nat ->
            nth a (heap w ++ [mkGauge (_namespace g ++ "_" ++ _name g)
                                (documentation g) [] (_name g) (_namespace g)])
              dummy_gauge
            = nth a (heap w) dummy_gauge) as Hold
    by (intros a Ha; apply app_nth1; exact Ha).
  split; [| split; [| split]].
  - unfold gauge_at. cbn [heap set_heap]. fold g. subst copy.
    rewrite nth_middle. rewrite Hname. reflexivity.
  - intros a Ha. unfold gauge_at. cbn [heap set_heap]. fold g.
    apply Hold. exact Ha.
  - unfold gauge_at. cbn [heap set_heap snd Gauge.__call__ bind read modify].
    fold g. cbn [heap set_heap snd].
    rewrite nth_update_nth_other by (subst copy; lia).
    apply Hold. exact Hlt.
  - unfold gauge_at, sample_count.
    cbn [heap set_heap snd Gauge.__call__ bind read modify]. fold g.
    cbn [heap set_heap snd].
    rewrite nth_update_nth_same by (rewrite length_app; cbn; subst copy; lia).
    subst copy. rewrite nth_middle. reflexivity.
Qed.

Lemma clone_is_fresh_and_empty_witness :
  let g := gauge_at fresh_world 0 in
  exists w',
    Gauge.clone 0 fresh_world = (Ok 4%nat, w')
    /\ gauge_at w' 4
       = mkGauge (name g) (documentation g) [] (_name g) (_namespace g)
    /\ (forall a, (a < List.length (heap fresh_world))%nat ->
                  gauge_at w' a = gauge_at fresh_world a)
    /\ gauge_at (snd (Gauge.__call__ 4 (PInt 1) None w')) 0 = g
    /\ sample_count (gauge_at (snd (Gauge.__call__ 4 (PInt 1) None w')) 4)
       = 1%nat.
Proof.
  intros g.
  apply (clone_is_fresh_and_empty 0 fresh_world (PInt 1) None).
  - vm_compute. lia.
  - reflexivity.
Defined.

(** ** The fetch does not look at the collector *)

Lemma world_blind_ret {A : Type} (a : A) : world_blind (ret a).
Proof. intros w w'. reflexivity. Qed.

Lemma world_blind_raise {A : Type} (e : exn) : world_blind (@raise A e).
Proof. intros w w'. reflexivity. Qed.

Lemma world_blind_lift {A : Type} (r : result A) : world_blind (lift r).
Proof. intros w w'. reflexivity. Qed.

Lemma world_blind_log (l : level) (m : log_message) : world_blind (log l m).
Proof. intros w w'. reflexivity. Qed.

Lemma world_blind_bind {A B : Type} (m : M A) (k : A -> M B) :
  world_blind m -> (forall a, world_blind (k a)) -> world_blind (bind m k).
Proof.
  intros Hm Hk w w'. unfold bind. specialize (Hm w w').
  destruct (m w) as [[a | e |] w1], (m w') as [[a' | e' |] w1'];
    cbn [fst] in *; try discriminate; try congruence.
  injection Hm as ->. apply Hk.
Qed.

Lemma world_blind_try_except {A : Type} (m : M A) (c : exn -> bool)
    (h : exn -> M A) :
  world_blind m -> (forall e, world_blind (h e)) ->
  world_blind (try_except m c h).
Proof.
  intros Hm Hh w w'. unfold try_except. specialize (Hm w w').
  destruct (m w) as [[a | e |] w1], (m w') as [[a' | e' |] w1'];
    cbn [fst] in *; try discriminate; try congruence.
  injection Hm as ->. destruct (c e'); [apply Hh | reflexivity].
Qed.

#[local] Hint Resolve world_blind_ret world_blind_raise world_blind_lift
  world_blind_log : effects.

Lemma get_paginated_world_blind (env : environment) (link : pyval) :
  world_blind (Collector._get_paginated env link).
Proof.
  unfold Collector._get_paginated. apply world_blind_try_except.
  - apply world_blind_bind.
    + unfold Collector.requests_get.
      destruct (if truthy link then link else _); auto with effects.
      intros w w'.
      destruct (upstream env s) as [[|] | t | st [v |] | st l]; reflexivity.
    + intros response. apply world_blind_bind.
      * unfold Collector.raise_for_status.
        destruct (_ && _); auto with effects.
      * intros _. unfold Collector.json. auto with effects.
  - intros e. apply world_blind_bind; [auto with effects |].
    intros _. destruct e; auto with effects.
Qed.

Lemma extend_with_data_world_blind (env : environment)
    (monitors : list pyval) (response : pyval) :
  world_blind (Collector.extend_with_data monitors response).
Proof.
  unfold Collector.extend_with_data.
  repeat (apply world_blind_bind; [auto with effects | intros ?]).
  auto with effects.
Qed.

Lemma follow_next_links_world_blind (env : environment) (fuel : nat) :
  forall (response : pyval) (monitors : list pyval) (page_count : nat),
    world_blind
      (Collector.follow_next_links env fuel response monitors page_count).
Proof.
  induction fuel as [| fuel IH]; intros response monitors page_count;
    cbn [Collector.follow_next_links].
  - apply world_blind_bind.
    + unfold Collector.has_next_link.
      apply world_blind_bind; [auto with effects | intros present].
      destruct present; [| auto with effects].
      apply world_blind_bind; auto with effects.
    + intros [|]; [intros w w'; reflexivity | auto with effects].
  - apply world_blind_bind.
    + unfold Collector.has_next_link.
      apply world_blind_bind; [auto with effects | intros present].
      destruct present; [| auto with effects].
      apply world_blind_bind; auto with effects.
    + intros [|]; [| auto with effects].
      apply world_blind_bind; [auto with effects | intros link].
      apply world_blind_bind; [apply get_paginated_world_blind | intros page].
      destruct (truthy page); [| auto with effects].
      apply world_blind_bind;
        [apply (extend_with_data_world_blind env) | intros ms].
      repeat (apply world_blind_bind; [auto with effects | intros ?]).
      apply IH.
Qed.

Lemma get_monitors_world_blind (env : environment) (fuel : nat) :
  world_blind (Collector._get_monitors env fuel).
Proof.
  unfold Collector._get_monitors.
  apply world_blind_bind; [apply get_paginated_world_blind | intros page].
  apply world_blind_bind.
  - destruct (truthy page); [| auto with effects].
    apply world_blind_bind;
      [apply (extend_with_data_world_blind env) | intros ms].
    apply follow_next_links_world_blind.
  - intros ms. apply world_blind_bind; auto with effects.
Qed.


(** ** The route [/metrics] *)

Lemma configure_builds_empty_families (key : string) (w : world) :
  key <> "" ->
  let a := List.length (heap w) in
  let c :=
    mkCollector key 30
      [("up", a); ("status", S a); ("ssl_expire", S (S a));
       ("scrape_duration_seconds", S (S (S a)))] in
  exists w',
    Collector.configure (PStr key) 30 w = (Ok c, w')
    /\ is_metric_set (Collector.metrics c) w' = true
    /\ map name (families w' (Collector.describe c))
       = ["uptimerobot_up"; "uptimerobot_status"; "uptimerobot_ssl_expire";
          "uptimerobot_scrape_duration_seconds"]
    /\ map samples (families w' (Collector.describe c)) = [[]; []; []; []].
Proof.
  intros Hkey a c. unfold Collector.configure, Collector.__init__.
  assert (truthy (PStr key) = true) as ->
    by (destruct key; [congruence | reflexivity]).
  cbn [negb]. change (30 <=? 0) with false. cbv iota.
  unfold bind, Gauge.__init__, alloc, ret. cbn [heap set_heap].
  rewrite !length_app. cbn [List.length]. rewrite !Nat.add_1_r. fold a.
  eexists. split; [reflexivity |].
  subst c.
  cbn [snd Collector.metrics Collector.describe _metrics map families].
  unfold is_metric_set, gauge_at.
  cbn [dict_lookup String.eqb Ascii.eqb Bool.eqb heap set_heap].
  rewrite !length_app. cbn [List.length]. unfold distinct4. fold a.
  rewrite <- !app_assoc. cbn [app].
  split; [decide_nat_tests; reflexivity |].
  match goal with
  | |- context [nth a (heap w ++ ?L) dummy_gauge] => set (l := L)
  end.
  assert (forall i, nth (a + i) (heap w ++ l) dummy_gauge
                    = nth i l dummy_gauge) as H
    by (intros i; apply nth_after_prefix).
  pose proof (H 0%nat) as H0. rewrite Nat.add_0_r in H0.
  pose proof (H 1%nat) as H1. rewrite Nat.add_1_r in H1.
  pose proof (H 2%nat) as H2. replace (a + 2)%nat with (S (S a)) in H2 by lia.
  pose proof (H 3%nat) as H3.
  replace (a + 3)%nat with (S (S (S a))) in H3 by lia.
  rewrite H0, H1, H2, H3. split; reflexivity.
Qed.

Lemma configured_key (key : string) :
  key <> "" ->
  dict_get (flask.config (App.create_app (PStr key))) "UPTIMEROBOT_API_KEY"
    PNone = PStr key
  /\ truthy (PStr key) = true.
Proof.
  intros H. unfold App.create_app.
  assert (truthy (PStr key) = true) as ->
    by (destruct key; [congruence | reflexivity]).
  split; reflexivity.
Qed.

(** X11. Every request of [/metrics] is answered from a collector of its
    own.  With a key configured and a fetch that returns JSON-object
    records, the families handed to the renderer are the four families
    under their full names, holding one [up] and one [status] sample per
    record and one scrape duration - whatever the requests before have
    left behind - and what the renderer makes of them is the body of a
    200 [text/plain] response; the application logs nothing. *)
Theorem each_request_serves_one_scrape
    (render : list PrometheusGauge -> result string) (env : environment)
    (fuel : nat) (key : string) (aw : app_world) (monitors : list pyval) :
  key <> "" ->
  fst (Collector._get_monitors env fuel (collector_world aw)) = Ok monitors ->
  forallb is_record monitors = true ->
  exists up st ssl sc,
    map name [up; st; ssl; sc]
    = ["uptimerobot_up"; "uptimerobot_status"; "uptimerobot_ssl_expire";
       "uptimerobot_scrape_duration_seconds"]
    /\ sample_count up = List.length monitors
    /\ sample_count st = List.length monitors
    /\ sample_count sc = 1%nat
    /\ forall data,
         render [up; st; ssl; sc] = Ok data ->
         let answer :=
           App.metrics render env fuel (App.create_app (PStr key)) aw in
         fst answer
         = Ok (flask.mkResponse (Exposition data) MIMETYPE_TEXT_PLAIN 200)
         /\ app_logs (snd answer) = app_logs aw.
Proof.
  intros Hkey Hfetch Hrec.
  set (w := collector_world aw) in *.
  destruct (configure_builds_empty_families key w Hkey)
    as (w0 & Ec & Hms & Hnames & Hsamples).
  set (a := List.length (heap w)) in *.
  set (c := mkCollector key 30 _) in *.
  destruct (Collector._get_monitors env fuel (snd (Collector.now env w0)))
    as [r w1] eqn:E.
  assert (r = Ok monitors) as ->.
  { rewrite <- Hfetch.
    rewrite (get_monitors_world_blind env fuel w (snd (Collector.now env w0))).
    rewrite E. reflexivity. }
  destruct (collect_appends_to_cached_families env fuel c w0 w1 monitors
              Hms E Hrec) as (w2 & Ecol & Hdur & Hup & Hst & _).
  assert (forall x, name (gauge_at w2 x) = name (gauge_at w0 x)) as Hname.
  { intros x. destruct (collect_append_only env fuel c w0) as [_ He].
    specialize (He x). rewrite Ecol in He. cbn [snd] in He.
    destruct He as (N & _). exact N. }
  unfold family in Hdur, Hup, Hst.
  cbn [Collector.metrics _metrics c dict_lookup String.eqb Ascii.eqb Bool.eqb]
    in Hdur, Hup, Hst.
  cbn [families Collector.describe Collector.metrics _metrics c map snd]
    in Hnames, Hsamples.
  injection Hsamples as Sup Sst Sssl Ssc.
  exists (gauge_at w2 a), (gauge_at w2 (S a)), (gauge_at w2 (S (S a))),
    (gauge_at w2 (S (S (S a)))).
  split; [cbn [map]; rewrite !Hname; exact Hnames |].
  split; [rewrite Hup; unfold sample_count; rewrite Sup; reflexivity |].
  split; [rewrite Hst; unfold sample_count; rewrite Sst; reflexivity |].
  split; [unfold sample_count; rewrite Hdur, Ssc; reflexivity |].
  intros data Hrender. cbv zeta.
  assert (App.metrics render env fuel (App.create_app (PStr key)) aw
          = (Ok (flask.mkResponse (Exposition data) MIMETYPE_TEXT_PLAIN 200),
             mkAppWorld w2 (app_logs aw))) as ->; [| split; reflexivity].
  unfold App.metrics.
  destruct (configured_key key Hkey) as [-> ->]. cbn [negb].
  unfold bind at 1. fold w. rewrite Ec.
  unfold App.generate_latest. unfold bind at 1. rewrite Ecol.
  cbn [families Collector.describe Collector.metrics _metrics c map snd].
  rewrite Hrender. reflexivity.
Qed.

Lemma each_request_serves_one_scrape_witness :
  exists up st ssl sc,
    map name [up; st; ssl; sc]
    = ["uptimerobot_up"; "uptimerobot_status"; "uptimerobot_ssl_expire";
       "uptimerobot_scrape_duration_seconds"]
    /\ sample_count up = List.length [up_monitor]
    /\ sample_count st = List.length [up_monitor]
    /\ sample_count sc = 1%nat
    /\ forall data,
         sample_names [up; st; ssl; sc] = Ok data ->
         let answer :=
           App.metrics sample_names single_page_upstream 0
             (App.create_app (PStr "ur12345-abcdef123456789"))
             (mkAppWorld fresh_world []) in
         fst answer
         = Ok (flask.mkResponse (Exposition data) MIMETYPE_TEXT_PLAIN 200)
         /\ app_logs (snd answer) = app_logs (mkAppWorld fresh_world []).
Proof.
  apply (each_request_serves_one_scrape sample_names single_page_upstream 0
           "ur12345-abcdef123456789" (mkAppWorld fresh_world []) [up_monitor]).
  - discriminate.
  - reflexivity.
  - reflexivity.
Defined.

(** X12. How [/metrics] answers when no scrape can be served.  Without a
    key (none given when the application was made, or an empty one) the
    answer is 500 and nothing else happens: no collector, no request to
    the server.  With a key, a fetch that raises [UptimeRobotAPIError]
    gives 503 with that error in the body and one error record of the
    application, whatever the renderer would do.  A key that is not a
    string gives 500 with the [TypeError] of the collector's
    constructor. *)
Theorem route_answers_failures_with_a_status
    (render : list PrometheusGauge -> result string) (env : environment)
    (fuel : nat) (aw : app_world) :
  (forall api_key,
      truthy api_key = false ->
      App.metrics render env fuel (App.create_app api_key) aw
      = (Ok (flask.mkResponse API_key_not_configured MIMETYPE_TEXT_PLAIN 500),
         aw))
  /\ (forall key cause,
        key <> "" ->
        fst (Collector._get_monitors env fuel (collector_world aw))
        = Exc (UptimeRobotAPIError cause) ->
        let answer :=
          App.metrics render env fuel (App.create_app (PStr key)) aw in
        fst answer
        = Ok (flask.mkResponse
                (UptimeRobot_API_Error (UptimeRobotAPIError cause))
                MIMETYPE_TEXT_PLAIN 503)
        /\ app_logs (snd answer)
           = app_logs aw
             ++ [(ERROR, UptimeRobot_API_error (UptimeRobotAPIError cause))]
        /\ heap (collector_world (snd answer))
           = heap (snd (Collector.configure (PStr key) 30
                          (collector_world aw))))
  /\ (forall api_key,
        truthy api_key = true ->
        (forall s, api_key <> PStr s) ->
        let e := TypeError "API key must be a string" in
        App.metrics render env fuel (App.create_app api_key) aw
        = (Ok (flask.mkResponse (Error_collecting_metrics_with_trace e)
                 MIMETYPE_TEXT_PLAIN 500),
           mkAppWorld (collector_world aw)
             (app_logs aw ++ [(ERROR, Error_collecting_metrics_in_route e)]))).
Proof.
  split; [| split].
  - intros api_key H. unfold App.metrics, App.create_app. rewrite H.
    reflexivity.
  - intros key cause Hkey Hfetch. cbv zeta.
    set (w := collector_world aw) in *.
    destruct (configure_builds_empty_families key w Hkey)
      as (w0 & Ec & _).
    set (c := mkCollector key 30 _) in *.
    destruct (Collector._get_monitors env fuel (snd (Collector.now env w0)))
      as [r w1] eqn:E.
    assert (r = Exc (UptimeRobotAPIError cause)) as ->.
    { rewrite <- Hfetch.
      rewrite (get_monitors_world_blind env fuel w
                 (snd (Collector.now env w0))).
      rewrite E. reflexivity. }
    assert (heap w1 = heap w0) as Hheap.
    { destruct (get_monitors_quiet env fuel) as [Hh _].
      specialize (Hh (snd (Collector.now env w0))). rewrite E in Hh.
      exact Hh. }
    pose proof (collect_propagates env fuel c w0 w1 cause E) as Ecol.
    assert (App.metrics render env fuel (App.create_app (PStr key)) aw
            = (Ok (flask.mkResponse
                     (UptimeRobot_API_Error (UptimeRobotAPIError cause))
                     MIMETYPE_TEXT_PLAIN 503),
               mkAppWorld w1
                 (app_logs aw
                  ++ [(ERROR,
                       UptimeRobot_API_error (UptimeRobotAPIError cause))])))
      as ->.
    { unfold App.metrics.
      destruct (configured_key key Hkey) as [-> ->]. cbn [negb].
      unfold bind at 1. fold w. rewrite Ec.
      unfold App.generate_latest. unfold bind at 1. rewrite Ecol.
      reflexivity. }
    rewrite Ec. cbn [fst snd collector_world app_logs].
    repeat split. exact Hheap.
  - intros api_key Ht Hns. cbv zeta. unfold App.metrics, App.create_app.
    rewrite Ht. cbn [flask.config dict_get dict_lookup String.eqb Ascii.eqb
                     Bool.eqb].
    rewrite Ht. cbn [negb]. unfold bind at 1.
    unfold Collector.configure, Collector.__init__. rewrite Ht. cbn [negb].
    destruct api_key; try reflexivity.
    exfalso. exact (Hns s eq_refl).
Qed.

Lemma route_answers_failures_with_a_status_witness :
  let aw := mkAppWorld fresh_world [] in
  let e := TypeError "API key must be a string" in
  App.metrics sample_names broken_link_upstream 1 (App.create_app PNone) aw
  = (Ok (flask.mkResponse API_key_not_configured MIMETYPE_TEXT_PLAIN 500), aw)
  /\ (let answer :=
        App.metrics sample_names broken_link_upstream 1
          (App.create_app (PStr "ur12345-abcdef123456789")) aw in
      fst answer
      = Ok (flask.mkResponse
              (UptimeRobot_API_Error (UptimeRobotAPIError (HTTPError 500)))
              MIMETYPE_TEXT_PLAIN 503)
      /\ app_logs (snd answer)
         = app_logs aw
           ++ [(ERROR,
                UptimeRobot_API_error (UptimeRobotAPIError (HTTPError 500)))]
      /\ heap (collector_world (snd answer))
         = heap (snd (Collector.configure (PStr "ur12345-abcdef123456789") 30
                        (collector_world aw))))
  /\ App.metrics sample_names broken_link_upstream 1
       (App.create_app (PInt 12345)) aw
     = (Ok (flask.mkResponse (Error_collecting_metrics_with_trace e)
              MIMETYPE_TEXT_PLAIN 500),
        mkAppWorld (collector_world aw)
          (app_logs aw ++ [(ERROR, Error_collecting_metrics_in_route e)])).
Proof.
  intros aw e.
  destruct (route_answers_failures_with_a_status sample_names
              broken_link_upstream 1 aw) as (H1 & H2 & H3).
  split; [| split].
  - apply (H1 PNone). reflexivity.
  - apply (H2 "ur12345-abcdef123456789" (HTTPError 500)).
    + discriminate.
    + vm_compute. reflexivity.
  - apply (H3 (PInt 12345)); [reflexivity | discriminate].
Defined.

(** ** Starting the application *)

Lemma nonempty_true (s : string) : nonempty s = true <-> s <> "".
Proof. destruct s; cbn; split; congruence. Qed.

Lemma configured_app_is_never_unconfigured
    (render : list PrometheusGauge -> result string) (env : environment)
    (fuel : nat) (key : string) (aw : app_world) (r : flask.Response) :
  key <> "" ->
  fst (App.metrics render env fuel (App.create_app (PStr key)) aw) = Ok r ->
  flask.body r <> API_key_not_configured.
Proof.
  intros Hkey. unfold App.metrics.
  destruct (configured_key key Hkey) as [-> ->]. cbn [negb].
  destruct (bind _ _ _) as [[data | e |] w]; cbn [fst].
  - intros [= <-]. discriminate.
  - destruct (is_UptimeRobotAPIError e); intros [= <-]; discriminate.
  - discriminate.
Qed.

(** X13. [main] starts the server only with a key that is not empty, and
    the key in the process environment goes before the configuration
    file's.  The application it starts is configured with that key, bound
    to the host and port of the options, and never answers [/metrics] with
    the "not configured" body; when [main] starts nothing, the process
    environment has no key and the last log record says that none was
    found. *)
Theorem main_starts_only_a_configured_app
    (environ : string -> option string) (ConfigParser : Type)
    (config_get : ConfigParser -> string -> string -> config_error + string)
    (config_read : string -> option ConfigParser) (options : Namespace) :
  let outcome := App.main environ ConfigParser config_get config_read options in
  let in_environ := environ "UPTIMEROBOT_API_KEY" in
  match fst outcome with
  | Some (run app h p) =>
      h = host options /\ p = port options
      /\ exists key,
           key <> "" /\ app = App.create_app (PStr key)
           /\ dict_lookup "UPTIMEROBOT_API_KEY" (flask.config app)
              = Some (PStr key)
           /\ (in_environ = Some key
               \/ ((in_environ = None \/ in_environ = Some "")
                   /\ exists path config,
                        config_file options = Some path
                        /\ config_read path = Some config
                        /\ config_get config "default" "api_key" = inr key))
           /\ forall render env fuel aw r,
                fst (App.metrics render env fuel app aw) = Ok r ->
                flask.body r <> API_key_not_configured
  | None =>
      (in_environ = None \/ in_environ = Some "")
      /\ exists before, snd outcome = before ++ [(ERROR, API_key_not_found)]
  end
  /\ (forall key,
        in_environ = Some key -> key <> "" ->
        fst outcome
        = Some (run (App.create_app (PStr key)) (host options) (port options))).
Proof.
  intros outcome in_environ. subst outcome. unfold App.main.
  set (loaded :=
         match config_file options with
         | Some path =>
             if nonempty path
             then App.load_config ConfigParser config_read path
             else (None, [])
         | None => (None, [])
         end).
  assert (forall config, fst loaded = Some config ->
            exists path, config_file options = Some path
                         /\ config_read path = Some config) as Hloaded.
  { subst loaded. intros config. destruct (config_file options) as [path |];
      [| discriminate].
    destruct (nonempty path); [| discriminate].
    unfold App.load_config.
    destruct (config_read path) as [c |] eqn:E; [| discriminate].
    intros [= <-]. eauto. }
  destruct loaded as [config read_log]. cbn [fst] in Hloaded.
  unfold App.get_api_key. fold in_environ.
  assert (forall key, key <> "" ->
            exists key',
              key' <> "" /\ App.create_app (PStr key) = App.create_app (PStr key')
              /\ dict_lookup "UPTIMEROBOT_API_KEY"
                   (flask.config (App.create_app (PStr key)))
                 = Some (PStr key')
              /\ key' = key
              /\ forall render env fuel aw r,
                   fst (App.metrics render env fuel (App.create_app (PStr key))
                          aw) = Ok r ->
                   flask.body r <> API_key_not_configured) as Hstarted.
  { intros key Hkey. exists key. split; [exact Hkey |].
    split; [reflexivity |]. split.
    - unfold App.create_app.
      destruct key; [congruence | reflexivity].
    - split; [reflexivity |]. intros render env fuel aw r.
      apply configured_app_is_never_unconfigured. exact Hkey. }
  destruct in_environ as [k |] eqn:Eenv.
  - destruct (nonempty k) eqn:Hk.
    + apply nonempty_true in Hk. cbn [fst snd]. rewrite (proj2 (nonempty_true k) Hk).
      cbn [fst]. split.
      * split; [reflexivity |]. split; [reflexivity |].
        destruct (Hstarted k Hk) as (k' & H1 & H2 & H3 & -> & H5).
        exists k. repeat split; auto.
      * intros key [= <-] _. reflexivity.
    + assert (k = "") as -> by (destruct k; [reflexivity | discriminate]).
      split; [| intros key [= <-] H; congruence].
      destruct config as [c |].
      * destruct (config_get c "default" "api_key") as [e | value] eqn:Eget.
        -- cbn [fst snd]. split; [right; reflexivity |].
           eexists. rewrite app_assoc. reflexivity.
        -- destruct (nonempty value) eqn:Hv; cbn [fst snd].
           ++ apply nonempty_true in Hv.
              split; [reflexivity |]. split; [reflexivity |].
              destruct (Hstarted value Hv) as (k' & H1 & H2 & H3 & -> & H5).
              destruct (Hloaded c eq_refl) as (path & Hp & Hr).
              exists value. repeat split; auto.
              right. split; [right; reflexivity |]. eauto.
           ++ split; [right; reflexivity |].
              eexists. rewrite app_assoc. reflexivity.
      * cbn [fst snd]. split; [right; reflexivity |].
        eexists. rewrite app_assoc. reflexivity.
  - split; [| discriminate].
    destruct config as [c |].
    + destruct (config_get c "default" "api_key") as [e | value] eqn:Eget.
      * cbn [fst snd]. split; [left; reflexivity |].
        eexists. rewrite app_assoc. reflexivity.
      * destruct (nonempty value) eqn:Hv; cbn [fst snd].
        -- apply nonempty_true in Hv.
           split; [reflexivity |]. split; [reflexivity |].
           destruct (Hstarted value Hv) as (k' & H1 & H2 & H3 & -> & H5).
           destruct (Hloaded c eq_refl) as (path & Hp & Hr).
           exists value. repeat split; auto.
           right. split; [left; reflexivity |]. eauto.
        -- split; [left; reflexivity |].
           eexists. rewrite app_assoc. reflexivity.
    + cbn [fst snd]. split; [left; reflexivity |].
      eexists. rewrite app_assoc. reflexivity.
Qed.

Lemma main_starts_only_a_configured_app_witness :
  let options :=
    mkNamespace "127.0.0.1" DEFAULT_PORT (Some "/etc/uptimerobot.ini") in
  let app := App.create_app (PStr "ur12345-abcdef123456789") in
  fst (App.main key_in_environ sections sections_get one_config_file options)
  = Some (run app "127.0.0.1" DEFAULT_PORT)
  /\ exists r,
       fst (App.metrics sample_names single_page_upstream 0 app
              (mkAppWorld fresh_world [])) = Ok r
       /\ flask.body r <> API_key_not_configured.
Proof.
  intros options app.
  pose proof (main_starts_only_a_configured_app key_in_environ sections
                sections_get one_config_file options) as H.
  cbv zeta in H. destruct H as [Hstarted Hfirst].
  assert (fst (App.main key_in_environ sections sections_get one_config_file
                 options)
          = Some (run app "127.0.0.1" DEFAULT_PORT)) as E.
  { apply (Hfirst "ur12345-abcdef123456789"); [reflexivity | discriminate]. }
  split; [exact E |].
  rewrite E in Hstarted.
  destruct Hstarted as (_ & _ & key & _ & _ & _ & _ & Hroute).
  eexists. split; [vm_compute; reflexivity |].
  apply (Hroute sample_names single_page_upstream 0%nat
           (mkAppWorld fresh_world [])).
  vm_compute. reflexivity.
Defined.

(** ** Timestamps with a UTC offset *)

Lemma str_replace_digits_only (new : string) (n : nat) (v : Z) :
  str_replace "Z" new (digits n v) = digits n v.
Proof.
  rewrite <- (append_empty_r (digits n v)) at 1.
  rewrite str_replace_digits. cbn [str_replace]. apply append_empty_r.
Qed.

Lemma replace_Z_in_iso_offset_string (y m d hh mm ss : Z) (f : fraction)
    (s : direction) (oh om : Z) :
  str_replace "Z" "+00:00" (iso_offset_string y m d hh mm ss f s oh om)
  = iso_offset_string y m d hh mm ss f s oh om.
Proof.
  unfold iso_offset_string. destruct s; cbn [sign_char];
    repeat (rewrite str_replace_digits
            || rewrite str_replace_fraction
            || (progress cbn [append str_replace Ascii.eqb Bool.eqb]));
    rewrite str_replace_digits_only; reflexivity.
Qed.

Lemma split_time_with_offset (hh mm ss : Z) (f : fraction) (s : direction)
    (tz : string) :
  split_at_sign
    (digits 2 hh
     ++ String ":" (digits 2 mm
     ++ String ":" (digits 2 ss ++ fraction_string f
                    ++ String (sign_char s) tz)))
  = ((digits 2 hh
      ++ String ":" (digits 2 mm
      ++ String ":" (digits 2 ss ++ fraction_string f)))%string,
     Some (sign_char s, tz)).
Proof.
  rewrite split_at_sign_digits.
  rewrite split_at_sign_cons by reflexivity. cbn [fst snd].
  rewrite split_at_sign_digits. cbn [append fst snd].
  rewrite split_at_sign_cons by reflexivity. cbn [fst snd].
  rewrite split_at_sign_digits. cbn [fst snd].
  rewrite split_at_sign_fraction. cbn [fst snd].
  assert (split_at_sign (String (sign_char s) tz)
          = (EmptyString, Some (sign_char s, tz))) as ->
    by (destruct s; reflexivity).
  cbn [fst snd]. rewrite append_empty_r. reflexivity.
Qed.

Lemma parse_rendered_offset (oh om : Z) :
  0 <= oh <= 23 -> 0 <= om <= 59 ->
  tz_length_ok (digits 2 oh ++ ":" ++ digits 2 om) = true
  /\ _parse_hh_mm_ss_ff (digits 2 oh ++ ":" ++ digits 2 om)
     = Some (oh, om, 0, 0).
Proof.
  intros Hh Hm. split; [reflexivity |].
  unfold _parse_hh_mm_ss_ff.
  rewrite parse_digits_small by (cbn; lia). cbn [and_then append].
  cbn [Ascii.eqb Bool.eqb negb].
  rewrite parse_digits_exact by (cbn; lia). reflexivity.
Qed.

Lemma fromisoformat_with_offset (env : environment) (y m d hh mm ss : Z)
    (f : fraction) (s : direction) (oh om : Z) :
  valid_fields y m d hh mm ss ->
  fraction_in_range f ->
  0 <= oh <= 23 -> 0 <= om <= 59 ->
  fromisoformat env (iso_offset_string y m d hh mm ss f s oh om)
  = Ok (mkDatetime y m d hh mm ss (fraction_micros f)
          (Some (offset_micros s oh om))).
Proof.
  intros (Hy & Hm & Hd & Hh & Hmi & Hs) Hf Hoh Hom.
  unfold iso_offset_string, fromisoformat, _parse_isoformat_date.
  rewrite parse_digits_small by (cbn; lia).
  cbn [and_then append expect Ascii.eqb Bool.eqb andb].
  rewrite parse_digits_small by (cbn; lia).
  cbn [and_then append expect Ascii.eqb Bool.eqb andb].
  assert (0 <= d <= 31) as Hd'.
  { destruct (month_cases m Hm) as [E | E]; repeat (destruct E as [E | E]);
      subst m; cbn [month_length] in Hd; try destruct (leap_year y); lia. }
  rewrite parse_digits_small by (cbn; lia). cbn [and_then].
  unfold _parse_isoformat_time. rewrite split_time_with_offset.
  rewrite parse_rendered_time_cons by assumption. cbn [and_then].
  destruct (parse_rendered_offset oh om Hoh Hom) as [Hlen Htz].
  change (digits 2 oh ++ String ":" (digits 2 om))%string
    with (digits 2 oh ++ ":" ++ digits 2 om)%string.
  rewrite Hlen, Htz. cbn [negb and_then].
  assert ((if Ascii.eqb (sign_char s) "-" then -1 else 1)
          * ((oh * 3600 + om * 60 + 0) * 1000000 + 0)
          = offset_micros s oh om) as ->
    by (destruct s; cbn [sign_char Ascii.eqb Bool.eqb offset_micros]; lia).
  assert (fields_in_range
            (mkDatetime y m d hh mm ss (fraction_micros f)
               (Some (offset_micros s oh om))) = true)
    as ->; [| reflexivity].
  unfold fields_in_range, between.
  cbn [year month day hour minute second microsecond tzinfo].
  rewrite days_in_month_is_month_length by assumption.
  assert (0 <= fraction_micros f <= 999999) as Hus.
  { destruct f; cbn in Hf |- *; lia. }
  assert (-86400000000 < offset_micros s oh om < 86400000000) as Hoff
    by (destruct s; cbn [offset_micros]; lia).
  repeat (apply andb_true_iff; split);
    try (apply Z.leb_le; lia); apply Z.ltb_lt; lia.
Qed.

Lemma timestamp_of_aware (env : environment) (y m d hh mm ss us off : Z) :
  1 <= y -> 1 <= m <= 12 ->
  timestamp env (mkDatetime y m d hh mm ss us (Some off))
  = Ok (PFloat ((utc_epoch_micros y m d hh mm ss us - off) # 1000000)).
Proof.
  intros Hy Hm. unfold timestamp, total_seconds, utc_epoch_micros.
  cbn [year month day hour minute second microsecond tzinfo].
  rewrite ymd2ord_is_days_since_epoch by assumption.
  do 3 f_equal. lia.
Qed.

(** X14. The normalizer reads a UTC offset as well as the [Z].  For a
    timestamp [YYYY-MM-DDThh:mm:ss[.fff[fff]]] with fields in calendar
    range that ends in [+HH:MM] or [-HH:MM] (hours up to 23, minutes up to
    59) it returns the epoch seconds of the instant: those of the same
    fields read as UTC, less the offset - so a time east of Greenwich is
    earlier than the same digits with [Z].  It logs nothing. *)
Theorem normalizer_subtracts_the_offset
    (env : environment) (y m d hh mm ss : Z) (f : fraction) (s : direction)
    (oh om : Z) (w : world) :
  valid_fields y m d hh mm ss ->
  fraction_in_range f ->
  0 <= oh <= 23 -> 0 <= om <= 59 ->
  Collector._parse_iso_datetime env
    (PStr (iso_offset_string y m d hh mm ss f s oh om)) w
  = (Ok (PFloat ((utc_epoch_micros y m d hh mm ss (fraction_micros f)
                  - offset_micros s oh om) # 1000000)), w).
Proof.
  intros Hv Hf Hoh Hom. unfold Collector._parse_iso_datetime.
  assert (truthy (PStr (iso_offset_string y m d hh mm ss f s oh om)) = true)
    as -> by reflexivity.
  cbn [negb]. unfold try_except, bind, lift, py_replace.
  rewrite replace_Z_in_iso_offset_string.
  rewrite fromisoformat_with_offset by assumption.
  destruct Hv as (Hy & Hm & _).
  rewrite timestamp_of_aware by lia. reflexivity.
Qed.

Lemma normalizer_subtracts_the_offset_witness :
  Collector._parse_iso_datetime single_page_upstream
    (PStr "2026-01-01T01:59:59.000+02:00") empty_world
  = (Ok (PFloat (1767225599000000 # 1000000)), empty_world).
Proof.
  apply (normalizer_subtracts_the_offset single_page_upstream
           2026 1 1 1 59 59 (milliseconds 0) east 2 0 empty_world).
  - unfold valid_fields. cbn. lia.
  - cbn. lia.
  - lia.
  - lia.
Defined.

(** ** Dates that are not in the calendar *)

(** X15. A timestamp of the right shape whose date is not in the
    calendar (a month 00 or above 12, a day 00 or past the end of the
    month, the year 0000) is not an error for the caller: the normalizer
    returns [None] and leaves one error record with the [ValueError] of
    [fromisoformat]. *)
Theorem normalizer_rejects_impossible_dates
    (env : environment) (y m d hh mm ss : Z) (f : fraction) (w : world) :
  0 <= y <= 9999 -> 0 <= m <= 99 -> 0 <= d <= 99 ->
  0 <= hh <= 23 -> 0 <= mm <= 59 -> 0 <= ss <= 59 ->
  fraction_in_range f ->
  ~ (1 <= y /\ 1 <= m <= 12 /\ 1 <= d <= month_length y m) ->
  exists msg,
    Collector._parse_iso_datetime env
      (PStr (iso_utc_string y m d hh mm ss f)) w
    = (Ok PNone,
       mkWorld (heap w) (calls w)
         (logs w
          ++ [(ERROR,
               Failed_to_parse_datetime
                 (PStr (iso_utc_string y m d hh mm ss f)) (ValueError msg))])
         (ticks w)).
Proof.
  intros Hy Hm Hd Hh Hmi Hs Hf Hbad.
  assert (fromisoformat env
            (str_replace "Z" "+00:00" (iso_utc_string y m d hh mm ss f))
          = Exc (ValueError "field out of range")) as Hrej.
  { rewrite replace_Z_in_iso_utc_string.
    unfold fromisoformat, _parse_isoformat_date.
    rewrite parse_digits_small by (cbn; lia).
    cbn [and_then append expect Ascii.eqb Bool.eqb andb].
    rewrite parse_digits_small by (cbn; lia).
    cbn [and_then append expect Ascii.eqb Bool.eqb andb].
    rewrite parse_digits_small by (cbn; lia). cbn [and_then].
    unfold _parse_isoformat_time. rewrite split_rendered_time_cons.
    rewrite parse_rendered_time_cons by assumption. cbn [and_then].
    change (tz_length_ok "00:00") with true. cbn [negb].
    change (_parse_hh_mm_ss_ff "00:00") with (Some (0, 0, 0, 0)).
    cbn [and_then Ascii.eqb Bool.eqb].
    match goal with
    | |- context [fields_in_range ?DT] => set (dt := DT)
    end.
    assert (date_in_range dt = false) as Hdate.
    { destruct (date_in_range dt) eqn:Hrange; [| reflexivity].
      exfalso. apply Hbad.
      unfold date_in_range, between in Hrange. subst dt.
      cbn [year month day] in Hrange.
      repeat (apply andb_true_iff in Hrange; destruct Hrange as [Hrange ?]).
      repeat match goal with
             | H : (_ <=? _) = true |- _ => apply Z.leb_le in H
             end.
      assert (1 <= m <= 12) as Hm' by lia.
      rewrite days_in_month_is_month_length in * by assumption.
      lia. }
    assert (fields_in_range dt = false) as ->.
    { unfold fields_in_range. fold (date_in_range dt). rewrite Hdate.
      reflexivity. }
    rewrite Hdate. reflexivity. }
  exists "field out of range".
  apply parse_iso_datetime_logs_rejection; [discriminate | exact Hrej].
Qed.

Lemma normalizer_rejects_impossible_dates_witness :
  exists msg,
    Collector._parse_iso_datetime single_page_upstream
      (PStr "2025-02-29T12:00:00Z") empty_world
    = (Ok PNone,
       mkWorld (heap empty_world) (calls empty_world)
         (logs empty_world
          ++ [(ERROR,
               Failed_to_parse_datetime (PStr "2025-02-29T12:00:00Z")
                 (ValueError msg))])
         (ticks empty_world)).
Proof.
  apply (normalizer_rejects_impossible_dates single_page_upstream
           2025 2 29 12 0 0 whole_second empty_world); try lia.
  - exact I.
  - cbn. lia.
Defined.

(** ** A record that is no JSON object *)

Lemma for_each_app {A : Type} (l1 l2 : list A) (body : A -> M unit)
    (w : world) :
  for_each (l1 ++ l2) body w
  = (for_each l1 body ;; for_each l2 body) w.
Proof.
  revert w. induction l1 as [| x l1 IH]; intros w; cbn [app for_each].
  - reflexivity.
  - unfold bind. destruct (body x w) as [[[] | e |] w0];
      [rewrite IH; reflexivity | reflexivity | reflexivity].
Qed.

Lemma process_monitor_non_record (env : environment) (monitor : pyval)
    (metrics : list (string * nat)) (w : world) :
  is_record monitor = false ->
  Collector._process_monitor env monitor metrics w = (Exc AttributeError, w).
Proof. destruct monitor; try reflexivity. discriminate. Qed.

(** X16. A scrape is cut short at the first record that is no JSON object.
    When the fetch returns such a record among the others, [collect]
    still returns the collector's families without raising, but they hold
    the [up] and [status] samples of the records before it only: the
    records after it are not mapped, no scrape duration is recorded, and
    the last log record carries the [AttributeError]. *)
Theorem scrape_stops_at_the_first_non_record
    (env : environment) (fuel : nat) (self : UptimeRobotCollector)
    (w w1 : world) (before after : list pyval) (bad : pyval) :
  let metrics := Collector.metrics self in
  is_metric_set metrics w = true ->
  Collector._get_monitors env fuel (snd (Collector.now env w))
  = (Ok (before ++ bad :: after), w1) ->
  forallb is_record before = true ->
  is_record bad = false ->
  exists w',
    Collector.collect env fuel self w = (Ok (Collector.describe self), w')
    /\ sample_count (family w' metrics "up")
       = (sample_count (family w metrics "up") + List.length before)%nat
    /\ sample_count (family w' metrics "status")
       = (sample_count (family w metrics "status") + List.length before)%nat
    /\ family w' metrics "scrape_duration_seconds"
       = family w metrics "scrape_duration_seconds"
    /\ exists earlier,
         logs w'
         = earlier ++ [(ERROR, Error_collecting_metrics AttributeError)].
Proof.
  intros metrics Hms Hfetch Hrec Hbad.
  destruct (is_metric_set_facts _ _ Hms)
    as (up & st & ssl & sc & Hup & Hst & Hssl & Hsc & _).
  destruct (get_monitors_quiet env fuel) as [Hheap _].
  specialize (Hheap (snd (Collector.now env w))).
  rewrite Hfetch in Hheap. cbn [snd Collector.now heap] in Hheap.
  assert (is_metric_set metrics w1 = true) as Hms1.
  { unfold is_metric_set in *. rewrite Hheap. exact Hms. }
  destruct (for_each_record env metrics up st sc before w1 Hms1 Hup Hst Hsc
              Hrec) as (w2 & Eloop & _ & _ & Gsc & Gup & Gst).
  assert (forall a, gauge_at w1 a = gauge_at w a) as Hsame
    by (intros a; unfold gauge_at; rewrite Hheap; reflexivity).
  eexists. split.
  - cbn [Collector.now snd] in Hfetch.
    unfold Collector.collect. unfold bind at 1. cbn [Collector.now snd].
    unfold bind at 1. unfold try_except. unfold bind at 1.
    rewrite Hfetch. unfold bind at 1. fold metrics.
    rewrite for_each_app. unfold bind at 1. rewrite Eloop.
    cbn [for_each]. unfold bind at 1.
    rewrite process_monitor_non_record by assumption.
    cbn [except_Exception is_UptimeRobotAPIError]. reflexivity.
  - unfold family. rewrite Hup, Hst, Hsc. unfold gauge_at in *.
    cbn [heap logs]. rewrite Gup, Gst, Gsc, !Hsame.
    repeat split. eexists. reflexivity.
Qed.

Lemma scrape_stops_at_the_first_non_record_witness :
  let metrics := Collector.metrics the_collector in
  exists w',
    Collector.collect null_record_upstream 0 the_collector fresh_world
    = (Ok (Collector.describe the_collector), w')
    /\ sample_count (family w' metrics "up")
       = (sample_count (family fresh_world metrics "up") + List.length (@nil pyval))%nat
    /\ sample_count (family w' metrics "status")
       = (sample_count (family fresh_world metrics "status")
          + List.length (@nil pyval))%nat
    /\ family w' metrics "scrape_duration_seconds"
       = family fresh_world metrics "scrape_duration_seconds"
    /\ exists earlier,
         logs w'
         = earlier ++ [(ERROR, Error_collecting_metrics AttributeError)].
Proof.
  apply (scrape_stops_at_the_first_non_record null_record_upstream 0
           the_collector fresh_world
           (snd (Collector._get_monitors null_record_upstream 0
                   (snd (Collector.now null_record_upstream fresh_world))))
           [] [up_monitor] PNone).
  - reflexivity.
  - vm_compute. reflexivity.
  - reflexivity.
  - reflexivity.
Defined.
